(** * Smart pull: conflict classifier, version-bump resolver and strategy cascade

    A shallow embedding of the [pull] command handler (the file that
    defines [canAutoResolve], [tryResolvePackageJsonConflict],
    [resolveConflict], [autoResolveConflicts], [stashIfNeeded],
    [applyStashIfNeeded], [regenerateLockFiles], [executePull],
    [executeInternal] and [execute]).

    Conventions of the embedding.
    - A JavaScript string is a [string] of 8-bit code units.
    - A regular expression literal is a term of [Regex.regex]; it is run by a
      backtracking matcher that follows the ECMAScript matching order
      (leftmost start, alternatives left to right, greedy and lazy
      quantifiers).
    - An [async] function is a computation in the monad [M]: it threads the
      state of the outside world, either returns a value or throws, and
      appends every call made to an external collaborator to a call log.
    - The collaborators ([runSecure], [run], [getCurrentBranch],
      [getGitStatusSummary], the storage object, [Date.now], [semver.gt]) are
      the fields of a record that every function of the engine takes: a
      theorem about all such records holds for all their behaviours.
    - Calls to the logger return nothing that the control flow uses and are
      left out.

    The file also embeds the helpers of the [commit] command handler that
    do their work through the same collaborators ([readContextFiles],
    [hasCommits], [pushCommit], [determineCachedState],
    [validateSenditState], [saveCommitMessage], [deduplicateSplits],
    [reviewSplitInteractively], [createSingleSplitCommit] and
    [executeSplitCommits]). The functions that they take from other
    packages are parameters of the embedding, and [deduplicateSplits]
    returns the warnings that it gives to the logger next to its result. *)

From Stdlib Require Import Bool Arith NArith Lia List Ascii String DecimalString
  Permutation.
Import ListNotations.
Open Scope string_scope.
Open Scope bool_scope.

(* ================================================================== *)
(** * String primitives of the host language *)
(* ================================================================== *)

Module Js.

(** The line feed and the double quote, which have no escape in a literal. *)
Definition LF : ascii := "010"%char.
Definition DQ : ascii := "034"%char.
Definition nl : string := String LF "".
Definition dq : string := String DQ "".

(** [s.length] *)
Definition len (s : string) : nat := String.length s.

(** [s.slice(n)] for [0 <= n]. *)
Fixpoint drop (n : nat) (s : string) : string :=
  match n, s with
  | 0, _ => s
  | S n', String _ s' => drop n' s'
  | S _, EmptyString => EmptyString
  end.

(** [s.slice(0, n)] for [0 <= n]. *)
Fixpoint take (n : nat) (s : string) : string :=
  match n, s with
  | 0, _ => EmptyString
  | S n', String c s' => String c (take n' s')
  | S _, EmptyString => EmptyString
  end.

(** [s.startsWith(p)] *)
Fixpoint startsWith (s p : string) {struct p} : bool :=
  match p, s with
  | EmptyString, _ => true
  | String a p', String b s' => Ascii.eqb a b && startsWith s' p'
  | String _ _, EmptyString => false
  end.

(** [s.includes(sub)] *)
Fixpoint includes (s sub : string) : bool :=
  startsWith s sub ||
  match s with
  | EmptyString => false
  | String _ s' => includes s' sub
  end.

(** [s.endsWith(suf)] *)
Fixpoint endsWith (s suf : string) : bool :=
  String.eqb s suf ||
  match s with
  | EmptyString => false
  | String _ s' => endsWith s' suf
  end.

(** White space and line terminators among the 8-bit code units: TAB, LF,
    VT, FF, CR, SP and NBSP.  This is the class [\s] and what [trim] strips. *)
Definition isWhiteSpace (c : ascii) : bool :=
  let n := nat_of_ascii c in
  ((n =? 9) || (n =? 10) || (n =? 11) || (n =? 12) || (n =? 13) ||
   (n =? 32) || (n =? 160))%nat.

(** Line terminators among the 8-bit code units; [.] matches all others. *)
Definition isLineTerminator (c : ascii) : bool :=
  let n := nat_of_ascii c in ((n =? 10) || (n =? 13))%nat.

Fixpoint trimStart (s : string) : string :=
  match s with
  | EmptyString => EmptyString
  | String c s' => if isWhiteSpace c then trimStart s' else s
  end.

(** [trimEnd] keeps a character when it is not white space or when
    something survives after it. *)
Fixpoint trimEnd (s : string) : string :=
  match s with
  | EmptyString => EmptyString
  | String c s' =>
      match trimEnd s' with
      | EmptyString => if isWhiteSpace c then EmptyString else String c EmptyString
      | t => String c t
      end
  end.

(** [s.trim()] *)
Definition trim (s : string) : string := trimEnd (trimStart s).

(** [s.split('\n')]: never the empty list. *)
Fixpoint splitLF (s : string) : list string :=
  match s with
  | EmptyString => [EmptyString]
  | String c s' =>
      if Ascii.eqb c LF then EmptyString :: splitLF s'
      else match splitLF s' with
           | h :: t => String c h :: t
           | [] => [String c EmptyString]
           end
  end.

(** A non-empty string is truthy. *)
Definition truthy (s : string) : bool :=
  match s with EmptyString => false | _ => true end.

(** [`${n}`] for a non-negative integer. *)
Definition ofNat (n : nat) : string := NilZero.string_of_uint (Nat.to_uint n).
Definition ofN (n : N) : string := NilZero.string_of_uint (N.to_uint n).

(** [lines.join('\n')] *)
Fixpoint joinLF (l : list string) : string :=
  match l with
  | [] => EmptyString
  | [x] => x
  | x :: rest => x ++ nl ++ joinLF rest
  end.

(** [s.repeat(n)] *)
Fixpoint repeat (s : string) (n : nat) : string :=
  match n with 0 => EmptyString | S n' => s ++ repeat s n' end.

End Js.

(* ================================================================== *)
(** * Regular expressions *)
(* ================================================================== *)

Module Regex.

(** The fragment of the pattern syntax that the program uses.  Quantifiers
    apply to one-character classes only, which is all the program writes
    (any character but a line terminator, any character, white space, any
    character but a double quote). *)
Inductive regex : Type :=
  | Lit (s : string)                          (* literal characters *)
  | Bol                                       (* ^ *)
  | Eol                                       (* $ *)
  | Seq (r1 r2 : regex)                       (* r1r2 *)
  | Alt (r1 r2 : regex)                       (* r1|r2 *)
  | Star (greedy : bool) (p : ascii -> bool)  (* c* and c*? *)
  | Plus (greedy : bool) (p : ascii -> bool)  (* c+ and c+? *)
  | Group (n : nat) (r : regex).              (* the n-th capturing ( ) *)

Notation "r1 +++ r2" := (Seq r1 r2) (at level 61, right associativity).

(** Character classes. *)
Definition dot (c : ascii) : bool := negb (Js.isLineTerminator c).  (* . *)
Definition any (c : ascii) : bool := true.                          (* [\s\S] *)
Definition space (c : ascii) : bool := Js.isWhiteSpace c.           (* \s *)
Definition notDQ (c : ascii) : bool := negb (Ascii.eqb c Js.DQ).    (* all but the double quote *)

Definition caps : Type := list (nat * string).

Fixpoint capture (n : nat) (cs : caps) : option string :=
  match cs with
  | [] => None
  | (m, s) :: cs' => if (n =? m)%nat then Some s else capture n cs'
  end.

(** The rest of the input after the literal [l], when the input starts
    with it. *)
Fixpoint lit (l rest : string) : option string :=
  match l with
  | EmptyString => Some rest
  | String a l' =>
      match rest with
      | String b rest' => if Ascii.eqb a b then lit l' rest' else None
      | EmptyString => None
      end
  end.

Section Matcher.
Context {R : Type}.

(** Lazy repetition: first try to go on with no further character. *)
Fixpoint starLazy (p : ascii -> bool) (rest : string) (pos : nat)
         (k : string -> nat -> option R) : option R :=
  match k rest pos with
  | Some x => Some x
  | None =>
      match rest with
      | String c rest' => if p c then starLazy p rest' (S pos) k else None
      | EmptyString => None
      end
  end.

(** Greedy repetition: first take one more character. *)
Fixpoint starGreedy (p : ascii -> bool) (rest : string) (pos : nat)
         (k : string -> nat -> option R) : option R :=
  match rest with
  | String c rest' =>
      if p c then
        match starGreedy p rest' (S pos) k with
        | Some x => Some x
        | None => k rest pos
        end
      else k rest pos
  | EmptyString => k rest pos
  end.

Definition star (greedy : bool) := if greedy then starGreedy else starLazy.

(** [rmatch input r rest pos cs k]: match [r] at offset [pos] of [input],
    where [rest] is the input from [pos] on, then continue with [k];
    [None] makes the caller backtrack. *)
Fixpoint rmatch (input : string) (r : regex) (rest : string) (pos : nat)
         (cs : caps) (k : string -> nat -> caps -> option R) : option R :=
  match r with
  | Lit l =>
      match lit l rest with
      | Some rest' => k rest' (pos + Js.len l) cs
      | None => None
      end
  | Bol => if (pos =? 0)%nat then k rest pos cs else None
  | Eol => match rest with EmptyString => k rest pos cs | _ => None end
  | Seq r1 r2 =>
      rmatch input r1 rest pos cs
             (fun rest' pos' cs' => rmatch input r2 rest' pos' cs' k)
  | Alt r1 r2 =>
      match rmatch input r1 rest pos cs k with
      | Some x => Some x
      | None => rmatch input r2 rest pos cs k
      end
  | Star g p => star g p rest pos (fun rest' pos' => k rest' pos' cs)
  | Plus g p =>
      match rest with
      | String c rest' =>
          if p c then star g p rest' (S pos) (fun rest' pos' => k rest' pos' cs)
          else None
      | EmptyString => None
      end
  | Group n r1 =>
      rmatch input r1 rest pos cs
             (fun rest' pos' cs' =>
                k rest' pos' ((n, Js.take (pos' - pos) (Js.drop pos input)) :: cs'))
  end.
End Matcher.

(** The result array of a successful match: where it starts and ends, and
    the captures. *)
Record MatchResult : Type := mkMatch {
  m_start : nat;
  m_end : nat;
  m_caps : caps
}.

Definition matchAt (input : string) (r : regex) (rest : string) (pos : nat)
  : option MatchResult :=
  rmatch input r rest pos [] (fun _ pos' cs => Some (mkMatch pos pos' cs)).

(** The leftmost match at or after [pos]. *)
Fixpoint search (input : string) (r : regex) (rest : string) (pos : nat)
  : option MatchResult :=
  match matchAt input r rest pos with
  | Some m => Some m
  | None =>
      match rest with
      | EmptyString => None
      | String _ rest' => search input r rest' (S pos)
      end
  end.

(** [r.exec(input)] and [input.match(r)] for a pattern without the [g] flag. *)
Definition exec (r : regex) (input : string) : option MatchResult :=
  search input r input 0.

(** [r.test(input)] *)
Definition test (r : regex) (input : string) : bool :=
  match exec r input with Some _ => true | None => false end.

(** [m[n]]; a group that did not take part is the empty string here, the
    program never reads such a group. *)
Definition group (n : nat) (m : MatchResult) : string :=
  match capture n (m_caps m) with Some s => s | None => EmptyString end.

(** [m[0]] *)
Definition matched (input : string) (m : MatchResult) : string :=
  Js.take (m_end m - m_start m) (Js.drop (m_start m) input).

Definition isDigit (c : ascii) : bool :=
  let n := nat_of_ascii c in ((48 <=? n) && (n <=? 57))%nat.
Definition digitVal (c : ascii) : nat := nat_of_ascii c - 48.

(** The expansion of a replacement template ([GetSubstitution]): [$$], [$&],
    [$`], [$'], [$n] and [$nn] for a pattern with [ngroups] capturing groups
    and no named group. *)
Fixpoint expand (ngroups : nat) (input : string) (m : MatchResult)
         (template : string) : string :=
  match template with
  | EmptyString => EmptyString
  | String c t =>
      if negb (Ascii.eqb c "$"%char) then String c (expand ngroups input m t)
      else
        match t with
        | EmptyString => String c EmptyString
        | String d t1 =>
            if Ascii.eqb d "$"%char then String "$"%char (expand ngroups input m t1)
            else if Ascii.eqb d "&"%char then matched input m ++ expand ngroups input m t1
            else if Ascii.eqb d "`"%char then Js.take (m_start m) input ++ expand ngroups input m t1
            else if Ascii.eqb d "'"%char then Js.drop (m_end m) input ++ expand ngroups input m t1
            else if isDigit d then
              let two :=
                match t1 with
                | String e t2 =>
                    if isDigit e then
                      let i := 10 * digitVal d + digitVal e in
                      if ((1 <=? i) && (i <=? ngroups))%nat
                      then Some (group i m ++ expand ngroups input m t2)
                      else None
                    else None
                | EmptyString => None
                end in
              match two with
              | Some out => out
              | None =>
                  let i := digitVal d in
                  if ((1 <=? i) && (i <=? ngroups))%nat
                  then group i m ++ expand ngroups input m t1
                  else String c (expand ngroups input m t)
              end
            else String c (expand ngroups input m t)
        end
  end.

(** [input.replace(r, template)] for a pattern without the [g] flag. *)
Definition replace (ngroups : nat) (r : regex) (template input : string) : string :=
  match exec r input with
  | None => input
  | Some m =>
      Js.take (m_start m) input ++ expand ngroups input m template
        ++ Js.drop (m_end m) input
  end.

(** [input.replace(r, template)] for a pattern with the [g] flag: scan from
    the left, after a match resume at its end (one further on after an empty
    match). *)
Fixpoint replaceFrom (fuel : nat) (ngroups : nat) (r : regex) (template : string)
         (input rest : string) (pos : nat) : string :=
  match fuel with
  | 0 => rest
  | S fuel' =>
      match search input r rest pos with
      | None => rest
      | Some m =>
          let before := Js.take (m_start m - pos) rest in
          let after := Js.drop (m_end m - pos) rest in
          let out := before ++ expand ngroups input m template in
          if (m_end m =? m_start m)%nat then
            match after with
            | EmptyString => out
            | String c after' =>
                out ++ String c (replaceFrom fuel' ngroups r template input after' (S (m_end m)))
            end
          else out ++ replaceFrom fuel' ngroups r template input after (m_end m)
      end
  end.

Definition replaceAll (ngroups : nat) (r : regex) (template input : string) : string :=
  replaceFrom (S (Js.len input)) ngroups r template input input 0.

End Regex.
Import Regex.

(* ================================================================== *)
(** * The conflict classifier *)
(* ================================================================== *)

(** The strategy tags that flow through the program: the four that
    [canAutoResolve] returns and ['version-bump'], which only
    [autoResolveConflicts] passes. *)
Inductive Strategy : Type :=
  | RegenerateLock        (* 'regenerate-lock' *)
  | TakeTheirs            (* 'take-theirs' *)
  | TakeTheirsRegenerate  (* 'take-theirs-regenerate' *)
  | VersionBump           (* 'version-bump' *)
  | Manual.               (* 'manual' *)

Definition strategyName (s : Strategy) : string :=
  match s with
  | RegenerateLock => "regenerate-lock"
  | TakeTheirs => "take-theirs"
  | TakeTheirsRegenerate => "take-theirs-regenerate"
  | VersionBump => "version-bump"
  | Manual => "manual"
  end.

Module AUTO_RESOLVABLE_PATTERNS.
(* /^package-lock\.json$/ *)
Definition packageLock : regex := Bol +++ Lit "package-lock.json" +++ Eol.
(* /^yarn\.lock$/ *)
Definition yarnLock : regex := Bol +++ Lit "yarn.lock" +++ Eol.
(* /^pnpm-lock\.yaml$/ *)
Definition pnpmLock : regex := Bol +++ Lit "pnpm-lock.yaml" +++ Eol.
(* /^dist\// *)
Definition dist : regex := Bol +++ Lit "dist/".
(* /^coverage\// *)
Definition coverage : regex := Bol +++ Lit "coverage/".
(* /^node_modules\// *)
Definition nodeModules : regex := Bol +++ Lit "node_modules/".
(* /\.(js\.map|d\.ts)$/ *)
Definition buildOutput : regex :=
  Lit "." +++ Group 1 (Alt (Lit "js.map") (Lit "d.ts")) +++ Eol.
End AUTO_RESOLVABLE_PATTERNS.

Record Resolvable : Type := mkResolvable {
  canResolve : bool;
  strategy : Strategy
}.

Definition canAutoResolve (filename : string) : Resolvable :=
  if test AUTO_RESOLVABLE_PATTERNS.packageLock filename then
    mkResolvable true RegenerateLock
  else if test AUTO_RESOLVABLE_PATTERNS.yarnLock filename then
    mkResolvable true RegenerateLock
  else if test AUTO_RESOLVABLE_PATTERNS.pnpmLock filename then
    mkResolvable true RegenerateLock
  else if test AUTO_RESOLVABLE_PATTERNS.dist filename then
    mkResolvable true TakeTheirsRegenerate
  else if test AUTO_RESOLVABLE_PATTERNS.coverage filename then
    mkResolvable true TakeTheirs
  else if test AUTO_RESOLVABLE_PATTERNS.nodeModules filename then
    mkResolvable true TakeTheirs
  else if test AUTO_RESOLVABLE_PATTERNS.buildOutput filename then
    mkResolvable true TakeTheirsRegenerate
  else
    mkResolvable false Manual.

(* ================================================================== *)
(** * Results, the call log and the monad of asynchronous functions *)
(* ================================================================== *)

(** What awaiting a promise gives: a value, or a thrown error of which the
    program only ever reads [error.message]. *)
Inductive Result (A : Type) : Type :=
  | Ok (a : A)
  | Throw (message : string).
Arguments Ok {A} a.
Arguments Throw {A} message.

Definition isOk {A : Type} (r : Result A) : bool :=
  match r with Ok _ => true | Throw _ => false end.

(** The calls to the external collaborators. *)
Inductive Call : Type :=
  | GetCurrentBranch
  | GetGitStatusSummary
  | RunSecure (cmd : string) (args : list string)
  | Run (command : string)
  | ReadFile (path : string)
  | WriteFile (path content : string).

(** An entry of the call log: the call, and whether it returned ([true]) or
    threw ([false]). *)
Record Event : Type := mkEvent {
  call : Call;
  returned : bool
}.

(** The summary that the status inspector returns. *)
Record GitStatusSummary : Type := mkStatus {
  hasUncommittedChanges : bool;
  hasUnstagedFiles : bool;
  uncommittedCount : nat;
  unstagedCount : nat
}.

(** The external collaborators over a state of the outside world [World]
    (repository, stash list, file system, network, clock). *)
Record Collaborators (World : Type) : Type := mkCollaborators {
  getCurrentBranch : World -> Result string * World;
  getGitStatusSummary : World -> Result GitStatusSummary * World;
  (* [runSecure(cmd, args)] gives the standard output *)
  runSecure : string -> list string -> World -> Result string * World;
  run : string -> World -> Result string * World;
  readFile : string -> World -> Result string * World;
  writeFile : string -> string -> World -> Result unit * World;
  dateNow : World -> N;
  (* [semver.gt(a, b)]; it throws on an invalid version *)
  semverGt : string -> string -> Result bool
}.
Arguments getCurrentBranch {World} _ _.
Arguments getGitStatusSummary {World} _ _.
Arguments runSecure {World} _ _ _ _.
Arguments run {World} _ _ _.
Arguments readFile {World} _ _ _.
Arguments writeFile {World} _ _ _ _.
Arguments dateNow {World} _ _.
Arguments semverGt {World} _ _ _.

(** An asynchronous function: from the world before to its result, the world
    after and the calls it made, oldest first. *)
Definition M (World A : Type) : Type := World -> Result A * World * list Event.

Definition ret {World A : Type} (a : A) : M World A :=
  fun w => (Ok a, w, []).

Definition throw {World A : Type} (message : string) : M World A :=
  fun w => (Throw message, w, []).

Definition bind {World A B : Type} (m : M World A) (f : A -> M World B) : M World B :=
  fun w =>
    match m w with
    | (Ok a, w1, t1) =>
        match f a w1 with
        | (r, w2, t2) => (r, w2, (t1 ++ t2)%list)
        end
    | (Throw e, w1, t1) => (Throw e, w1, t1)
    end.

(** [try { m } catch (error) { h error.message }] *)
Definition tryCatch {World A : Type} (m : M World A) (h : string -> M World A) : M World A :=
  fun w =>
    match m w with
    | (Ok a, w1, t1) => (Ok a, w1, t1)
    | (Throw e, w1, t1) =>
        match h e w1 with
        | (r, w2, t2) => (r, w2, (t1 ++ t2)%list)
        end
    end.

(** One logged call to a collaborator. *)
Definition perform {World A : Type} (c : Call) (f : World -> Result A * World) : M World A :=
  fun w =>
    match f w with
    | (r, w1) => (r, w1, [mkEvent c (isOk r)])
    end.

Notation "x <- m ;; k" := (bind m (fun x => k))
  (at level 100, m at next level, right associativity).
Notation "m ;;; k" := (bind m (fun _ => k))
  (at level 100, right associativity).

Module PullResult.
Inductive Strategy : Type :=
  | FastForward   (* 'fast-forward' *)
  | Rebase        (* 'rebase' *)
  | Merge         (* 'merge' *)
  | Failed.       (* 'failed' *)

Definition name (s : Strategy) : string :=
  match s with
  | FastForward => "fast-forward"
  | Rebase => "rebase"
  | Merge => "merge"
  | Failed => "failed"
  end.

Record t : Type := mk {
  success : bool;
  hadConflicts : bool;
  autoResolved : list string;
  manualRequired : list string;
  stashApplied : bool;
  strategy : Strategy;
  message : string
}.
End PullResult.

Module ConflictResolution.
Record t : Type := mk {
  file : string;
  resolved : bool;
  strategy : Strategy;
  error : option string
}.
End ConflictResolution.

(** The value of [tryResolvePackageJsonConflict]. *)
Module Resolution.
Record t : Type := mk {
  resolved : bool;
  error : option string
}.
End Resolution.

(** The patterns of [tryResolvePackageJsonConflict]. *)
Module ConflictPatterns.
(* /<<<<<<< .*?\n([\s\S]*?)=======\n/ *)
Definition ours : regex :=
  Lit "<<<<<<< " +++ Star false dot +++ Lit Js.nl +++
  Group 1 (Star false any) +++ Lit ("=======" ++ Js.nl).
(* /=======\n([\s\S]*?)>>>>>>> / *)
Definition theirs : regex :=
  Lit ("=======" ++ Js.nl) +++ Group 1 (Star false any) +++ Lit ">>>>>>> ".
(* versionPattern: the word version in double quotes, a colon, \s*, then
   in double quotes a group of one or more characters that are not a
   double quote *)
Definition versionPattern : regex :=
  Lit (Js.dq ++ "version" ++ Js.dq ++ ":") +++ Star true space +++
  Lit Js.dq +++ Group 1 (Plus true notDQ) +++ Lit Js.dq.
(* /-.*$/ *)
Definition prerelease : regex := Lit "-" +++ Star true dot +++ Eol.
(* /<<<<<<< .*?\n[\s\S]*?=======\n([\s\S]*?)>>>>>>> .*?\n/g *)
Definition block : regex :=
  Lit "<<<<<<< " +++ Star false dot +++ Lit Js.nl +++ Star false any +++
  Lit ("=======" ++ Js.nl) +++ Group 1 (Star false any) +++
  Lit ">>>>>>> " +++ Star false dot +++ Lit Js.nl.
(* the version pattern again, without the group *)
Definition versionField : regex :=
  Lit (Js.dq ++ "version" ++ Js.dq ++ ":") +++ Star true space +++
  Lit Js.dq +++ Plus true notDQ +++ Lit Js.dq.
End ConflictPatterns.

(** [config.pull] and the part of [Config] that the command reads. *)
Record PullConfig : Type := mkPullConfig {
  remote : option string;
  branch : option string
}.

Record Config : Type := mkConfig {
  dryRun : option bool;
  pull : option PullConfig
}.

(** [a || b] on an optional string: [undefined] and the empty string are
    falsy. *)
Definition orElse (a : option string) (b : string) : string :=
  match a with
  | Some s => if Js.truthy s then s else b
  | None => b
  end.

(* ================================================================== *)
(** * The pull engine *)
(* ================================================================== *)

Section Engine.
Context {World : Type} (env : Collaborators World).

Local Abbreviation Async := (M World).

(** [await runSecure('git', args)] *)
Definition git (args : list string) : Async string :=
  perform (RunSecure "git" args) (runSecure env "git" args).

(** [semver.gt(a, b)] inside an asynchronous function. *)
Definition semver_gt (a b : string) : Async bool :=
  fun w => (semverGt env a b, w, []).

(** [Date.now()] *)
Definition now : Async N := fun w => (Ok (dateNow env w), w, []).

(** ** [tryResolvePackageJsonConflict] *)

(** [v.replace(/-.*$/, '')] *)
Definition stripPrerelease (v : string) : string :=
  replace 0 ConflictPatterns.prerelease "" v.

(** The template literal that holds the selected version. *)
Definition versionEntry (higher : string) : string :=
  Js.dq ++ "version" ++ Js.dq ++ ": " ++ Js.dq ++ higher ++ Js.dq.

(** The content written back: every conflict block replaced by its second
    region, then the first version field replaced. *)
Definition resolvedContent (content higher : string) : string :=
  replace 0 ConflictPatterns.versionField (versionEntry higher)
          (replaceAll 1 ConflictPatterns.block "$1" content).

(** The constant [higher]: ours when it is greater after stripping, theirs
    otherwise. *)
Definition higher (oursVersion theirsVersion : string) : Async string :=
  isGreater <- semver_gt (stripPrerelease oursVersion)
                         (stripPrerelease theirsVersion) ;;
  ret (if isGreater : bool then oursVersion else theirsVersion).

Definition tryResolvePackageJsonConflict (filepath : string) : Async Resolution.t :=
  tryCatch
    (content <- perform (ReadFile filepath) (readFile env filepath) ;;
     if negb (Js.includes content "<<<<<<<") || negb (Js.includes content ">>>>>>>") then
       ret (Resolution.mk false (Some "Not a conflict file"))
     else
       let oursMatch := exec ConflictPatterns.ours content in
       let theirsMatch := exec ConflictPatterns.theirs content in
       match oursMatch, theirsMatch with
       | Some om, Some tm =>
           let oursPart := group 1 om in
           let theirsPart := group 1 tm in
           let oursVersion := exec ConflictPatterns.versionPattern oursPart in
           let theirsVersion := exec ConflictPatterns.versionPattern theirsPart in
           match oursVersion, theirsVersion with
           | Some ov, Some tv =>
               higher <- higher (group 1 ov) (group 1 tv) ;;
               perform (WriteFile filepath (resolvedContent content higher))
                       (writeFile env filepath (resolvedContent content higher)) ;;;
               ret (Resolution.mk true None)
           | _, _ =>
               ret (Resolution.mk false (Some "Complex conflict - not just version"))
           end
       | _, _ => ret (Resolution.mk false (Some "Cannot parse conflict markers"))
       end)
    (fun message => ret (Resolution.mk false (Some message))).

(** ** [resolveConflict] *)

(** The statements that the cases ['regenerate-lock'], ['take-theirs'] and
    ['take-theirs-regenerate'] share: check out their version and stage it. *)
Definition acceptTheirs (filepath : string) (strategy : Strategy)
  : Async ConflictResolution.t :=
  git ["checkout"; "--theirs"; filepath] ;;;
  git ["add"; filepath] ;;;
  ret (ConflictResolution.mk filepath true strategy None).

Definition resolveConflict (filepath : string) (strategy : Strategy) (isDryRun : bool)
  : Async ConflictResolution.t :=
  if isDryRun then ret (ConflictResolution.mk filepath true strategy None)
  else
    tryCatch
      (match strategy with
       | RegenerateLock => acceptTheirs filepath strategy
       | TakeTheirs | TakeTheirsRegenerate => acceptTheirs filepath strategy
       | VersionBump =>
           result <- tryResolvePackageJsonConflict filepath ;;
           if Resolution.resolved result then
             git ["add"; filepath] ;;;
             ret (ConflictResolution.mk filepath true strategy None)
           else
             ret (ConflictResolution.mk filepath false strategy (Resolution.error result))
       | Manual =>
           ret (ConflictResolution.mk filepath false strategy
                                      (Some "Unknown resolution strategy"))
       end)
      (fun message => ret (ConflictResolution.mk filepath false strategy (Some message))).

(** ** [getConflictedFiles] *)

Definition getConflictedFiles : Async (list string) :=
  tryCatch
    (stdout <- git ["diff"; "--name-only"; "--diff-filter=U"] ;;
     ret (filter (fun f => Js.truthy (Js.trim f)) (Js.splitLF (Js.trim stdout))))
    (fun _ => ret []).

(** ** [autoResolveConflicts] *)

(** The body of the [for] loop, with the two arrays that it extends. *)
Fixpoint autoResolveLoop (conflictedFiles : list string) (isDryRun : bool)
         (resolved manual : list string) : Async (list string * list string) :=
  match conflictedFiles with
  | [] => ret (resolved, manual)
  | file :: rest =>
      let c := canAutoResolve file in
      if String.eqb file "package.json" || Js.endsWith file "/package.json" then
        result <- resolveConflict file VersionBump isDryRun ;;
        if ConflictResolution.resolved result
        then autoResolveLoop rest isDryRun (resolved ++ [file])%list manual
        else autoResolveLoop rest isDryRun resolved (manual ++ [file])%list
      else if canResolve c then
        result <- resolveConflict file (strategy c) isDryRun ;;
        if ConflictResolution.resolved result
        then autoResolveLoop rest isDryRun (resolved ++ [file])%list manual
        else autoResolveLoop rest isDryRun resolved (manual ++ [file])%list
      else autoResolveLoop rest isDryRun resolved (manual ++ [file])%list
  end.

Definition autoResolveConflicts (isDryRun : bool) : Async (list string * list string) :=
  conflictedFiles <- getConflictedFiles ;;
  autoResolveLoop conflictedFiles isDryRun [] [].

(** ** [stashIfNeeded] and [applyStashIfNeeded] *)

Definition stashIfNeeded (isDryRun : bool) : Async bool :=
  status <- perform GetGitStatusSummary (getGitStatusSummary env) ;;
  if hasUncommittedChanges status || hasUnstagedFiles status then
    (if negb isDryRun then
       stamp <- now ;;
       git ["stash"; "push"; "-m"; "kodrdriv-pull-auto-stash-" ++ Js.ofN stamp] ;;;
       ret tt
     else ret tt) ;;;
    ret true
  else ret false.

Definition applyStashIfNeeded (didStash isDryRun : bool) : Async bool :=
  if negb didStash then ret false
  else if negb isDryRun then
    tryCatch (git ["stash"; "pop"] ;;; ret true) (fun _ => ret false)
  else ret true.

(** ** [regenerateLockFiles] *)

Definition regenerateLockFiles (resolvedFiles : list string) (isDryRun : bool)
  : Async unit :=
  let needsRegenerate :=
    existsb (fun f => String.eqb f "package-lock.json"
                      || Js.endsWith f "/package-lock.json") resolvedFiles in
  if needsRegenerate then
    if negb isDryRun then
      tryCatch (perform (Run "npm install") (run env "npm install") ;;; ret tt)
               (fun _ => ret tt)
    else ret tt
  else ret tt.

(** ** [executePull] *)

(** A statement of [executePull] either makes the function return a result
    ([Some]) or lets control reach the next statement ([None]). *)
Definition orNext (s : Async (option PullResult.t)) (next : Async PullResult.t)
  : Async PullResult.t :=
  r <- s ;;
  match r with
  | Some result => ret result
  | None => next
  end.

Section Steps.
Variables (remote targetBranch : string) (didStash isDryRun : bool).

Definition upstream : string := remote ++ "/" ++ targetBranch.

(** Step 2: fetch. *)
Definition fetchStep : Async (option PullResult.t) :=
  if negb isDryRun then
    tryCatch
      (git ["fetch"; remote; targetBranch] ;;; ret None)
      (fun message =>
         (if didStash then applyStashIfNeeded true isDryRun else ret false) ;;;
         ret (Some (PullResult.mk false false [] [] didStash PullResult.Failed
                                  ("Fetch failed: " ++ message))))
  else ret None.

(** Step 3: fast-forward. *)
Definition fastForwardStep : Async (option PullResult.t) :=
  if negb isDryRun then
    tryCatch
      (git ["merge"; "--ff-only"; upstream] ;;;
       applyStashIfNeeded didStash isDryRun ;;;
       ret (Some (PullResult.mk true false [] [] didStash PullResult.FastForward
                                "Fast-forward merge successful")))
      (fun _ => ret None)
  else ret None.

(** Steps 4 and 5: rebase, with auto-resolution of its conflicts. *)
Definition rebaseStep : Async (option PullResult.t) :=
  if negb isDryRun then
    tryCatch
      (git ["rebase"; upstream] ;;;
       applyStashIfNeeded didStash isDryRun ;;;
       ret (Some (PullResult.mk true false [] [] didStash PullResult.Rebase
                                "Rebase successful")))
      (fun _ =>
         conflictedFiles <- getConflictedFiles ;;
         if (0 <? List.length conflictedFiles)%nat then
           rm <- autoResolveConflicts isDryRun ;;
           let '(resolved, manual) := rm in
           if (List.length manual =? 0)%nat then
             tryCatch
               (git ["rebase"; "--continue"] ;;;
                regenerateLockFiles resolved isDryRun ;;;
                applyStashIfNeeded didStash isDryRun ;;;
                ret (Some (PullResult.mk true true resolved [] didStash PullResult.Rebase
                             ("Rebase successful with " ++ Js.ofNat (List.length resolved)
                                ++ " auto-resolved conflicts"))))
               (fun _ => ret None)
           else
             ret (Some (PullResult.mk false true resolved manual false PullResult.Rebase
                          ("Rebase paused: " ++ Js.ofNat (List.length manual)
                             ++ " files need manual conflict resolution")))
         else
           tryCatch (git ["rebase"; "--abort"] ;;; ret None) (fun _ => ret None))
  else ret None.

(** Step 6: plain merge, with auto-resolution of its conflicts. *)
Definition mergeStep : Async (option PullResult.t) :=
  if negb isDryRun then
    tryCatch
      (git ["merge"; upstream] ;;;
       applyStashIfNeeded didStash isDryRun ;;;
       ret (Some (PullResult.mk true false [] [] didStash PullResult.Merge
                                "Merge successful")))
      (fun _ =>
         conflictedFiles <- getConflictedFiles ;;
         if (0 <? List.length conflictedFiles)%nat then
           rm <- autoResolveConflicts isDryRun ;;
           let '(resolved, manual) := rm in
           if (List.length manual =? 0)%nat then
             tryCatch
               (git ["commit"; "-m";
                     "Merge " ++ upstream ++ " (auto-resolved by kodrdriv)"] ;;;
                regenerateLockFiles resolved isDryRun ;;;
                applyStashIfNeeded didStash isDryRun ;;;
                ret (Some (PullResult.mk true true resolved [] didStash PullResult.Merge
                             ("Merge successful with " ++ Js.ofNat (List.length resolved)
                                ++ " auto-resolved conflicts"))))
               (fun _ => ret None)
           else
             ret (Some (PullResult.mk false true resolved manual false PullResult.Merge
                          ("Merge paused: " ++ Js.ofNat (List.length manual)
                             ++ " files need manual conflict resolution")))
         else ret None)
  else ret None.

(** The last statement: nothing returned before. *)
Definition finalFailure : Async PullResult.t :=
  ret (PullResult.mk false false [] [] false PullResult.Failed
                     "Pull failed - unable to merge or rebase").

(** The statements after the stash, in the order of the text. *)
Definition cascade : Async PullResult.t :=
  orNext fetchStep
    (orNext fastForwardStep
       (orNext rebaseStep
          (orNext mergeStep finalFailure))).
End Steps.

Definition executePull (remote : string) (branch : option string) (isDryRun : bool)
  : Async PullResult.t :=
  currentBranch <- perform GetCurrentBranch (getCurrentBranch env) ;;
  let targetBranch := orElse branch currentBranch in
  didStash <- stashIfNeeded isDryRun ;;
  cascade remote targetBranch didStash isDryRun.

(** ** [executeInternal] and [execute] *)

(** The characters of the report outside the 8-bit range stand as their
    UTF-8 bytes. *)
Definition rule : string := Js.repeat "═" 60.

Definition bullet (f : string) : string := "   - " ++ f.

Definition report (result : PullResult.t) : string :=
  let autoResolved := PullResult.autoResolved result in
  let manualRequired := PullResult.manualRequired result in
  let head :=
    [""; rule;
     (if PullResult.success result then "✅ PULL COMPLETE" else "⚠️  PULL NEEDS ATTENTION");
     rule; "";
     "Strategy: " ++ PullResult.name (PullResult.strategy result);
     "Message: " ++ PullResult.message result] in
  let conflicts :=
    if PullResult.hadConflicts result then
      List.app
        [""; "Conflicts detected: "
               ++ Js.ofNat (List.length autoResolved + List.length manualRequired)]
        (List.app
           (if (0 <? List.length autoResolved)%nat then
              ("✓ Auto-resolved: " ++ Js.ofNat (List.length autoResolved))
                :: map bullet autoResolved
            else [])
           (if (0 <? List.length manualRequired)%nat then
              ("✗ Manual resolution needed: " ++ Js.ofNat (List.length manualRequired))
                :: map bullet manualRequired
            else []))
    else [] in
  let stash :=
    if PullResult.stashApplied result then
      [""; "ℹ️  Local changes have been restored from stash"]
    else [] in
  Js.joinLF (List.app head (List.app conflicts (List.app stash [""; rule]))).

Definition executeInternal (runConfig : Config) : Async string :=
  let isDryRun := match dryRun runConfig with Some b => b | None => false end in
  let pullConfig := match pull runConfig with
                    | Some c => c
                    | None => mkPullConfig None None
                    end in
  let remote := orElse (remote pullConfig) "origin" in
  let branch := branch pullConfig in
  result <- executePull remote branch isDryRun ;;
  ret (report result).

Definition execute (runConfig : Config) : Async string :=
  tryCatch (executeInternal runConfig) (fun message => throw message).

End Engine.

(* ================================================================== *)
(** * A reference behaviour of the collaborators *)
(* ================================================================== *)

(** [semver.gt] of the semver package, for the concrete runs below: versions
    [MAJOR.MINOR.PATCH] with an optional leading [v], an optional prerelease
    after [-] and optional build metadata after [+], ordered by semantic
    versioning precedence.  An invalid version throws. *)
Module Semver.

Fixpoint splitOn (sep : ascii) (s : string) : list string :=
  match s with
  | EmptyString => [EmptyString]
  | String c s' =>
      if Ascii.eqb c sep then EmptyString :: splitOn sep s'
      else match splitOn sep s' with
           | h :: t => String c h :: t
           | [] => [String c EmptyString]
           end
  end.

(** The part before the first [sep] and, when there is one, the part
    after it. *)
Fixpoint cut (sep : ascii) (s : string) : string * option string :=
  match s with
  | EmptyString => (EmptyString, None)
  | String c s' =>
      if Ascii.eqb c sep then (EmptyString, Some s')
      else let '(a, b) := cut sep s' in (String c a, b)
  end.

Fixpoint forallb_string (p : ascii -> bool) (s : string) : bool :=
  match s with
  | EmptyString => true
  | String c s' => p c && forallb_string p s'
  end.

Definition isAlpha (c : ascii) : bool :=
  let n := nat_of_ascii c in
  (((65 <=? n) && (n <=? 90)) || ((97 <=? n) && (n <=? 122)))%nat.

Definition isIdentChar (c : ascii) : bool :=
  isDigit c || isAlpha c || Ascii.eqb c "-"%char.

Fixpoint toN (s : string) (acc : N) : N :=
  match s with
  | EmptyString => acc
  | String c s' => toN s' (acc * 10 + N.of_nat (digitVal c))%N
  end.

Definition MAX_SAFE_INTEGER : N := 9007199254740991%N.

(** [0|[1-9]\d*] *)
Definition numericIdentifier (s : string) : option N :=
  match s with
  | EmptyString => None
  | String c rest =>
      if forallb_string isDigit s
         && (negb (Ascii.eqb c "0"%char) || String.eqb rest EmptyString)
      then Some (toN s 0%N) else None
  end.

(** A prerelease identifier: a number, or a text that is not all digits. *)
Definition prereleaseIdentifier (s : string) : option (N + string) :=
  match s with
  | EmptyString => None
  | _ =>
      if forallb_string isDigit s then
        match numericIdentifier s with
        | Some n => if (n <? MAX_SAFE_INTEGER)%N then Some (inl n) else Some (inr s)
        | None => None
        end
      else if forallb_string isIdentChar s then Some (inr s) else None
  end.

Fixpoint allSome {A : Type} (l : list (option A)) : option (list A) :=
  match l with
  | [] => Some []
  | Some a :: l' => match allSome l' with Some r => Some (a :: r) | None => None end
  | None :: _ => None
  end.

Record SemVer : Type := mkSemVer {
  major : N;
  minor : N;
  patch : N;
  prerelease : list (N + string)
}.

Definition buildOk (b : option string) : bool :=
  match b with
  | None => true
  | Some s =>
      forallb (fun i => negb (String.eqb i EmptyString) && forallb_string isIdentChar i)
              (splitOn "."%char s)
  end.

Definition parse (version : string) : option SemVer :=
  if (256 <? Js.len version)%nat then None
  else
    let v := Js.trim version in
    let v := match v with
             | String c v' => if Ascii.eqb c "v"%char then v' else v
             | EmptyString => v
             end in
    let '(mainPre, build) := cut "+"%char v in
    let '(main, pre) := cut "-"%char mainPre in
    if negb (buildOk build) then None
    else
      match map numericIdentifier (splitOn "."%char main) with
      | [Some a; Some b; Some c] =>
          if ((a <=? MAX_SAFE_INTEGER) && (b <=? MAX_SAFE_INTEGER)
              && (c <=? MAX_SAFE_INTEGER))%N then
            match pre with
            | None => Some (mkSemVer a b c [])
            | Some p =>
                match allSome (map prereleaseIdentifier (splitOn "."%char p)) with
                | Some ids => Some (mkSemVer a b c ids)
                | None => None
                end
            end
          else None
      | _ => None
      end.

Definition compareIdentifiers (a b : N + string) : comparison :=
  match a, b with
  | inl x, inl y => N.compare x y
  | inl _, inr _ => Lt
  | inr _, inl _ => Gt
  | inr x, inr y => String.compare x y
  end.

Fixpoint compareIds (a b : list (N + string)) : comparison :=
  match a, b with
  | [], [] => Eq
  | _ :: _, [] => Gt
  | [], _ :: _ => Lt
  | x :: a', y :: b' =>
      match compareIdentifiers x y with
      | Eq => compareIds a' b'
      | c => c
      end
  end.

Definition comparePre (a b : SemVer) : comparison :=
  match prerelease a, prerelease b with
  | _ :: _, [] => Lt
  | [], _ :: _ => Gt
  | [], [] => Eq
  | pa, pb => compareIds pa pb
  end.

Definition compareMain (a b : SemVer) : comparison :=
  match N.compare (major a) (major b) with
  | Eq => match N.compare (minor a) (minor b) with
          | Eq => N.compare (patch a) (patch b)
          | c => c
          end
  | c => c
  end.

Definition compare (a b : SemVer) : comparison :=
  match compareMain a b with
  | Eq => comparePre a b
  | c => c
  end.

Definition gt (a b : string) : Result bool :=
  match parse a with
  | None => Throw ("Invalid Version: " ++ a)
  | Some va =>
      match parse b with
      | None => Throw ("Invalid Version: " ++ b)
      | Some vb => Ok (match compare va vb with Gt => true | _ => false end)
      end
  end.
End Semver.

(** A file system as the list of the writes made so far, newest first, over
    nothing else: reading gives the newest content written to the path. *)
Definition Disk : Type := list (string * string).

Fixpoint diskLookup (path : string) (d : Disk) : option string :=
  match d with
  | [] => None
  | (p, c) :: d' => if String.eqb p path then Some c else diskLookup path d'
  end.

(** Collaborators whose answers depend on the request only: the branch and
    status queries give [current] and [status], [git args] gives [gitAnswer
    args], the installer succeeds, the clock stands still and the storage
    reads and writes the [Disk]. *)
Definition scripted (current : Result string) (status : Result GitStatusSummary)
           (gitAnswer : list string -> Result string) : Collaborators Disk :=
  {| getCurrentBranch := fun w => (current, w);
     getGitStatusSummary := fun w => (status, w);
     runSecure := fun _ args w => (gitAnswer args, w);
     run := fun _ w => (Ok EmptyString, w);
     readFile := fun path w =>
                   match diskLookup path w with
                   | Some c => (Ok c, w)
                   | None => (Throw ("ENOENT: no such file or directory, open '" ++ path ++ "'"), w)
                   end;
     writeFile := fun path content w => (Ok tt, (path, content) :: w);
     dateNow := fun _ => 1700000000000%N;
     semverGt := Semver.gt |}.

Definition clean : GitStatusSummary := mkStatus false false 0 0.
Definition dirty : GitStatusSummary := mkStatus true false 1 0.

Fixpoint argsEqb (a b : list string) : bool :=
  match a, b with
  | [], [] => true
  | x :: a', y :: b' => String.eqb x y && argsEqb a' b'
  | _, _ => false
  end.

(** The answer to the commands listed in [table]; every other command
    succeeds with an empty output. *)
Fixpoint answers (table : list (list string * Result string)) (args : list string)
  : Result string :=
  match table with
  | [] => Ok EmptyString
  | (a, r) :: table' => if argsEqb a args then r else answers table' args
  end.

(** The git commands fail whose first word is in [words]. *)
Definition failing (words : list string) (args : list string) : Result string :=
  match args with
  | a :: _ => if existsb (String.eqb a) words then Throw ("git " ++ a ++ " failed")
              else Ok EmptyString
  | [] => Ok EmptyString
  end.

(* ================================================================== *)
(** * Reading the call log *)
(* ================================================================== *)

(** The pull strategy that a call attempts or carries on, if any: a git
    command whose first word is [rebase] belongs to the rebase, [merge
    --ff-only x] is the fast-forward and any other [merge] the plain merge. *)
Definition attemptOf (c : Call) : option PullResult.Strategy :=
  match c with
  | RunSecure cmd (a :: rest) =>
      if negb (String.eqb cmd "git") then None
      else if String.eqb a "rebase" then Some PullResult.Rebase
      else if String.eqb a "merge" then
        match rest with
        | f :: _ :: _ =>
            if String.eqb f "--ff-only" then Some PullResult.FastForward
            else Some PullResult.Merge
        | _ => Some PullResult.Merge
        end
      else None
  | _ => None
  end.

(** The strategies of a log, in the order of the calls. *)
Fixpoint attempts (log : list Event) : list PullResult.Strategy :=
  match log with
  | [] => []
  | e :: log' =>
      match attemptOf (call e) with
      | Some s => s :: attempts log'
      | None => attempts log'
      end
  end.

(** The fast-forward command returned. *)
Definition fastForwardSucceeded (log : list Event) : Prop :=
  exists e, In e log /\ attemptOf (call e) = Some PullResult.FastForward
            /\ returned e = true.

(** The fast-forward command of an entry returned. *)
Definition ffReturned (e : Event) : bool :=
  match attemptOf (call e) with
  | Some PullResult.FastForward => returned e
  | _ => false
  end.

(** A computation that returns from every world and whose calls belong to
    no strategy. *)
Definition quiet {World A : Type} (m : M World A) : Prop :=
  forall w, exists a w' log, m w = (Ok a, w', log) /\ attempts log = [].

(** The calls that [executePull] makes outside every [try]: the two queries
    and [git stash push]. *)
Definition unguarded (c : Call) : bool :=
  match c with
  | GetCurrentBranch | GetGitStatusSummary => true
  | RunSecure cmd (a :: b :: _) =>
      String.eqb cmd "git" && String.eqb a "stash" && String.eqb b "push"
  | _ => false
  end.

(** In this run every unguarded call returned. *)
Definition unguardedReturned (log : list Event) : Prop :=
  forall e, In e log -> unguarded (call e) = true -> returned e = true.

(** The result of the last statement of [executePull]. *)
Definition pullFailed : PullResult.t :=
  PullResult.mk false false [] [] false PullResult.Failed
                "Pull failed - unable to merge or rebase".

(** The three ways in which the version-bump extraction fails. *)
Definition missingMarkers (content : string) : Prop :=
  Js.includes content "<<<<<<<" = false \/ Js.includes content ">>>>>>>" = false.

Definition unparsableRegions (content : string) : Prop :=
  exec ConflictPatterns.ours content = None \/
  exec ConflictPatterns.theirs content = None.

Definition missingVersion (content : string) : Prop :=
  exists om tm,
    exec ConflictPatterns.ours content = Some om /\
    exec ConflictPatterns.theirs content = Some tm /\
    (exec ConflictPatterns.versionPattern (group 1 om) = None \/
     exec ConflictPatterns.versionPattern (group 1 tm) = None).

(* ================================================================== *)
(** * Scenarios *)
(* ================================================================== *)

Module Scenario.

(** The current branch cannot be determined. *)
Definition notARepository : Collaborators Disk :=
  scripted (Throw "fatal: not a git repository") (Ok clean) (answers []).

(** Local changes, and [git stash push] fails. *)
Definition stashPushFails : Collaborators Disk :=
  scripted (Ok "main") (Ok dirty) (failing ["stash"]).

(** The branches diverged, the rebase stops on [src/app.ts]. *)
Definition rebaseStopsOnSource : Collaborators Disk :=
  scripted (Ok "main") (Ok dirty)
    (answers
       [(["merge"; "--ff-only"; "origin/main"], Throw "Not possible to fast-forward");
        (["rebase"; "origin/main"], Throw "could not apply 1a2b3c4");
        (["diff"; "--name-only"; "--diff-filter=U"], Ok ("src/app.ts" ++ Js.nl))]).

(** The rebase stops on the lock file only, which is resolved, and
    [git rebase --continue] fails; the plain merge then succeeds. *)
Definition continueFails : Collaborators Disk :=
  scripted (Ok "main") (Ok clean)
    (answers
       [(["merge"; "--ff-only"; "origin/main"], Throw "Not possible to fast-forward");
        (["rebase"; "origin/main"], Throw "could not apply 1a2b3c4");
        (["diff"; "--name-only"; "--diff-filter=U"], Ok ("package-lock.json" ++ Js.nl));
        (["rebase"; "--continue"], Throw "could not apply 5d6e7f8")]).

(** Local changes, the fetch fails and the stash pop reports conflicts. *)
Definition fetchAndPopFail : Collaborators Disk :=
  scripted (Ok "main") (Ok dirty)
    (answers
       [(["fetch"; "origin"; "main"], Throw "Could not resolve host");
        (["stash"; "pop"], Throw "CONFLICT (content): Merge conflict in src/app.ts")]).

(** The result in [rebaseStopsOnSource]. *)
Definition paused : PullResult.t :=
  PullResult.mk false true [] ["src/app.ts"] false PullResult.Rebase
                "Rebase paused: 1 files need manual conflict resolution".

(** A fast-forward is possible. *)
Definition upToDate : Collaborators Disk :=
  scripted (Ok "main") (Ok clean) (answers []).

(** The line of a manifest that holds its version. *)
Definition versionLine (version : string) : string :=
  "  " ++ Js.dq ++ "version" ++ Js.dq ++ ": " ++ Js.dq ++ version ++ Js.dq ++ "," ++ Js.nl.

(** A manifest in conflict on its version field only. *)
Definition manifest (oursVersion theirsVersion : string) : string :=
  "{" ++ Js.nl ++
  "  " ++ Js.dq ++ "name" ++ Js.dq ++ ": " ++ Js.dq ++ "app" ++ Js.dq ++ "," ++ Js.nl ++
  "<<<<<<< HEAD" ++ Js.nl ++
  versionLine oursVersion ++
  "=======" ++ Js.nl ++
  versionLine theirsVersion ++
  ">>>>>>> origin/main" ++ Js.nl ++
  "  " ++ Js.dq ++ "private" ++ Js.dq ++ ": true" ++ Js.nl ++
  "}" ++ Js.nl.

(** The same manifest once resolved to [version]. *)
Definition merged (version : string) : string :=
  "{" ++ Js.nl ++
  "  " ++ Js.dq ++ "name" ++ Js.dq ++ ": " ++ Js.dq ++ "app" ++ Js.dq ++ "," ++ Js.nl ++
  versionLine version ++
  "  " ++ Js.dq ++ "private" ++ Js.dq ++ ": true" ++ Js.nl ++
  "}" ++ Js.nl.

(** What the patterns find in [manifest "1.4.0" "1.3.0"]. *)
Definition oursRegion : MatchResult := mkMatch 19 62 [(1, versionLine "1.4.0")].
Definition theirsRegion : MatchResult := mkMatch 54 92 [(1, versionLine "1.3.0")].
Definition oursField : MatchResult := mkMatch 2 20 [(1, "1.4.0")].
Definition theirsField : MatchResult := mkMatch 2 20 [(1, "1.3.0")].

(** A manifest whose conflict is not on the version field. *)
Definition otherConflict : string :=
  "{" ++ Js.nl ++
  "<<<<<<< HEAD" ++ Js.nl ++
  "  " ++ Js.dq ++ "name" ++ Js.dq ++ ": " ++ Js.dq ++ "app" ++ Js.dq ++ Js.nl ++
  "=======" ++ Js.nl ++
  "  " ++ Js.dq ++ "name" ++ Js.dq ++ ": " ++ Js.dq ++ "application" ++ Js.dq ++ Js.nl ++
  ">>>>>>> origin/main" ++ Js.nl ++
  "}" ++ Js.nl.

End Scenario.

(* ================================================================== *)
(** * More ways to read the call log *)
(* ================================================================== *)

(** The test by which [autoResolveConflicts] sends a file to the
    version-bump resolution. *)
Definition isManifest (file : string) : bool :=
  String.eqb file "package.json" || Js.endsWith file "/package.json".

(** The files that [autoResolveConflicts] tries to resolve: the manifests
    and the files that the classifier can resolve. *)
Definition autoResolvable (file : string) : bool :=
  isManifest file || canResolve (canAutoResolve file).

(** The test of [regenerateLockFiles]. *)
Definition isPackageLock (file : string) : bool :=
  String.eqb file "package-lock.json" || Js.endsWith file "/package-lock.json".

(** No line feed in [s]. *)
Definition oneLine (s : string) : Prop := Js.includes s Js.nl = false.

(** What resolving the file [f] may call: staging it; checking out their
    version unless it is a manifest; reading and writing it if it is. *)
Definition touches (f : string) (c : Call) : Prop :=
  c = RunSecure "git" ["add"; f] \/
  (isManifest f = false /\ c = RunSecure "git" ["checkout"; "--theirs"; f]) \/
  (isManifest f = true /\ (c = ReadFile f \/ exists content, c = WriteFile f content)).

(** The first word of a git command is [word]. *)
Definition gitVerb (word : string) (c : Call) : bool :=
  match c with
  | RunSecure cmd (a :: _) => String.eqb cmd "git" && String.eqb a word
  | _ => false
  end.

(** The git command with exactly these arguments. *)
Definition gitCommand (args : list string) (c : Call) : bool :=
  match c with
  | RunSecure cmd a => String.eqb cmd "git" && argsEqb args a
  | _ => false
  end.

Definition isStashPop (e : Event) : bool := gitCommand ["stash"; "pop"] (call e).

Definition isStashPush (e : Event) : bool :=
  match call e with
  | RunSecure cmd (a :: b :: _) =>
      String.eqb cmd "git" && String.eqb a "stash" && String.eqb b "push"
  | _ => false
  end.

Definition isStashPushReturned (e : Event) : bool := isStashPush e && returned e.

Definition isCommit (e : Event) : bool := gitVerb "commit" (call e).

Definition isInstall (e : Event) : bool :=
  match call e with
  | Run command => String.eqb command "npm install"
  | _ => false
  end.

(** The calls that conflict resolution makes: the query of the unmerged
    files, check-outs, stagings, and reads and writes of files. *)
Definition resolveCall (e : Event) : bool :=
  match call e with
  | RunSecure _ _ =>
      gitVerb "diff" (call e) || gitVerb "checkout" (call e) || gitVerb "add" (call e)
  | ReadFile _ | WriteFile _ _ => true
  | _ => false
  end.

(** A predicate on entries that no call of the conflict resolution
    satisfies. *)
Definition foreign (p : Event -> bool) : Prop :=
  forall e, resolveCall e = true -> p e = false.

(** The command that completes a pull by strategy [s] when it returns: the
    fast-forward; the rebase or its continuation; the merge or the commit
    of the merge. *)
Definition completes (s : PullResult.Strategy) (e : Event) : bool :=
  returned e &&
  match s with
  | PullResult.FastForward => ffReturned e
  | PullResult.Rebase =>
      gitVerb "rebase" (call e) && negb (gitCommand ["rebase"; "--abort"] (call e))
  | PullResult.Merge =>
      match attemptOf (call e) with
      | Some PullResult.Merge => true
      | _ => gitVerb "commit" (call e)
      end
  | PullResult.Failed => false
  end.

(** The stash of one invocation. *)
Inductive StashState : Type :=
  | Clean       (* no stash was created *)
  | Stashed     (* the stash is on the stash list *)
  | Restored    (* the stash was popped *)
  | PopFailed.  (* the pop was tried and threw: the stash is still there *)

(** One call seen by the stash: a push that threw changes nothing, a push
    is allowed when no stash exists, a pop when the stash is there. *)
Definition stashStep (st : StashState) (e : Event) : option StashState :=
  if isStashPush e then
    match st with
    | Clean => Some (if returned e then Stashed else Clean)
    | _ => None
    end
  else if isStashPop e then
    match st with
    | Stashed => Some (if returned e then Restored else PopFailed)
    | _ => None
    end
  else Some st.

Fixpoint stashRun (st : StashState) (log : list Event) : option StashState :=
  match log with
  | [] => Some st
  | e :: log' =>
      match stashStep st e with
      | Some st' => stashRun st' log'
      | None => None
      end
  end.

(** How the fields of an outcome hang together. *)
Definition shape (result : PullResult.t) : Prop :=
  (PullResult.success result = true ->
   PullResult.manualRequired result = [] /\ PullResult.strategy result <> PullResult.Failed) /\
  (PullResult.strategy result = PullResult.Failed ->
   PullResult.success result = false /\ PullResult.hadConflicts result = false) /\
  (PullResult.hadConflicts result = false ->
   PullResult.autoResolved result = [] /\ PullResult.manualRequired result = []) /\
  (PullResult.success result = false -> PullResult.strategy result <> PullResult.Failed ->
   PullResult.hadConflicts result = true /\ PullResult.manualRequired result <> []) /\
  (PullResult.strategy result = PullResult.FastForward ->
   PullResult.success result = true /\ PullResult.hadConflicts result = false).

(** The log of a statement of [executePull] that returned nothing. *)
Definition quietStep (log : list Event) : Prop :=
  existsb isStashPush log = false /\
  existsb isStashPop log = false /\
  existsb isInstall log = false /\
  (forall s, existsb (completes s) log = false).

(** The log and the result of the statement of [executePull] for strategy
    [s] that made the function return, after a stash or not. *)
Definition endStep (s : PullResult.Strategy) (didStash : bool)
           (result : PullResult.t) (log : list Event) : Prop :=
  existsb isStashPush log = false /\
  (exists st, stashRun Stashed log = Some st) /\
  (existsb isStashPop log = true -> didStash = true) /\
  shape result /\
  (PullResult.success result = true ->
   PullResult.strategy result = s /\
   existsb (completes s) log = true /\
   PullResult.stashApplied result = didStash /\
   existsb isStashPop log = didStash) /\
  (PullResult.manualRequired result <> [] ->
   PullResult.strategy result = s /\
   existsb isStashPop log = false /\
   existsb isCommit log = false /\
   attempts log = [s]) /\
  (existsb isInstall log = true ->
   PullResult.success result = true /\ PullResult.hadConflicts result = true /\
   existsb isPackageLock (PullResult.autoResolved result) = true) /\
  result <> pullFailed /\
  (PullResult.stashApplied result = true -> didStash = true).

(** What the log of a whole run of [executePull] shows of the result that
    it returned. *)
Definition outcomeFacts (result : PullResult.t) (log : list Event) : Prop :=
  shape result /\
  (PullResult.success result = true ->
   existsb (completes (PullResult.strategy result)) log = true /\
   existsb isStashPush log = PullResult.stashApplied result /\
   existsb isStashPop log = PullResult.stashApplied result) /\
  (PullResult.manualRequired result <> [] ->
   existsb isStashPop log = false /\
   existsb isCommit log = false /\
   (PullResult.strategy result = PullResult.Rebase ->
    attempts log = [PullResult.FastForward; PullResult.Rebase]) /\
   (PullResult.strategy result = PullResult.Merge ->
    exists before, attempts log = (before ++ [PullResult.Merge])%list)) /\
  (existsb isInstall log = true ->
   PullResult.success result = true /\ PullResult.hadConflicts result = true /\
   existsb isPackageLock (PullResult.autoResolved result) = true) /\
  (result = pullFailed -> existsb isStashPop log = false) /\
  (PullResult.stashApplied result = true -> existsb isStashPushReturned log = true).

(* ================================================================== *)
(** * More scenarios *)
(* ================================================================== *)

Module Runs.

(** Local changes; the branches diverged and the rebase stops on the lock
    file only, which is resolved; the rebase then continues. *)
Definition lockResolved : Collaborators Disk :=
  scripted (Ok "main") (Ok dirty)
    (answers
       [(["merge"; "--ff-only"; "origin/main"], Throw "Not possible to fast-forward");
        (["rebase"; "origin/main"], Throw "could not apply 1a2b3c4");
        (["diff"; "--name-only"; "--diff-filter=U"], Ok ("package-lock.json" ++ Js.nl))]).

Definition lockOutcome : PullResult.t :=
  PullResult.mk true true ["package-lock.json"] [] true PullResult.Rebase
                "Rebase successful with 1 auto-resolved conflicts".

(** Local changes, a fast-forward is possible and the stash pop reports
    conflicts. *)
Definition popFails : Collaborators Disk :=
  scripted (Ok "main") (Ok dirty)
    (answers [(["stash"; "pop"], Throw "CONFLICT (content): Merge conflict in src/app.ts")]).

Definition popFailsOutcome : PullResult.t :=
  PullResult.mk true false [] [] true PullResult.FastForward "Fast-forward merge successful".

(** Local changes; every merge and every rebase command fails and no file
    is in conflict. *)
Definition nothingWorks : Collaborators Disk :=
  scripted (Ok "main") (Ok dirty) (failing ["merge"; "rebase"]).

(** The result in [Scenario.fetchAndPopFail]. *)
Definition fetchFailed : PullResult.t :=
  PullResult.mk false false [] [] true PullResult.Failed "Fetch failed: Could not resolve host".

End Runs.

(** The query of the unmerged files. *)
Definition conflictQuery : Call := RunSecure "git" ["diff"; "--name-only"; "--diff-filter=U"].

(** The staging of the file [f] that returned. *)
Definition staged (f : string) : Event := mkEvent (RunSecure "git" ["add"; f]) true.

(** A write of the file [f] that returned. *)
Definition written (f : string) (log : list Event) : Prop :=
  exists content, In (mkEvent (WriteFile f content) true) log.

Module Conflicts.

(** Three files in conflict: a lock file, a source file and a build
    output; staging the build output fails. *)
Definition mixed : Collaborators Disk :=
  scripted (Ok "main") (Ok clean)
    (answers
       [(["diff"; "--name-only"; "--diff-filter=U"],
         Ok ("package-lock.json" ++ Js.nl ++ "src/app.ts" ++ Js.nl ++ "dist/index.js" ++ Js.nl));
        (["add"; "dist/index.js"], Throw "fatal: Unable to write new index file")]).

Definition mixedFiles : list string := ["package-lock.json"; "src/app.ts"; "dist/index.js"].

End Conflicts.

(* ================================================================== *)
(** * The commit command: splitting a commit *)
(* ================================================================== *)

(** [l.join(sep)] *)
Fixpoint joinWith (sep : string) (l : list string) : string :=
  match l with
  | [] => ""
  | [x] => x
  | x :: rest => x ++ sep ++ joinWith sep rest
  end.

(** [s.split('\n')[0]] *)
Definition firstLine (s : string) : string := hd "" (Js.splitLF s).

Module CommitSplit.
Record t : Type := mk {
  files : list string;
  message : string;
  rationale : string
}.
End CommitSplit.

(** A [Set<string>] as the list of its members in insertion order. *)
Definition setHas (s : list string) (x : string) : bool := existsb (String.eqb x) s.

Definition setAdd (s : list string) (x : string) : list string :=
  if setHas s x then s else (s ++ [x])%list.

(** The inner loop of [deduplicateSplits] over the files of one split, with
    the set and the two arrays that it extends. *)
Fixpoint claimFiles (files claimedFiles uniqueFiles duplicates : list string)
  : list string * list string * list string :=
  match files with
  | [] => (claimedFiles, uniqueFiles, duplicates)
  | file :: rest =>
      if setHas claimedFiles file
      then claimFiles rest claimedFiles uniqueFiles (duplicates ++ [file])%list
      else claimFiles rest (setAdd claimedFiles file) (uniqueFiles ++ [file])%list duplicates
  end.

Definition duplicatesWarning (split : CommitSplit.t) (duplicates : list string) : string :=
  "Removing duplicate files from split " ++ Js.dq ++ firstLine (CommitSplit.message split)
  ++ Js.dq ++ ": " ++ joinWith ", " duplicates.

Definition emptySplitWarning (split : CommitSplit.t) : string :=
  "Skipping empty split after deduplication: " ++ Js.dq
  ++ firstLine (CommitSplit.message split) ++ Js.dq.

(** The outer loop, with the set, the result and the warnings given to the
    logger so far. *)
Fixpoint deduplicateLoop (splits : list CommitSplit.t) (claimedFiles : list string)
         (result : list CommitSplit.t) (warnings : list string)
  : list CommitSplit.t * list string :=
  match splits with
  | [] => (result, warnings)
  | split :: rest =>
      let '(claimed, uniqueFiles, duplicates) :=
        claimFiles (CommitSplit.files split) claimedFiles [] [] in
      let warned :=
        if (0 <? List.length duplicates)%nat
        then (warnings ++ [duplicatesWarning split duplicates])%list
        else warnings in
      if (0 <? List.length uniqueFiles)%nat
      then deduplicateLoop rest claimed
             (result ++ [CommitSplit.mk uniqueFiles (CommitSplit.message split)
                                        (CommitSplit.rationale split)])%list
             warned
      else deduplicateLoop rest claimed result (warned ++ [emptySplitWarning split])%list
  end.

(** [deduplicateSplits(splits, logger)]: the splits returned and the
    warnings logged. *)
Definition deduplicateSplits (splits : list CommitSplit.t)
  : list CommitSplit.t * list string :=
  deduplicateLoop splits [] [] [].

(** All the files of a list of splits, in order. *)
Definition allFiles (splits : list CommitSplit.t) : list string :=
  List.concat (map CommitSplit.files splits).

(** A split with a file. *)
Definition nonEmpty (s : CommitSplit.t) : Prop := CommitSplit.files s <> [].

(* ================================================================== *)
(** * The commit command: the helpers *)
(* ================================================================== *)

(** [pushConfig : boolean | string | undefined] *)
Inductive PushConfig : Type :=
  | PushUndefined
  | PushFlag (flag : bool)
  | PushRemote (remote : string).

(** [!!pushConfig] *)
Definition pushRequested (pushConfig : PushConfig) : bool :=
  match pushConfig with
  | PushUndefined => false
  | PushFlag flag => flag
  | PushRemote remote => Js.truthy remote
  end.

(** The remote that [pushCommit] pushes to. *)
Definition pushRemote (pushConfig : PushConfig) : string :=
  match pushConfig with
  | PushRemote remote => remote
  | _ => "origin"
  end.

(** The fields of [config.commit] that the helpers read; [None] is
    [undefined]. *)
Module CommitConfig.
Record t : Type := mk {
  amend : option bool;
  add : option bool;
  cached : option bool;
  sendit : option bool
}.
End CommitConfig.

(** [config.commit?.field] as a condition. *)
Definition flag (commit : option CommitConfig.t) (field : CommitConfig.t -> option bool)
  : bool :=
  match commit with
  | Some c => match field c with Some b => b | None => false end
  | None => false
  end.

(** [validateSenditState]: false says that there is nothing to commit. *)
Definition validateSenditState (commit : option CommitConfig.t) (cached isDryRun : bool)
  : bool :=
  if flag commit CommitConfig.sendit && negb cached && negb isDryRun then false else true.

(** A block of [readContextFiles]. *)
Definition contextBlock (filePath content : string) : string :=
  "## Context from " ++ filePath ++ Js.nl ++ Js.nl ++ content ++ Js.nl.

Definition contextSeparator : string := Js.nl ++ "---" ++ Js.nl ++ Js.nl.

Section CommitHelpers.
Context {World : Type} (env : Collaborators World).

(** The collaborators of the core package: the name of the file for this
    moment, the path of a file in a directory, and the query of the staged
    changes. *)
Variable getTimestampedCommitFilename : World -> string.
Variable getOutputPath : string -> string -> string.
Variable hasStagedChanges : M World bool.

Local Abbreviation Async := (M World).

(** ** [readContextFiles] *)

(** The [for] loop, with the array that it extends. *)
Fixpoint readContextLoop (contextFiles : list string) (contextParts : list string)
  : Async (list string) :=
  match contextFiles with
  | [] => ret contextParts
  | filePath :: rest =>
      parts <- tryCatch
                 (content <- perform (ReadFile filePath) (readFile env filePath) ;;
                  ret (contextParts ++ [contextBlock filePath content])%list)
                 (fun _ => ret contextParts) ;;
      readContextLoop rest parts
  end.

Definition readContextFiles (contextFiles : option (list string)) : Async string :=
  match contextFiles with
  | None | Some [] => ret ""
  | Some files =>
      contextParts <- readContextLoop files [] ;;
      ret (joinWith contextSeparator contextParts)
  end.

(** ** [hasCommits] and [pushCommit] *)

Definition hasCommits : Async bool :=
  tryCatch (perform (Run "git rev-parse HEAD") (run env "git rev-parse HEAD") ;;; ret true)
           (fun _ => ret false).

Definition pushCommit (pushConfig : PushConfig) (isDryRun : bool) : Async unit :=
  if negb (pushRequested pushConfig) then ret tt
  else
    let remote := pushRemote pushConfig in
    let pushCommand := "git push " ++ remote in
    if isDryRun then ret tt
    else
      tryCatch (perform (Run pushCommand) (run env pushCommand) ;;; ret tt)
               (fun _ => throw ("Failed to push to " ++ remote)).

(** ** [determineCachedState] *)

Definition determineCachedState (commit : option CommitConfig.t) : Async bool :=
  if flag commit CommitConfig.amend then
    hasAnyCommits <- hasCommits ;;
    if negb hasAnyCommits then
      throw ("Cannot use --amend: no commits found in repository. "
             ++ "Create an initial commit first.")
    else ret true
  else if flag commit CommitConfig.add then ret true
  else
    match commit with
    | Some c =>
        match CommitConfig.cached c with
        | Some cached => ret cached
        | None => hasStagedChanges
        end
    | None => hasStagedChanges
    end.

(** ** [saveCommitMessage] *)

Definition save (path content : string) : Async unit :=
  perform (WriteFile path content) (writeFile env path content).

Definition saveCommitMessage (outputDirectory summary : string) : Async unit :=
  fun w =>
    let timestampedFilename := getTimestampedCommitFilename w in
    let primaryPath := getOutputPath outputDirectory timestampedFilename in
    tryCatch
      (save primaryPath summary)
      (fun _ =>
         (* the first fallback returns from the function when it succeeds *)
         saved <- tryCatch
                    (let outputRootPath := getOutputPath "output" timestampedFilename in
                     save outputRootPath summary ;;; ret true)
                    (fun _ => ret false) ;;
         if saved : bool then ret tt
         else
           tryCatch
             (t <- now env ;;
              let fallbackPath := "commit-message-" ++ Js.ofN t ++ ".txt" in
              save fallbackPath summary)
             (fun _ => ret tt))
      w.

End CommitHelpers.

(* ================================================================== *)
(** * The commit command: creating the split commits *)
(* ================================================================== *)

Module SplitCommitResult.

(** An entry of [commits]; the message is the value of [commitMessage],
    which the program may leave undefined ([None]). *)
Record commit : Type := mkCommit {
  message : option string;
  files : list string;
  sha : option string
}.

Record t : Type := mk {
  success : bool;
  commitsCreated : nat;
  commits : list commit;
  error : option string;
  skipped : nat
}.

Definition initial : t := mk false 0 [] None 0.

Definition withSuccess (b : bool) (r : t) : t :=
  mk b (commitsCreated r) (commits r) (error r) (skipped r).

(** [result.success = false; result.error = error] *)
Definition failed (message : string) (r : t) : t :=
  mk false (commitsCreated r) (commits r) (Some message) (skipped r).

(** [result.skipped++] *)
Definition skip (r : t) : t :=
  mk (success r) (commitsCreated r) (commits r) (error r) (S (skipped r)).

(** [result.commits.push(c); result.commitsCreated++] *)
Definition created (c : commit) (r : t) : t :=
  mk (success r) (S (commitsCreated r)) (commits r ++ [c])%list (error r) (skipped r).

End SplitCommitResult.

Inductive ReviewAction : Type :=
  | ActionCommit
  | ActionEdit
  | ActionSkip
  | ActionStop.

Record Review : Type := mkReview {
  action : ReviewAction;
  modifiedMessage : option string
}.

(** What [verifyStagedFiles] returns. *)
Record Verification : Type := mkVerification {
  allPresent : bool;
  missing : list string;
  unexpected : list string
}.

Definition reviewChoices : list (string * string) :=
  [("c", "Commit with this message");
   ("e", "Edit message before committing");
   ("s", "Skip this commit");
   ("t", "Stop - no more commits")].

Definition editorTemplate : list string :=
  ["# Edit your commit message below. Lines starting with " ++ Js.dq ++ "#" ++ Js.dq
   ++ " will be ignored.";
   "# Save and close the editor when you are done."].

Section SplitCommits.
Context {World : Type} (env : Collaborators World).

(** The collaborators of the other packages: the prompt (question,
    choices, suggestions), the editor (content, template, extension; it
    gives the content edited), the staging area, and the two pure
    functions on the message, the first of which throws on a value that is
    no text. *)
Variable getUserChoice : string -> list (string * string) -> list string -> M World string.
Variable editContentInEditor : string -> list string -> string -> M World string.
Variable stageFiles : list string -> M World unit.
Variable unstageAll : M World unit.
Variable verifyStagedFiles : list string -> M World Verification.
Variable validateString : option string -> string -> Result string.
Variable shellescape : list string -> string.

Local Abbreviation Async := (M World).

Definition editCommitMessageInteractively (commitMessage : string) : Async string :=
  editContentInEditor commitMessage editorTemplate ".txt".

Definition reviewSplitInteractively (split : CommitSplit.t) (index total : nat)
  : Async Review :=
  choice <- getUserChoice "What would you like to do?" reviewChoices
                          ["Use --sendit to auto-commit without review"] ;;
  if String.eqb choice "e" then
    edited <- editCommitMessageInteractively (CommitSplit.message split) ;;
    ret (mkReview ActionCommit (Some edited))
  else if String.eqb choice "c" then ret (mkReview ActionCommit None)
  else if String.eqb choice "s" then ret (mkReview ActionSkip None)
  else ret (mkReview ActionStop None).

Definition createSingleSplitCommit (split : CommitSplit.t) (commitMessage : option string)
           (isDryRun : bool) : Async (option string) :=
  (if isDryRun then ret tt
   else
     stageFiles (CommitSplit.files split) ;;;
     verification <- verifyStagedFiles (CommitSplit.files split) ;;
     if negb (allPresent verification) then
       throw ("Stage verification failed. Missing: "
              ++ joinWith ", " (missing verification) ++ ". "
              ++ "Unexpected: " ++ joinWith ", " (unexpected verification))
     else ret tt) ;;;
  if isDryRun then ret None
  else
    validatedMessage <- (fun w => (validateString commitMessage "commit message", w, [])) ;;
    let escapedMessage := shellescape [validatedMessage] in
    perform (Run ("git commit -m " ++ escapedMessage))
            (run env ("git commit -m " ++ escapedMessage)) ;;;
    result <- perform (Run "git rev-parse HEAD") (run env "git rev-parse HEAD") ;;
    ret (Some (Js.trim result)).

(** The inner [try] of the loop for one split: the commit, or the message
    of the error after the remaining files were staged again. *)
Definition commitSplit (isDryRun : bool) (remaining : list CommitSplit.t)
           (split : CommitSplit.t) (commitMessage : option string)
  : Async (option string + string) :=
  tryCatch
    ((if negb isDryRun then unstageAll else ret tt) ;;;
     sha <- createSingleSplitCommit split commitMessage isDryRun ;;
     ret (inl sha))
    (fun message =>
       (if negb isDryRun then
          let remainingFiles := flat_map CommitSplit.files remaining in
          tryCatch (stageFiles remainingFiles) (fun _ => ret tt)
        else ret tt) ;;;
       ret (inr message)).

(** The [for] loop of [executeSplitCommits] from index [i] with the splits
    [splits.slice(i)] and the result as it stands; the outer [catch] is
    reached from the review only. *)
Fixpoint splitLoop (isDryRun interactive : bool) (total : nat)
         (remaining : list CommitSplit.t) (i : nat) (result : SplitCommitResult.t)
  : Async SplitCommitResult.t :=
  match remaining with
  | [] => ret (SplitCommitResult.withSuccess true result)
  | split :: rest =>
      let create (commitMessage : option string) :=
        outcome <- commitSplit isDryRun remaining split commitMessage ;;
        match outcome with
        | inl sha =>
            splitLoop isDryRun interactive total rest (S i)
              (SplitCommitResult.created
                 (SplitCommitResult.mkCommit commitMessage (CommitSplit.files split) sha)
                 result)
        | inr message => ret (SplitCommitResult.failed message result)
        end in
      if interactive && negb isDryRun then
        reviewed <- tryCatch (review <- reviewSplitInteractively split i total ;;
                              ret (inl review))
                             (fun message => ret (inr message)) ;;
        match reviewed with
        | inr message => ret (SplitCommitResult.failed message result)
        | inl review =>
            match action review with
            | ActionStop => ret (SplitCommitResult.withSuccess false result)
            | ActionSkip =>
                splitLoop isDryRun interactive total rest (S i)
                          (SplitCommitResult.skip result)
            | ActionEdit => create (modifiedMessage review)
            | ActionCommit => create (Some (CommitSplit.message split))
            end
        end
      else create (Some (CommitSplit.message split))
  end.

Definition executeSplitCommits (splits : list CommitSplit.t) (isDryRun interactive : bool)
  : Async SplitCommitResult.t :=
  splitLoop isDryRun interactive (List.length splits) splits 0 SplitCommitResult.initial.

End SplitCommits.

(** The entry of [commits] for a split committed under its own message. *)
Definition entryOf (split : CommitSplit.t) (sha : option string) : SplitCommitResult.commit :=
  SplitCommitResult.mkCommit (Some (CommitSplit.message split)) (CommitSplit.files split) sha.

(** [kept] is [all] with some elements left out. *)
Inductive Subsequence {A : Type} : list A -> list A -> Prop :=
  | SubNil : Subsequence [] []
  | SubSkip x kept all : Subsequence kept all -> Subsequence kept (x :: all)
  | SubTake x kept all : Subsequence kept all -> Subsequence (x :: kept) (x :: all).

(** What a run of the loop over [remaining] adds to the result that it
    started from. *)
Definition loopFacts (reviewing : bool) (remaining : list CommitSplit.t)
           (result r : SplitCommitResult.t) : Prop :=
  exists new k kept,
    SplitCommitResult.commits r = (SplitCommitResult.commits result ++ new)%list /\
    SplitCommitResult.commitsCreated r
    = (SplitCommitResult.commitsCreated result + List.length new)%nat /\
    SplitCommitResult.skipped r = (SplitCommitResult.skipped result + k)%nat /\
    (reviewing = false -> k = 0%nat) /\
    (List.length new + k <= List.length remaining)%nat /\
    (SplitCommitResult.success r = true ->
     SplitCommitResult.error r = SplitCommitResult.error result /\
     (List.length new + k = List.length remaining)%nat) /\
    (SplitCommitResult.error r <> SplitCommitResult.error result ->
     SplitCommitResult.success r = false) /\
    Subsequence kept remaining /\
    Forall2 (fun c s => exists sha, c = entryOf s sha) new kept.

Module Editing.

(** The user chooses to edit every message and writes [edited] in the
    editor; staging and verification succeed, a message that is a text is
    valid, and the escape puts the words in single quotes. *)
Definition edited : string := "feat: rewritten by hand".

Definition getUserChoice (question : string) (choices : list (string * string))
           (suggestions : list string) : M Disk string := ret "e".

Definition editContentInEditor (content : string) (template : list string)
           (extension : string) : M Disk string := ret edited.

Definition stageFiles (files : list string) : M Disk unit := ret tt.

Definition unstageAll : M Disk unit := ret tt.

Definition verifyStagedFiles (files : list string) : M Disk Verification :=
  ret (mkVerification true [] []).

Definition validateString (value : option string) (name : string) : Result string :=
  match value with
  | Some s => Ok s
  | None => Throw (name ++ " must be a string")
  end.

Definition shellescape (words : list string) : string :=
  "'" ++ joinWith "' '" words ++ "'".

Definition split : CommitSplit.t := CommitSplit.mk ["src/app.ts"] "feat: add the app" "one unit".

End Editing.

(* ================================================================== *)
(** * Facts about strings and patterns *)
(* ================================================================== *)

Lemma append_empty_r s : s ++ "" = s.
Proof. induction s; simpl; congruence. Qed.

Lemma length_append s t : String.length (s ++ t) = String.length s + String.length t.
Proof. induction s; simpl; congruence. Qed.

Lemma lit_app l t : lit l (l ++ t) = Some t.
Proof.
  induction l as [|a l IH]; simpl; [reflexivity|].
  now rewrite Ascii.eqb_refl.
Qed.

Lemma lit_inv l s t : lit l s = Some t -> s = l ++ t.
Proof.
  revert s; induction l as [|a l IH]; simpl; intros s H.
  - now inversion H.
  - destruct s as [|b s]; [discriminate|].
    destruct (Ascii.eqb a b) eqn:E; [|discriminate].
    apply Ascii.eqb_eq in E; subst b. f_equal. now apply IH.
Qed.

Lemma lit_all l s : lit l s = Some "" <-> s = l.
Proof.
  split.
  - intros H. apply lit_inv in H. subst. apply append_empty_r.
  - intros ->. pose proof (lit_app l "") as H.
    now rewrite append_empty_r in H.
Qed.

Lemma startsWith_lit s p :
  Js.startsWith s p = match lit p s with Some _ => true | None => false end.
Proof.
  revert s; induction p as [|a p IH]; simpl; intros s; [reflexivity|].
  destruct s as [|b s]; [reflexivity|].
  destruct (Ascii.eqb a b); simpl; auto.
Qed.

Lemma startsWith_iff s p : Js.startsWith s p = true <-> exists t, s = p ++ t.
Proof.
  rewrite startsWith_lit. split.
  - destruct (lit p s) as [t|] eqn:E; [|discriminate]. intros _. exists t. now apply lit_inv.
  - intros [t ->]. now rewrite lit_app.
Qed.

Lemma endsWith_iff s suf : Js.endsWith s suf = true <-> exists t, s = t ++ suf.
Proof.
  induction s as [|c s IH]; cbn [Js.endsWith].
  - rewrite orb_false_r. split.
    + intros H. apply String.eqb_eq in H. subst. now exists "".
    + intros [t H]. destruct t; simpl in H; [subst; reflexivity | discriminate].
  - rewrite orb_true_iff, IH. split.
    + intros [H | [t ->]].
      * apply String.eqb_eq in H. subst. now exists "".
      * now exists (String c t).
    + intros [t H]. destruct t as [|d t]; simpl in H.
      * left. subst. apply String.eqb_refl.
      * right. inversion H; subst. now exists t.
Qed.

Lemma not_prefix f p : (forall t, f <> p ++ t) -> Js.startsWith f p = false.
Proof.
  intros H. destruct (Js.startsWith f p) eqn:E; [|reflexivity].
  apply startsWith_iff in E. destruct E as [t ->]. now destruct (H t).
Qed.

Lemma not_suffix f p : (forall t, f <> t ++ p) -> Js.endsWith f p = false.
Proof.
  intros H. destruct (Js.endsWith f p) eqn:E; [|reflexivity].
  apply endsWith_iff in E. destruct E as [t ->]. now destruct (H t).
Qed.

(** A pattern that starts with [^] matches at offset 0 only. *)
Lemma search_bol input r rest pos :
  search input (Bol +++ r) rest (S pos) = None.
Proof.
  revert pos; induction rest as [|c rest IH]; intros pos; simpl; auto.
Qed.

(** [/^l$/] tests equality with [l]. *)
Lemma test_exact l s : test (Bol +++ Lit l +++ Eol) s = String.eqb s l.
Proof.
  unfold test, exec.
  assert (H : matchAt s (Bol +++ Lit l +++ Eol) s 0
              = if String.eqb s l then Some (mkMatch 0 (Js.len l) []) else None).
  { unfold matchAt; simpl. destruct (lit l s) as [t|] eqn:E.
    - apply lit_inv in E. subst s. destruct t as [|a t].
      + rewrite append_empty_r. now rewrite String.eqb_refl.
      + destruct (String.eqb (l ++ String a t) l) eqn:E2; [|reflexivity].
        apply String.eqb_eq in E2. exfalso.
        assert (L : String.length (l ++ String a t) = String.length l) by congruence.
        rewrite length_append in L. simpl in L. lia.
    - destruct (String.eqb s l) eqn:E2; [|reflexivity].
      apply String.eqb_eq in E2. subst.
      pose proof (lit_app l "") as H.
      rewrite append_empty_r in H. congruence. }
  destruct s as [|c s]; simpl search; rewrite H.
  - destruct ("" =? l); reflexivity.
  - rewrite search_bol. destruct (String c s =? l); reflexivity.
Qed.

(** [/^l/] tests the prefix [l]. *)
Lemma test_prefix l s : test (Bol +++ Lit l) s = Js.startsWith s l.
Proof.
  unfold test, exec. rewrite startsWith_lit.
  assert (H : matchAt s (Bol +++ Lit l) s 0
              = match lit l s with
                | Some _ => Some (mkMatch 0 (Js.len l) [])
                | None => None
                end).
  { unfold matchAt; simpl. destruct (lit l s); reflexivity. }
  destruct s as [|c s]; simpl search; rewrite H.
  - destruct (lit l ""); reflexivity.
  - rewrite search_bol. destruct (lit l (String c s)); reflexivity.
Qed.

Lemma buildOutput_at input rest pos :
  (exists m, matchAt input AUTO_RESOLVABLE_PATTERNS.buildOutput rest pos = Some m)
  <-> (rest = ".js.map" \/ rest = ".d.ts").
Proof.
  unfold matchAt, AUTO_RESOLVABLE_PATTERNS.buildOutput. cbn [rmatch].
  split.
  - intros [m H].
    destruct (lit "." rest) as [r1|] eqn:E1; [|discriminate].
    apply lit_inv in E1. subst rest.
    destruct (lit "js.map" r1) as [r2|] eqn:E2.
    + destruct r2.
      * apply lit_all in E2. subst. now left.
      * destruct (lit "d.ts" r1) as [r3|] eqn:E3; [|discriminate].
        destruct r3; [|discriminate]. apply lit_all in E3. subst. now right.
    + destruct (lit "d.ts" r1) as [r3|] eqn:E3; [|discriminate].
      destruct r3; [|discriminate]. apply lit_all in E3. subst. now right.
  - intros [-> | ->]; simpl; eauto.
Qed.

(** The build-output pattern tests the two suffixes. *)
Lemma test_buildOutput s :
  test AUTO_RESOLVABLE_PATTERNS.buildOutput s
  = Js.endsWith s ".js.map" || Js.endsWith s ".d.ts".
Proof.
  unfold test, exec. generalize 0 as pos. generalize s at 1 as input.
  induction s as [|c s IH]; intros input pos.
  - reflexivity.
  - cbn [search Js.endsWith].
    destruct (matchAt input AUTO_RESOLVABLE_PATTERNS.buildOutput (String c s) pos) eqn:E.
    + assert (H : String c s = ".js.map" \/ String c s = ".d.ts")
        by (apply (buildOutput_at input _ pos); eauto).
      destruct H as [H | H]; inversion H; subst; reflexivity.
    + rewrite IH.
      destruct (String.eqb (String c s) ".js.map") eqn:E1.
      { apply String.eqb_eq in E1.
        assert (exists m, matchAt input AUTO_RESOLVABLE_PATTERNS.buildOutput
                                  (String c s) pos = Some m) as [m Hm]
            by (apply buildOutput_at; auto).
        congruence. }
      destruct (String.eqb (String c s) ".d.ts") eqn:E2.
      { apply String.eqb_eq in E2.
        assert (exists m, matchAt input AUTO_RESOLVABLE_PATTERNS.buildOutput
                                  (String c s) pos = Some m) as [m Hm]
            by (apply buildOutput_at; auto).
        congruence. }
      simpl.
      destruct (Js.endsWith s ".js.map"), (Js.endsWith s ".d.ts"); reflexivity.
Qed.

(** The classifier as a decision list over string tests. *)
Lemma canAutoResolve_eq f :
  canAutoResolve f =
  if String.eqb f "package-lock.json" then mkResolvable true RegenerateLock
  else if String.eqb f "yarn.lock" then mkResolvable true RegenerateLock
  else if String.eqb f "pnpm-lock.yaml" then mkResolvable true RegenerateLock
  else if Js.startsWith f "dist/" then mkResolvable true TakeTheirsRegenerate
  else if Js.startsWith f "coverage/" then mkResolvable true TakeTheirs
  else if Js.startsWith f "node_modules/" then mkResolvable true TakeTheirs
  else if Js.endsWith f ".js.map" || Js.endsWith f ".d.ts"
       then mkResolvable true TakeTheirsRegenerate
  else mkResolvable false Manual.
Proof.
  unfold canAutoResolve, AUTO_RESOLVABLE_PATTERNS.packageLock,
    AUTO_RESOLVABLE_PATTERNS.yarnLock, AUTO_RESOLVABLE_PATTERNS.pnpmLock,
    AUTO_RESOLVABLE_PATTERNS.dist, AUTO_RESOLVABLE_PATTERNS.coverage,
    AUTO_RESOLVABLE_PATTERNS.nodeModules.
  now rewrite !test_exact, !test_prefix, test_buildOutput.
Qed.

(* ================================================================== *)
(** * The classifier *)
(* ================================================================== *)

(** C4, as the program has it: the classifier returns regenerate-lock for
    the three lock file names themselves and for no other path; the lock
    patterns are anchored at both ends, so a lock file in a subdirectory is
    not one of them. *)
Theorem regenerate_lock_iff_exact_name f :
  strategy (canAutoResolve f) = RegenerateLock <->
  f = "package-lock.json" \/ f = "yarn.lock" \/ f = "pnpm-lock.yaml".
Proof.
  rewrite canAutoResolve_eq.
  destruct (String.eqb_spec f "package-lock.json") as [->|N1]; [tauto|].
  destruct (String.eqb_spec f "yarn.lock") as [->|N2]; [tauto|].
  destruct (String.eqb_spec f "pnpm-lock.yaml") as [->|N3]; [tauto|].
  split.
  - repeat match goal with |- context [if ?b then _ else _] => destruct b end;
      cbn [strategy]; discriminate.
  - intros [H | [H | H]]; contradiction.
Qed.

Lemma regenerate_lock_witness :
  strategy (canAutoResolve "yarn.lock") = RegenerateLock /\
  ~ ("sub/yarn.lock" = "package-lock.json" \/ "sub/yarn.lock" = "yarn.lock"
     \/ "sub/yarn.lock" = "pnpm-lock.yaml").
Proof.
  split.
  - apply (proj2 (regenerate_lock_iff_exact_name "yarn.lock")). right; left; reflexivity.
  - intros H.
    apply (proj2 (regenerate_lock_iff_exact_name "sub/yarn.lock")) in H.
    discriminate H.
Defined.

(** C4 as stated fails: a lock file in a subdirectory is classified manual. *)
Lemma nested_lock_file_is_manual :
  canAutoResolve "packages/app/package-lock.json" = mkResolvable false Manual /\
  canAutoResolve "packages/app/yarn.lock" = mkResolvable false Manual /\
  canAutoResolve "packages/app/pnpm-lock.yaml" = mkResolvable false Manual /\
  strategy (canAutoResolve "packages/app/package-lock.json") <> RegenerateLock.
Proof. repeat (split; [reflexivity|]). discriminate. Qed.

(** C8, as the program has it: first match wins.  A path under
    node_modules/ or coverage/ is take-theirs; a path under dist/ is
    take-theirs-regenerate, and so is a path that ends in .js.map or .d.ts
    unless it lies under coverage/ or node_modules/; a path that is no lock
    file name and matches none of these patterns is manual. *)
Theorem classifier_first_match_wins :
  (forall t, strategy (canAutoResolve ("node_modules/" ++ t)) = TakeTheirs) /\
  (forall t, strategy (canAutoResolve ("coverage/" ++ t)) = TakeTheirs) /\
  (forall t, strategy (canAutoResolve ("dist/" ++ t)) = TakeTheirsRegenerate) /\
  (forall f,
      (exists t, f = t ++ ".js.map" \/ f = t ++ ".d.ts") ->
      (forall t, f <> "coverage/" ++ t) ->
      (forall t, f <> "node_modules/" ++ t) ->
      strategy (canAutoResolve f) = TakeTheirsRegenerate) /\
  (forall f,
      f <> "package-lock.json" -> f <> "yarn.lock" -> f <> "pnpm-lock.yaml" ->
      (forall t, f <> "dist/" ++ t) ->
      (forall t, f <> "coverage/" ++ t) ->
      (forall t, f <> "node_modules/" ++ t) ->
      (forall t, f <> t ++ ".js.map") ->
      (forall t, f <> t ++ ".d.ts") ->
      canAutoResolve f = mkResolvable false Manual).
Proof.
  repeat split; intros.
  - rewrite canAutoResolve_eq. reflexivity.
  - rewrite canAutoResolve_eq. reflexivity.
  - rewrite canAutoResolve_eq. reflexivity.
  - rewrite canAutoResolve_eq.
    assert (S : Js.endsWith f ".js.map" || Js.endsWith f ".d.ts" = true).
    { destruct H as [t [-> | ->]]; apply orb_true_iff; [left | right];
        apply endsWith_iff; eauto. }
    rewrite (not_prefix _ _ H0), (not_prefix _ _ H1), S.
    destruct (String.eqb_spec f "package-lock.json") as [->|_]; [discriminate S|].
    destruct (String.eqb_spec f "yarn.lock") as [->|_]; [discriminate S|].
    destruct (String.eqb_spec f "pnpm-lock.yaml") as [->|_]; [discriminate S|].
    now destruct (Js.startsWith f "dist/").
  - rewrite canAutoResolve_eq.
    apply String.eqb_neq in H, H0, H1. rewrite H, H0, H1.
    now rewrite !not_prefix, !not_suffix by assumption.
Qed.

Lemma classifier_witness :
  strategy (canAutoResolve "src/index.d.ts") = TakeTheirsRegenerate /\
  canAutoResolve "src/app.ts" = mkResolvable false Manual.
Proof.
  destruct classifier_first_match_wins as (_ & _ & _ & H4 & H5). split.
  - apply H4.
    + exists "src/index". right. reflexivity.
    + intros t H. discriminate H.
    + intros t H. discriminate H.
  - apply H5; try (intros H; discriminate H); try (intros t H; discriminate H).
    + intros t H.
      assert (E : Js.endsWith "src/app.ts" ".js.map" = true) by (apply endsWith_iff; eauto).
      discriminate E.
    + intros t H.
      assert (E : Js.endsWith "src/app.ts" ".d.ts" = true) by (apply endsWith_iff; eauto).
      discriminate E.
Defined.

(** C8 as stated fails: a declaration file under node_modules/ has the
    suffix .d.ts and is classified take-theirs, and a source map under
    coverage/ likewise. *)
Lemma build_output_under_node_modules_is_take_theirs :
  "node_modules/pkg/index.d.ts" = "node_modules/pkg/index" ++ ".d.ts" /\
  strategy (canAutoResolve "node_modules/pkg/index.d.ts") = TakeTheirs /\
  strategy (canAutoResolve "coverage/lcov-report/sorter.js.map") = TakeTheirs /\
  strategy (canAutoResolve "node_modules/pkg/index.d.ts") <> TakeTheirsRegenerate.
Proof. repeat (split; [reflexivity|]). discriminate. Qed.

(* ================================================================== *)
(** * Symbolic execution of the engine *)
(* ================================================================== *)

Lemma attempts_app l1 l2 : attempts (l1 ++ l2)%list = (attempts l1 ++ attempts l2)%list.
Proof.
  induction l1 as [|e l1 IH]; simpl; [reflexivity|].
  destruct (attemptOf (call e)); simpl; now rewrite IH.
Qed.

Lemma fastForwardSucceeded_existsb log :
  fastForwardSucceeded log <-> existsb ffReturned log = true.
Proof.
  unfold fastForwardSucceeded. rewrite existsb_exists. unfold ffReturned.
  split; intros (e & I & H).
  - exists e. split; [assumption|]. destruct H as [-> ->]. reflexivity.
  - exists e. split; [assumption|].
    destruct (attemptOf (call e)) as [[]|]; try discriminate. auto.
Qed.

Lemma quiet_ffReturned log : attempts log = [] -> existsb ffReturned log = false.
Proof.
  induction log as [|e log IH]; [reflexivity|]. cbn [attempts existsb].
  unfold ffReturned at 1.
  destruct (attemptOf (call e)); [discriminate|]. intros Q. now apply IH.
Qed.

(** Unfold the monad and leave the functions of the program folded. *)
Ltac monad :=
  cbv beta iota zeta delta [bind tryCatch ret throw perform git orNext negb semver_gt now].

(** Case analysis on the next call to a collaborator. *)
Ltac oracle :=
  match goal with
  | |- context [runSecure ?e ?c ?a ?w] =>
      let r := fresh "out" in let w' := fresh "w" in let m := fresh "msg" in
      destruct (runSecure e c a w) as [[r | m] w'] eqn:?
  | |- context [run ?e ?c ?w] =>
      let r := fresh "out" in let w' := fresh "w" in let m := fresh "msg" in
      destruct (run e c w) as [[r | m] w'] eqn:?
  | |- context [readFile ?e ?p ?w] =>
      let r := fresh "content" in let w' := fresh "w" in let m := fresh "msg" in
      destruct (readFile e p w) as [[r | m] w'] eqn:?
  | |- context [writeFile ?e ?p ?c ?w] =>
      let w' := fresh "w" in let m := fresh "msg" in
      destruct (writeFile e p c w) as [[[] | m] w'] eqn:?
  | |- context [getCurrentBranch ?e ?w] =>
      let r := fresh "current" in let w' := fresh "w" in let m := fresh "msg" in
      destruct (getCurrentBranch e w) as [[r | m] w'] eqn:?
  | |- context [getGitStatusSummary ?e ?w] =>
      let r := fresh "status" in let w' := fresh "w" in let m := fresh "msg" in
      destruct (getGitStatusSummary e w) as [[r | m] w'] eqn:?
  | |- context [semverGt ?e ?a ?b] =>
      let r := fresh "gt" in let m := fresh "msg" in
      destruct (semverGt e a b) as [r | m] eqn:?
  end; monad.

(** The strategies of a log made of entries and of quiet pieces. *)
Ltac calm :=
  repeat first
    [ rewrite attempts_app
    | rewrite existsb_app
    | rewrite app_nil_r
    | match goal with
      | Q : attempts ?t = [] |- context [attempts ?t] => rewrite Q
      | Q : attempts ?t = [] |- context [existsb ffReturned ?t] =>
          rewrite (quiet_ffReturned t Q)
      end
    | progress cbn [attempts call attemptOf negb String.eqb Ascii.eqb Bool.eqb
                    app existsb ffReturned returned isOk orb andb] ].

Ltac returns := do 3 eexists; split; [reflexivity | calm; reflexivity].

Section Components.
Context {World : Type} (env : Collaborators World).

Lemma quiet_ret A (a : A) : quiet (@ret World A a).
Proof. intros w. now exists a, w, []. Qed.

Lemma quiet_bind A B (m : M World A) (f : A -> M World B) :
  quiet m -> (forall a, quiet (f a)) -> quiet (bind m f).
Proof.
  intros Hm Hf w. unfold bind.
  destruct (Hm w) as (a & w1 & t1 & -> & Q1).
  destruct (Hf a w1) as (b & w2 & t2 & -> & Q2).
  exists b, w2, (t1 ++ t2)%list. split; [reflexivity|].
  now rewrite attempts_app, Q1, Q2.
Qed.

(** A failed [git stash pop] is caught. *)
Lemma applyStashIfNeeded_quiet d dry : quiet (applyStashIfNeeded env d dry).
Proof.
  intros w. unfold applyStashIfNeeded. destruct d, dry; monad; try returns.
  oracle; returns.
Qed.

(** A failed installer is caught. *)
Lemma regenerateLockFiles_quiet files dry : quiet (regenerateLockFiles env files dry).
Proof.
  intros w. unfold regenerateLockFiles.
  destruct (existsb _ files), dry; monad; try returns.
  oracle; returns.
Qed.

(** A failed query of the unmerged files gives the empty list. *)
Lemma getConflictedFiles_quiet : quiet (getConflictedFiles env).
Proof.
  intros w. unfold getConflictedFiles. monad. oracle; returns.
Qed.

Lemma tryResolvePackageJsonConflict_quiet filepath :
  quiet (tryResolvePackageJsonConflict env filepath).
Proof.
  intros w. unfold tryResolvePackageJsonConflict, higher. monad.
  oracle; try returns.
  destruct (_ || _); try returns.
  destruct (exec ConflictPatterns.ours content) as [om|]; try returns.
  destruct (exec ConflictPatterns.theirs content) as [tm|]; try returns.
  destruct (exec ConflictPatterns.versionPattern (group 1 om)) as [ov|]; try returns.
  destruct (exec ConflictPatterns.versionPattern (group 1 tm)) as [tv|]; try returns.
  oracle; try returns.
  oracle; returns.
Qed.

Lemma resolveConflict_quiet filepath strategy dry :
  quiet (resolveConflict env filepath strategy dry).
Proof.
  intros w. unfold resolveConflict, acceptTheirs. destruct dry; monad; try returns.
  destruct strategy; monad; try returns;
    try (oracle; try returns; oracle; returns).
  destruct (tryResolvePackageJsonConflict_quiet filepath w) as (r & w1 & t1 & -> & Q).
  monad. destruct (Resolution.resolved r); monad.
  - oracle; returns.
  - returns.
Qed.

Lemma autoResolveLoop_quiet files dry resolved manual :
  quiet (autoResolveLoop env files dry resolved manual).
Proof.
  revert resolved manual. induction files as [|f files IH]; intros resolved manual.
  - apply quiet_ret.
  - cbn [autoResolveLoop].
    destruct (_ || _).
    + apply quiet_bind; [apply resolveConflict_quiet|].
      intros a. destruct (ConflictResolution.resolved a); apply IH.
    + destruct (canResolve (canAutoResolve f)); [|apply IH].
      apply quiet_bind; [apply resolveConflict_quiet|].
      intros a. destruct (ConflictResolution.resolved a); apply IH.
Qed.

Lemma autoResolveConflicts_quiet dry : quiet (autoResolveConflicts env dry).
Proof.
  apply quiet_bind; [apply getConflictedFiles_quiet|].
  intros a. apply autoResolveLoop_quiet.
Qed.

Lemma stashIfNeeded_log dry w r w' log :
  stashIfNeeded env dry w = (r, w', log) -> attempts log = [].
Proof.
  unfold stashIfNeeded. monad. oracle.
  - destruct (_ || _); monad.
    + destruct dry; monad.
      * intros Eq; inversion Eq; reflexivity.
      * oracle; intros Eq; inversion Eq; reflexivity.
    + intros Eq; inversion Eq; reflexivity.
  - intros Eq; inversion Eq; reflexivity.
Qed.
End Components.

(** The next function of the program whose failures are all caught. *)
Ltac component :=
  match goal with
  | |- context [applyStashIfNeeded ?e ?d ?dry ?w] =>
      destruct (applyStashIfNeeded_quiet e d dry w) as (? & ? & ? & -> & ?)
  | |- context [regenerateLockFiles ?e ?f ?dry ?w] =>
      destruct (regenerateLockFiles_quiet e f dry w) as ([] & ? & ? & -> & ?)
  | |- context [getConflictedFiles ?e ?w] =>
      let files := fresh "files" in
      destruct (getConflictedFiles_quiet e w) as (files & ? & ? & -> & ?)
  | |- context [autoResolveConflicts ?e ?dry ?w] =>
      let resolved := fresh "resolved" in let manual := fresh "manual" in
      destruct (autoResolveConflicts_quiet e dry w) as ([resolved manual] & ? & ? & -> & ?)
  end; monad.

(** The next test of the program. *)
Ltac branch :=
  match goal with
  | |- context [if ?b then _ else _] =>
      lazymatch type of b with bool => destruct b eqn:? end
  end; monad.

(** Every path through the statements after the stash. *)
Ltac run_cascade :=
  unfold cascade, fetchStep, fastForwardStep, rebaseStep, mergeStep, finalFailure; monad;
  repeat first [oracle | component | branch].

(** An unguarded call that threw contradicts [unguardedReturned]. *)
Ltac thrown H :=
  exfalso; cbn [app isOk] in H;
  first
    [ let X := fresh in pose proof (H _ (or_introl eq_refl) eq_refl) as X; discriminate X
    | let X := fresh in
      pose proof (H _ (or_intror (or_introl eq_refl)) eq_refl) as X; discriminate X
    | let X := fresh in
      pose proof (H _ (or_intror (or_intror (or_introl eq_refl))) eq_refl) as X;
      discriminate X ].

(* ================================================================== *)
(** * The outcome invariant *)
(* ================================================================== *)

Section Invariant.
Context {World : Type} (env : Collaborators World).

(** C1: an outcome of [executePull] whose manualRequired is not empty has
    success false and stashApplied false, whatever the collaborators do and
    on every path of the cascade. *)
Theorem manual_conflicts_block_success_and_stash remote branch isDryRun w result w' log :
  executePull env remote branch isDryRun w = (Ok result, w', log) ->
  PullResult.manualRequired result <> [] ->
  PullResult.success result = false /\ PullResult.stashApplied result = false.
Proof.
  unfold executePull. monad. oracle; [|discriminate].
  destruct (stashIfNeeded env isDryRun w0) as [[[didStash | msg] w1] t1]; [|discriminate].
  run_cascade.
  all: intros Eq; inversion Eq; subst; cbn; intros N; try (now destruct N); auto.
Qed.
End Invariant.

Lemma manual_conflicts_witness :
  PullResult.success Scenario.paused = false /\
  PullResult.stashApplied Scenario.paused = false.
Proof.
  eapply (manual_conflicts_block_success_and_stash
            Scenario.rebaseStopsOnSource "origin" None false []).
  - vm_compute. reflexivity.
  - discriminate.
Defined.

(* ================================================================== *)
(** * The order of the cascade *)
(* ================================================================== *)

Section Ordering.
Context {World : Type} (env : Collaborators World).
Import PullResult.

(** C7: in every run of [executePull] the strategy commands appear in the
    order fast-forward, rebase, merge: a rebase command only after the
    fast-forward attempt, the plain merge only after a rebase attempt (and
    possibly its continue or abort); and when the fast-forward command
    returned, it is the only strategy command of the run. *)
Theorem cascade_order remote branch isDryRun w r w' log :
  executePull env remote branch isDryRun w = (r, w', log) ->
  (attempts log = [] \/
   attempts log = [FastForward] \/
   attempts log = [FastForward; Rebase] \/
   attempts log = [FastForward; Rebase; Rebase] \/
   attempts log = [FastForward; Rebase; Merge] \/
   attempts log = [FastForward; Rebase; Rebase; Merge]) /\
  (fastForwardSucceeded log -> attempts log = [FastForward]).
Proof.
  unfold executePull. monad. oracle.
  2:{ intros Eq; inversion Eq; subst. rewrite fastForwardSucceeded_existsb.
      split; [now left | discriminate]. }
  destruct (stashIfNeeded env isDryRun w0) as [[[didStash | msg] w1] t1] eqn:St;
    apply stashIfNeeded_log in St.
  2:{ intros Eq; inversion Eq; subst. rewrite fastForwardSucceeded_existsb.
      calm. split; [now left | discriminate]. }
  run_cascade.
  all: intros Eq; inversion Eq; subst; clear Eq.
  all: rewrite fastForwardSucceeded_existsb.
  all: calm.
  all: split; [ tauto | try discriminate; auto ].
Qed.
End Ordering.

Lemma cascade_order_witness :
  let log := snd (executePull Scenario.upToDate "origin" None false []) in
  fastForwardSucceeded log /\ attempts log = [PullResult.FastForward].
Proof.
  pose proof (cascade_order Scenario.upToDate "origin" None false [] _ _ _ eq_refl) as [_ H].
  assert (F : fastForwardSucceeded
                (snd (executePull Scenario.upToDate "origin" None false []))).
  { exists (mkEvent (RunSecure "git" ["merge"; "--ff-only"; "origin/main"]) true).
    split; [vm_compute; tauto | split; reflexivity]. }
  split; [exact F | exact (H F)].
Defined.

(* ================================================================== *)
(** * Exceptions *)
(* ================================================================== *)

Section Exceptions.
Context {World : Type} (env : Collaborators World).

Lemma executePull_total remote branch isDryRun w r w' log :
  executePull env remote branch isDryRun w = (r, w', log) ->
  unguardedReturned log ->
  exists result, r = Ok result.
Proof.
  unfold unguardedReturned, executePull, stashIfNeeded. monad. oracle.
  2:{ intros Eq All; inversion Eq; subst. thrown All. }
  oracle.
  2:{ intros Eq All; inversion Eq; subst. thrown All. }
  destruct (_ || _); monad.
  - destruct isDryRun; monad.
    + run_cascade; intros Eq All; inversion Eq; eauto.
    + oracle.
      * run_cascade; intros Eq All; inversion Eq; eauto.
      * intros Eq All; inversion Eq; subst. thrown All.
  - run_cascade; intros Eq All; inversion Eq; eauto.
Qed.

Lemma execute_total runConfig w r w' log :
  execute env runConfig w = (r, w', log) ->
  unguardedReturned log ->
  exists output, r = Ok output.
Proof.
  unfold execute, executeInternal. monad.
  match goal with |- context [executePull env ?a ?b ?c w] =>
    destruct (executePull env a b c w) as [[r1 w1] log1] eqn:P end.
  intros Eq All.
  destruct r1 as [result | msg]; monad.
  - revert Eq. monad. intros Eq. inversion Eq; eauto.
  - revert Eq. monad. intros Eq. inversion Eq; subst.
    rewrite !app_nil_r in All.
    destruct (executePull_total _ _ _ _ _ _ _ P All) as [result R]. discriminate R.
Qed.

(** C2, as the program has it: a run of [executePull] in which the
    current-branch query, the status query and git stash push returned
    gives an outcome, whatever every other command does; and so does
    [execute].  These three calls are made outside every try block, and
    [execute] throws again what it catches. *)
Theorem pull_returns_when_unguarded_calls_return :
  (forall remote branch isDryRun w r w' log,
      executePull env remote branch isDryRun w = (r, w', log) ->
      unguardedReturned log ->
      exists result, r = Ok result) /\
  (forall runConfig w r w' log,
      execute env runConfig w = (r, w', log) ->
      unguardedReturned log ->
      exists output, r = Ok output).
Proof.
  split; intros.
  - eapply executePull_total; eassumption.
  - eapply execute_total; eassumption.
Qed.
End Exceptions.

Lemma pull_returns_witness :
  exists result,
    fst (fst (executePull Scenario.rebaseStopsOnSource "origin" None false [])) = Ok result.
Proof.
  eapply (proj1 (pull_returns_when_unguarded_calls_return Scenario.rebaseStopsOnSource)
                "origin" None false []).
  - reflexivity.
  - intros e I U. vm_compute in I.
    repeat (destruct I as [<- | I]; [first [reflexivity | discriminate U]|]).
    destruct I.
Defined.

(** C2 as stated fails: when the current branch cannot be determined, or
    when git stash push fails, the exception leaves [executePull] and
    [execute]. *)
Lemma unguarded_exception_propagates :
  executePull Scenario.notARepository "origin" None false []
  = (Throw "fatal: not a git repository", [], [mkEvent GetCurrentBranch false]) /\
  execute Scenario.notARepository (mkConfig None None) []
  = (Throw "fatal: not a git repository", [], [mkEvent GetCurrentBranch false]) /\
  execute Scenario.stashPushFails (mkConfig None None) []
  = (Throw "git stash failed", [],
     [mkEvent GetCurrentBranch true; mkEvent GetGitStatusSummary true;
      mkEvent (RunSecure "git" ["stash"; "push"; "-m";
                                "kodrdriv-pull-auto-stash-1700000000000"]) false]).
Proof. repeat split; vm_compute; reflexivity. Qed.

(* ================================================================== *)
(** * Dry run and fetch failure *)
(* ================================================================== *)

Section DryRunAndFetch.
Context {World : Type} (env : Collaborators World).

Lemma dry_run_outcome remote branch w current w1 status w2 :
  getCurrentBranch env w = (Ok current, w1) ->
  getGitStatusSummary env w1 = (Ok status, w2) ->
  executePull env remote branch true w
  = (Ok pullFailed, w2, [mkEvent GetCurrentBranch true; mkEvent GetGitStatusSummary true]).
Proof.
  intros B S. unfold executePull, stashIfNeeded, cascade, fetchStep, fastForwardStep,
    rebaseStep, mergeStep, finalFailure. monad. rewrite B. monad. rewrite S. monad.
  destruct (_ || _); reflexivity.
Qed.

Lemma dry_run_calls remote branch w r w' log :
  executePull env remote branch true w = (r, w', log) ->
  (forall e, In e log -> call e = GetCurrentBranch \/ call e = GetGitStatusSummary) /\
  (forall result, r = Ok result -> result = pullFailed).
Proof.
  unfold executePull, stashIfNeeded, cascade, fetchStep, fastForwardStep,
    rebaseStep, mergeStep, finalFailure. monad.
  oracle; [oracle; [destruct (_ || _); monad|]|];
    intros Eq; inversion Eq; subst; split;
    try (intros result R; inversion R; reflexivity);
    intros e I; cbn in I; intuition (subst; auto).
Qed.

(** C9: in dry-run mode no command is issued, only the two queries.  When
    they return, [executePull] returns the outcome with success false,
    strategy failed, hadConflicts false and the message of the final
    failure; and no other outcome is ever returned in dry-run mode. *)
Theorem dry_run_always_fails remote branch w :
  (forall current w1 status w2,
      getCurrentBranch env w = (Ok current, w1) ->
      getGitStatusSummary env w1 = (Ok status, w2) ->
      executePull env remote branch true w
      = (Ok (PullResult.mk false false [] [] false PullResult.Failed
                           "Pull failed - unable to merge or rebase"),
         w2, [mkEvent GetCurrentBranch true; mkEvent GetGitStatusSummary true])) /\
  (forall r w' log,
      executePull env remote branch true w = (r, w', log) ->
      (forall e, In e log -> call e = GetCurrentBranch \/ call e = GetGitStatusSummary) /\
      (forall result, r = Ok result ->
                      PullResult.success result = false /\
                      PullResult.strategy result = PullResult.Failed /\
                      PullResult.hadConflicts result = false /\
                      PullResult.message result = "Pull failed - unable to merge or rebase")).
Proof.
  split.
  - intros. eapply dry_run_outcome; eassumption.
  - intros r w' log Eq. destruct (dry_run_calls _ _ _ _ _ _ Eq) as [Calls Out].
    split; [exact Calls|]. intros result R. rewrite (Out result R). repeat split.
Qed.

Lemma fetch_failure_outcome remote branch w current w1 didStash w2 log2 message w3 :
  getCurrentBranch env w = (Ok current, w1) ->
  stashIfNeeded env false w1 = (Ok didStash, w2, log2) ->
  runSecure env "git" ["fetch"; remote; orElse branch current] w2 = (Throw message, w3) ->
  exists w' log,
    executePull env remote branch false w
    = (Ok (PullResult.mk false false [] [] didStash PullResult.Failed
                         ("Fetch failed: " ++ message)), w', log).
Proof.
  intros B S F. unfold executePull, cascade, fetchStep. monad.
  rewrite B. monad. rewrite S. monad. rewrite F. monad.
  destruct didStash; monad; [component|]; eauto.
Qed.
End DryRunAndFetch.

Lemma dry_run_witness :
  executePull Scenario.upToDate "origin" None true []
  = (Ok pullFailed, [], [mkEvent GetCurrentBranch true; mkEvent GetGitStatusSummary true]).
Proof.
  apply (proj1 (dry_run_always_fails Scenario.upToDate "origin" None [])
               "main" [] clean []); reflexivity.
Defined.

(** C10: when the fetch fails, the outcome has stashApplied equal to
    whether a stash was created, whatever the stash pop did; and in the run
    where local changes were stashed, the fetch fails and git stash pop
    reports conflicts, [applyStashIfNeeded] gives false and the outcome
    still has stashApplied true. *)
Theorem fetch_failure_reports_stash_created :
  (forall World (env : Collaborators World) remote branch w current w1 didStash w2 log2
          message w3,
      getCurrentBranch env w = (Ok current, w1) ->
      stashIfNeeded env false w1 = (Ok didStash, w2, log2) ->
      runSecure env "git" ["fetch"; remote; orElse branch current] w2 = (Throw message, w3) ->
      exists w' log,
        executePull env remote branch false w
        = (Ok (PullResult.mk false false [] [] didStash PullResult.Failed
                             ("Fetch failed: " ++ message)), w', log)) /\
  applyStashIfNeeded Scenario.fetchAndPopFail true false []
  = (Ok false, [], [mkEvent (RunSecure "git" ["stash"; "pop"]) false]) /\
  executePull Scenario.fetchAndPopFail "origin" None false []
  = (Ok (PullResult.mk false false [] [] true PullResult.Failed
                       "Fetch failed: Could not resolve host"),
     [],
     [mkEvent GetCurrentBranch true;
      mkEvent GetGitStatusSummary true;
      mkEvent (RunSecure "git" ["stash"; "push"; "-m";
                                "kodrdriv-pull-auto-stash-1700000000000"]) true;
      mkEvent (RunSecure "git" ["fetch"; "origin"; "main"]) false;
      mkEvent (RunSecure "git" ["stash"; "pop"]) false]).
Proof.
  split; [|split].
  - intros. eapply fetch_failure_outcome; eassumption.
  - vm_compute. reflexivity.
  - vm_compute. reflexivity.
Qed.

Lemma fetch_failure_witness :
  exists w' log,
    executePull Scenario.fetchAndPopFail "origin" None false []
    = (Ok (PullResult.mk false false [] [] true PullResult.Failed
                         ("Fetch failed: " ++ "Could not resolve host")), w', log).
Proof.
  eapply (proj1 fetch_failure_reports_stash_created Disk Scenario.fetchAndPopFail
                "origin" None [] "main" [] true [] _ "Could not resolve host" []).
  - reflexivity.
  - vm_compute. reflexivity.
  - reflexivity.
Defined.

(* ================================================================== *)
(** * A failed rebase --continue *)
(* ================================================================== *)

Section ContinueFails.
Context {World : Type} (env : Collaborators World).

(** The defect behind C3, for all collaborators: when the rebase stopped
    on conflicts, all of them were resolved and git rebase --continue
    fails, the handler only logs the failure, so the next command is the
    plain merge of the fetched branch, issued while the rebase is still in
    progress: no git rebase --abort comes before it, as it does on the
    branch for a rebase that failed without conflicts. [executePull] then
    ends as the merge step ends from there. *)
Theorem continue_failure_falls_through_to_merge
        remote branch w current w1 didStash w2 log2 out3 w3 m4 w4 m5 w5
        files w6 log6 resolved w7 log7 m8 w8 :
  let target := orElse branch current in
  getCurrentBranch env w = (Ok current, w1) ->
  stashIfNeeded env false w1 = (Ok didStash, w2, log2) ->
  runSecure env "git" ["fetch"; remote; target] w2 = (Ok out3, w3) ->
  runSecure env "git" ["merge"; "--ff-only"; upstream remote target] w3 = (Throw m4, w4) ->
  runSecure env "git" ["rebase"; upstream remote target] w4 = (Throw m5, w5) ->
  getConflictedFiles env w5 = (Ok files, w6, log6) ->
  files <> [] ->
  autoResolveConflicts env false w6 = (Ok (resolved, []), w7, log7) ->
  runSecure env "git" ["rebase"; "--continue"] w7 = (Throw m8, w8) ->
  exists result w' merged after,
    orNext (mergeStep env remote target didStash false)
           (finalFailure (World := World)) w8
    = (result, w',
       mkEvent (RunSecure "git" ["merge"; upstream remote target]) merged :: after) /\
    executePull env remote branch false w
    = (result, w',
       (mkEvent GetCurrentBranch true :: log2 ++
        [mkEvent (RunSecure "git" ["fetch"; remote; target]) true;
         mkEvent (RunSecure "git" ["merge"; "--ff-only"; upstream remote target]) false;
         mkEvent (RunSecure "git" ["rebase"; upstream remote target]) false] ++
        log6 ++ log7 ++
        [mkEvent (RunSecure "git" ["rebase"; "--continue"]) false] ++
        mkEvent (RunSecure "git" ["merge"; upstream remote target]) merged :: after)%list).
Proof.
  intros target B S F FF R C N A K. subst target.
  destruct (orNext (mergeStep env remote (orElse branch current) didStash false)
                   finalFailure w8)
    as [[result w'] mlog] eqn:Mg.
  assert (exists merged after,
             mlog = mkEvent (RunSecure "git"
                               ["merge"; upstream remote (orElse branch current)]) merged
                      :: after)
    as (merged & after & ->).
  { revert Mg. unfold mergeStep. monad. oracle.
    - component. intros Eq; inversion Eq; eauto.
    - component. repeat first [branch | component | oracle];
        intros Eq; inversion Eq; eauto. }
  exists result, w', merged, after. split; [reflexivity|].
  unfold executePull, cascade, fetchStep, fastForwardStep, rebaseStep.
  revert Mg. monad.
  rewrite B. monad. rewrite S. monad. rewrite F. monad. rewrite FF. monad.
  rewrite R. monad. rewrite C. monad.
  destruct files as [|f files]; [now destruct N|]. cbn [List.length Nat.ltb Nat.leb].
  monad. rewrite A. monad. cbn [List.length Nat.eqb]. monad. rewrite K. monad.
  intros ->. cbn [app]. rewrite <- !app_assoc. reflexivity.
Qed.
End ContinueFails.

Lemma continue_failure_witness :
  exists result w' merged after,
    orNext (mergeStep Scenario.continueFails "origin" "main" false false)
           (finalFailure (World := Disk)) []
    = (result, w', mkEvent (RunSecure "git" ["merge"; "origin/main"]) merged :: after) /\
    executePull Scenario.continueFails "origin" None false []
    = (result, w',
       (mkEvent GetCurrentBranch true :: [mkEvent GetGitStatusSummary true] ++
        [mkEvent (RunSecure "git" ["fetch"; "origin"; "main"]) true;
         mkEvent (RunSecure "git" ["merge"; "--ff-only"; "origin/main"]) false;
         mkEvent (RunSecure "git" ["rebase"; "origin/main"]) false] ++
        [mkEvent (RunSecure "git" ["diff"; "--name-only"; "--diff-filter=U"]) true] ++
        [mkEvent (RunSecure "git" ["diff"; "--name-only"; "--diff-filter=U"]) true;
         mkEvent (RunSecure "git" ["checkout"; "--theirs"; "package-lock.json"]) true;
         mkEvent (RunSecure "git" ["add"; "package-lock.json"]) true] ++
        [mkEvent (RunSecure "git" ["rebase"; "--continue"]) false] ++
        mkEvent (RunSecure "git" ["merge"; "origin/main"]) merged :: after)%list).
Proof.
  eapply (continue_failure_falls_through_to_merge
            Scenario.continueFails "origin" None [] "main" [] false [] _ "" []
            "Not possible to fast-forward" [] "could not apply 1a2b3c4" []
            ["package-lock.json"] [] _ ["package-lock.json"] [] _
            "could not apply 5d6e7f8" []).
  - reflexivity.
  - vm_compute. reflexivity.
  - reflexivity.
  - reflexivity.
  - reflexivity.
  - vm_compute. reflexivity.
  - discriminate.
  - vm_compute. reflexivity.
  - reflexivity.
Defined.

(** C3, the failing input: the rebase stops on the lock file only, the
    conflict is resolved and git rebase --continue fails. The claim has
    the engine end in the final failure without another strategy; the
    program only logs the failure and issues the plain merge with the
    rebase still in progress, without the git rebase --abort that the
    branch for a rebase without conflicts issues first, and the merge
    succeeds: the strategy of the outcome is merge, not failed. *)
Lemma continue_failure_reaches_merge :
  executePull Scenario.continueFails "origin" None false []
  = (Ok (PullResult.mk true false [] [] false PullResult.Merge "Merge successful"),
     [],
     [mkEvent GetCurrentBranch true;
      mkEvent GetGitStatusSummary true;
      mkEvent (RunSecure "git" ["fetch"; "origin"; "main"]) true;
      mkEvent (RunSecure "git" ["merge"; "--ff-only"; "origin/main"]) false;
      mkEvent (RunSecure "git" ["rebase"; "origin/main"]) false;
      mkEvent (RunSecure "git" ["diff"; "--name-only"; "--diff-filter=U"]) true;
      mkEvent (RunSecure "git" ["diff"; "--name-only"; "--diff-filter=U"]) true;
      mkEvent (RunSecure "git" ["checkout"; "--theirs"; "package-lock.json"]) true;
      mkEvent (RunSecure "git" ["add"; "package-lock.json"]) true;
      mkEvent (RunSecure "git" ["rebase"; "--continue"]) false;
      mkEvent (RunSecure "git" ["merge"; "origin/main"]) true]).
Proof. vm_compute. reflexivity. Qed.

(* ================================================================== *)
(** * The version-bump resolution *)
(* ================================================================== *)

Lemma string_compare_refl s : String.compare s s = Eq.
Proof.
  pose proof (String.compare_antisym s s) as H.
  destruct (String.compare s s); simpl in H; congruence.
Qed.

Lemma compareIds_refl l : Semver.compareIds l l = Eq.
Proof.
  induction l as [|[n | s] l IH]; cbn; [reflexivity| |].
  - now rewrite N.compare_refl.
  - now rewrite string_compare_refl.
Qed.

Lemma semver_compare_refl v : Semver.compare v v = Eq.
Proof.
  unfold Semver.compare, Semver.compareMain, Semver.comparePre.
  rewrite !N.compare_refl.
  destruct (Semver.prerelease v) eqn:E; [reflexivity|].
  apply compareIds_refl.
Qed.

Lemma semver_gt_same x v : Semver.parse x = Some v -> Semver.gt x x = Ok false.
Proof. intros P. unfold Semver.gt. now rewrite P, semver_compare_refl. Qed.

Section VersionBump.
Context {World : Type} (env : Collaborators World).

Lemma version_bump_writes_selected filepath w content w1 om tm ov tv isGreater :
  readFile env filepath w = (Ok content, w1) ->
  Js.includes content "<<<<<<<" = true ->
  Js.includes content ">>>>>>>" = true ->
  exec ConflictPatterns.ours content = Some om ->
  exec ConflictPatterns.theirs content = Some tm ->
  exec ConflictPatterns.versionPattern (group 1 om) = Some ov ->
  exec ConflictPatterns.versionPattern (group 1 tm) = Some tv ->
  semverGt env (stripPrerelease (group 1 ov)) (stripPrerelease (group 1 tv)) = Ok isGreater ->
  let selected := if isGreater then group 1 ov else group 1 tv in
  exists r w2 written,
    tryResolvePackageJsonConflict env filepath w
    = (Ok r, w2,
       [mkEvent (ReadFile filepath) true;
        mkEvent (WriteFile filepath (resolvedContent content selected)) written]) /\
    Resolution.resolved r = written.
Proof.
  intros Rd I1 I2 O T OV TV G selected. subst selected.
  unfold tryResolvePackageJsonConflict, higher. monad.
  rewrite Rd. monad. rewrite I1, I2. cbn [negb orb]. monad.
  rewrite O, T. monad. rewrite OV, TV. monad. rewrite G. monad.
  oracle; do 3 eexists; split; reflexivity.
Qed.

(** C6: when the extraction fails (a marker is missing, a region cannot
    be extracted, or a region has no version field), the resolution
    returns resolved false with one of its three reasons, its only call is
    the read of the file, and the world is the one the read left: nothing
    is written. *)
Theorem version_bump_failure_writes_nothing filepath w content w1 :
  readFile env filepath w = (Ok content, w1) ->
  missingMarkers content \/ unparsableRegions content \/ missingVersion content ->
  exists reason,
    tryResolvePackageJsonConflict env filepath w
    = (Ok (Resolution.mk false (Some reason)), w1, [mkEvent (ReadFile filepath) true]) /\
    (reason = "Not a conflict file" \/
     reason = "Cannot parse conflict markers" \/
     reason = "Complex conflict - not just version").
Proof.
  intros Rd F. unfold tryResolvePackageJsonConflict. monad. rewrite Rd. monad.
  assert (Fin : forall reason,
             (reason = "Not a conflict file" \/
              reason = "Cannot parse conflict markers" \/
              reason = "Complex conflict - not just version") ->
             exists reason',
               (Ok (Resolution.mk false (Some reason)), w1, [mkEvent (ReadFile filepath) true])
               = (Ok (Resolution.mk false (Some reason')), w1,
                  [mkEvent (ReadFile filepath) true]) /\
               (reason' = "Not a conflict file" \/
                reason' = "Cannot parse conflict markers" \/
                reason' = "Complex conflict - not just version")) by eauto.
  destruct (Js.includes content "<<<<<<<") eqn:M1; cbn [orb]; [|apply Fin; auto].
  destruct (Js.includes content ">>>>>>>") eqn:M2; cbn [orb]; [|apply Fin; auto].
  destruct F as [[F | F] | [[F | F] | (om & tm & O & T & F)]]; try congruence.
  - rewrite F. apply Fin; auto.
  - rewrite F. destruct (exec ConflictPatterns.ours content); apply Fin; auto.
  - rewrite O, T. destruct F as [F | F]; rewrite F.
    + apply Fin; auto.
    + destruct (exec ConflictPatterns.versionPattern (group 1 om)); apply Fin; auto.
Qed.
End VersionBump.

Lemma version_bump_failure_witness :
  exists reason,
    tryResolvePackageJsonConflict Scenario.upToDate "package.json"
                                  [("package.json", Scenario.otherConflict)]
    = (Ok (Resolution.mk false (Some reason)),
       [("package.json", Scenario.otherConflict)],
       [mkEvent (ReadFile "package.json") true]) /\
    (reason = "Not a conflict file" \/
     reason = "Cannot parse conflict markers" \/
     reason = "Complex conflict - not just version").
Proof.
  eapply (version_bump_failure_writes_nothing Scenario.upToDate "package.json"
            [("package.json", Scenario.otherConflict)] Scenario.otherConflict).
  - reflexivity.
  - right. right.
    eexists. eexists. split; [vm_compute; reflexivity|].
    split; [vm_compute; reflexivity|].
    left. vm_compute. reflexivity.
Defined.

(** C5: when both regions have a version field and the comparison does not
    throw, the version written is ours if it is greater than theirs after
    the prerelease suffix is stripped from both, and theirs otherwise; so
    versions that are equal after stripping resolve to theirs.  With ours
    1.2.0 and theirs 1.3.0 the selected version is 1.3.0; 1.3.0-beta.1 is
    stripped to 1.3.0, and 1.3.0-beta.1 against 1.3.0 selects theirs in both
    orders. *)
Theorem version_bump_selects_higher :
  (forall World (env : Collaborators World) filepath w content w1 om tm ov tv isGreater,
      readFile env filepath w = (Ok content, w1) ->
      Js.includes content "<<<<<<<" = true ->
      Js.includes content ">>>>>>>" = true ->
      exec ConflictPatterns.ours content = Some om ->
      exec ConflictPatterns.theirs content = Some tm ->
      exec ConflictPatterns.versionPattern (group 1 om) = Some ov ->
      exec ConflictPatterns.versionPattern (group 1 tm) = Some tv ->
      semverGt env (stripPrerelease (group 1 ov)) (stripPrerelease (group 1 tv)) = Ok isGreater ->
      let selected := if isGreater then group 1 ov else group 1 tv in
      exists r w2 written,
        tryResolvePackageJsonConflict env filepath w
        = (Ok r, w2,
           [mkEvent (ReadFile filepath) true;
            mkEvent (WriteFile filepath (resolvedContent content selected)) written]) /\
        Resolution.resolved r = written) /\
  (forall current status answer oursVersion theirsVersion v (w : Disk),
      stripPrerelease oursVersion = stripPrerelease theirsVersion ->
      Semver.parse (stripPrerelease oursVersion) = Some v ->
      higher (scripted current status answer) oursVersion theirsVersion w
      = (Ok theirsVersion, w, [])) /\
  stripPrerelease "1.3.0-beta.1" = "1.3.0" /\
  (forall w, higher Scenario.upToDate "1.2.0" "1.3.0" w = (Ok "1.3.0", w, [])) /\
  (forall w, higher Scenario.upToDate "1.3.0" "1.2.0" w = (Ok "1.3.0", w, [])) /\
  (forall w, higher Scenario.upToDate "1.10.0" "1.9.0" w = (Ok "1.10.0", w, [])) /\
  (forall w, higher Scenario.upToDate "1.3.0-beta.1" "1.3.0" w = (Ok "1.3.0", w, [])) /\
  (forall w, higher Scenario.upToDate "1.3.0" "1.3.0-beta.1" w = (Ok "1.3.0-beta.1", w, [])) /\
  tryResolvePackageJsonConflict Scenario.upToDate "package.json"
    [("package.json", Scenario.manifest "1.2.0" "1.3.0")]
  = (Ok (Resolution.mk true None),
     [("package.json", Scenario.merged "1.3.0");
      ("package.json", Scenario.manifest "1.2.0" "1.3.0")],
     [mkEvent (ReadFile "package.json") true;
      mkEvent (WriteFile "package.json" (Scenario.merged "1.3.0")) true]).
Proof.
  split; [|split; [|repeat split]].
  - intros. eapply version_bump_writes_selected; eassumption.
  - intros current status answer o t v w E P. unfold higher. monad.
    cbn [semverGt scripted]. rewrite <- E, (semver_gt_same _ v P). reflexivity.
Qed.

Lemma version_bump_witness :
  (exists r w2 written,
      tryResolvePackageJsonConflict Scenario.upToDate "package.json"
        [("package.json", Scenario.manifest "1.4.0" "1.3.0")]
      = (Ok r, w2,
         [mkEvent (ReadFile "package.json") true;
          mkEvent (WriteFile "package.json"
                     (resolvedContent (Scenario.manifest "1.4.0" "1.3.0")
                        (if true then group 1 Scenario.oursField
                         else group 1 Scenario.theirsField))) written]) /\
      Resolution.resolved r = written) /\
  higher Scenario.upToDate "2.0.0-rc.1" "2.0.0" [] = (Ok "2.0.0", [], []).
Proof.
  split.
  - apply (proj1 version_bump_selects_higher Disk Scenario.upToDate "package.json"
                 [("package.json", Scenario.manifest "1.4.0" "1.3.0")]
                 (Scenario.manifest "1.4.0" "1.3.0")
                 [("package.json", Scenario.manifest "1.4.0" "1.3.0")]
                 Scenario.oursRegion Scenario.theirsRegion
                 Scenario.oursField Scenario.theirsField true).
    + reflexivity.
    + vm_compute. reflexivity.
    + vm_compute. reflexivity.
    + vm_compute. reflexivity.
    + vm_compute. reflexivity.
    + vm_compute. reflexivity.
    + vm_compute. reflexivity.
    + vm_compute. reflexivity.
  - apply (proj1 (proj2 version_bump_selects_higher)
                 (Ok "main") (Ok clean) (answers []) "2.0.0-rc.1" "2.0.0"
                 (Semver.mkSemVer 2 0 0 []) []).
    + vm_compute. reflexivity.
    + vm_compute. reflexivity.
Defined.

(* ================================================================== *)
(** * The resolution of one file and of all of them *)
(* ================================================================== *)

Section Resolve.
Context {World : Type} (env : Collaborators World).

Lemma tryResolve_spec filepath w :
  exists r w' log,
    tryResolvePackageJsonConflict env filepath w = (Ok r, w', log) /\
    (Resolution.resolved r = true <->
     exists content, In (mkEvent (WriteFile filepath content) true) log) /\
    (Resolution.resolved r = false -> Resolution.error r <> None) /\
    (forall e, In e log ->
               call e = ReadFile filepath \/ exists content, call e = WriteFile filepath content).
Proof.
  unfold tryResolvePackageJsonConflict, higher. monad.
  assert (Done : forall (message : string) (w1 : World) (ok : bool),
             exists r w' log,
               (Ok (Resolution.mk false (Some message)), w1,
                ([mkEvent (ReadFile filepath) ok] ++ [])%list)
               = (Ok r, w', log) /\
               (Resolution.resolved r = true <->
                exists content, In (mkEvent (WriteFile filepath content) true) log) /\
               (Resolution.resolved r = false -> Resolution.error r <> None) /\
               (forall e, In e log ->
                          call e = ReadFile filepath \/
                          exists content, call e = WriteFile filepath content)).
  { intros. do 3 eexists; split; [reflexivity|]. cbn.
    split; [split; [discriminate | intros [c [I | []]]; discriminate I]|].
    split; [discriminate|]. intros e [<- | []]. now left. }
  oracle; [|apply Done].
  destruct (_ || _); [apply Done|].
  destruct (exec ConflictPatterns.ours content) as [om|]; [|apply Done].
  destruct (exec ConflictPatterns.theirs content) as [tm|]; [|apply Done].
  destruct (exec ConflictPatterns.versionPattern (group 1 om)) as [ov|]; [|apply Done].
  destruct (exec ConflictPatterns.versionPattern (group 1 tm)) as [tv|]; [|apply Done].
  oracle.
  2:{ do 3 eexists; split; [reflexivity|]. cbn.
      split; [split; [discriminate | intros [c [I | []]]; discriminate I]|].
      split; [discriminate|]. intros e [<- | []]. now left. }
  oracle; do 3 eexists; (split; [reflexivity|]); cbn.
  - split; [split; [intros _; eexists; right; left; reflexivity | reflexivity]|].
    split; [discriminate|]. intros e [<- | [<- | []]]; cbn; eauto.
  - split; [split; [discriminate | intros [c [I | [I | []]]]; discriminate I]|].
    split; [discriminate|]. intros e [<- | [<- | []]]; cbn; eauto.
Qed.

Lemma tryResolve_calls filepath w :
  exists r w' log,
    tryResolvePackageJsonConflict env filepath w = (Ok r, w', log) /\
    (forall e, In e log ->
               call e = ReadFile filepath \/ exists content, call e = WriteFile filepath content).
Proof.
  destruct (tryResolve_spec filepath w) as (r & w' & log & Run & _ & _ & C). eauto.
Qed.

Lemma resolveConflict_spec filepath strategy w :
  exists r w' log,
    resolveConflict env filepath strategy false w = (Ok r, w', log) /\
    (ConflictResolution.resolved r = true <->
     In (mkEvent (RunSecure "git" ["add"; filepath]) true) log) /\
    (forall e, In e log ->
               call e = RunSecure "git" ["add"; filepath] \/
               (strategy <> VersionBump /\
                call e = RunSecure "git" ["checkout"; "--theirs"; filepath]) \/
               (strategy = VersionBump /\
                (call e = ReadFile filepath \/
                 exists content, call e = WriteFile filepath content))).
Proof.
  unfold resolveConflict, acceptTheirs. monad.
  destruct strategy; monad.
  1-3: oracle; [oracle|]; do 3 eexists; (split; [reflexivity|]); cbn;
    (split; [ split; [ intros; try discriminate; tauto
                     | intros I; decompose [or] I; try discriminate; try contradiction;
                       reflexivity ]
            | intros e I; decompose [or] I; subst; cbn;
              try (right; left; split; [discriminate | reflexivity]); try tauto ]).
  - destruct (tryResolve_calls filepath w) as (r & w1 & t1 & -> & C).
    assert (NoAdd : forall ok, ~ In (mkEvent (RunSecure "git" ["add"; filepath]) ok) t1).
    { intros ok I. destruct (C _ I) as [E | [c E]]; discriminate E. }
    monad. destruct (Resolution.resolved r); monad.
    + oracle; do 3 eexists; (split; [reflexivity|]); cbn; rewrite ?app_nil_r;
        (split; [ split; [ intros; try discriminate; apply in_or_app; right; now left
                         | intros I; apply in_app_or in I;
                           destruct I as [I | [I | []]];
                           [now destruct (NoAdd _ I) | try discriminate I; reflexivity] ] |]);
        intros e I; apply in_app_or in I; destruct I as [I | [<- | []]];
        try (now left); right; right; split; auto.
    + do 3 eexists; (split; [reflexivity|]); cbn; rewrite ?app_nil_r.
      split; [split; [discriminate | intros I; now destruct (NoAdd _ I)]|].
      intros e I. right; right; split; auto.
  - do 3 eexists; (split; [reflexivity|]); cbn. split; [split; [discriminate | tauto] | tauto].
Qed.
Lemma resolveConflict_fields filepath strategy w r w' log :
  resolveConflict env filepath strategy false w = (Ok r, w', log) ->
  ConflictResolution.file r = filepath /\
  ConflictResolution.strategy r = strategy /\
  (ConflictResolution.resolved r = false -> ConflictResolution.error r <> None).
Proof.
  unfold resolveConflict, acceptTheirs. monad.
  destruct strategy; monad.
  1-3: oracle; [oracle|]; intros Eq; inversion Eq; subst; cbn; repeat split; discriminate.
  - destruct (tryResolve_spec filepath w) as (a & w1 & t1 & -> & _ & E & _).
    monad. destruct (Resolution.resolved a) eqn:R; monad.
    + oracle; intros Eq; inversion Eq; subst; cbn; repeat split; discriminate.
    + intros Eq; inversion Eq; subst; cbn. repeat split. intros _. now apply E.
  - intros Eq; inversion Eq; subst; cbn. repeat split; discriminate.
Qed.
End Resolve.

Section Loop.
Context {World : Type} (env : Collaborators World).

Lemma canResolve_not_versionBump f : strategy (canAutoResolve f) <> VersionBump.
Proof.
  unfold canAutoResolve.
  repeat match goal with |- context [if ?b then _ else _] => destruct b end;
    cbn; discriminate.
Qed.

Lemma autoResolveLoop_spec files res0 man0 w :
  exists res man w' log,
    autoResolveLoop env files false res0 man0 w
    = (Ok ((res0 ++ res)%list, (man0 ++ man)%list), w', log) /\
    Permutation (res ++ man) files /\
    (forall f, In f res ->
               autoResolvable f = true /\
               In (mkEvent (RunSecure "git" ["add"; f]) true) log) /\
    (forall f, In f files -> autoResolvable f = false -> In f man) /\
    (forall e, In e log ->
               exists f, In f files /\ autoResolvable f = true /\ touches f (call e)) /\
    (forall f, In (mkEvent (RunSecure "git" ["add"; f]) true) log -> In f res).
Proof.
  revert res0 man0 w. induction files as [|f files IH]; intros res0 man0 w.
  - exists [], [], w, []. cbn. rewrite !app_nil_r.
    repeat split; auto; intros; contradiction.
  - cbn [autoResolveLoop]. fold (isManifest f).
    assert (Step : forall s,
               (isManifest f = true -> s = VersionBump) ->
               (isManifest f = false -> s <> VersionBump) ->
               autoResolvable f = true ->
               exists res man w' log,
                 bind (resolveConflict env f s false)
                      (fun result =>
                         if ConflictResolution.resolved result
                         then autoResolveLoop env files false (res0 ++ [f]) man0
                         else autoResolveLoop env files false res0 (man0 ++ [f])) w
                 = (Ok ((res0 ++ res)%list, (man0 ++ man)%list), w', log) /\
                 Permutation (res ++ man) (f :: files) /\
                 (forall g, In g res ->
                            autoResolvable g = true /\
                            In (mkEvent (RunSecure "git" ["add"; g]) true) log) /\
                 (forall g, In g (f :: files) -> autoResolvable g = false -> In g man) /\
                 (forall e, In e log ->
                            exists g, In g (f :: files) /\ autoResolvable g = true /\
                                      touches g (call e)) /\
                 (forall g, In (mkEvent (RunSecure "git" ["add"; g]) true) log ->
                            In g res)).
    { intros s MT MF AR. unfold bind.
      destruct (resolveConflict_spec env f s w) as (r & w1 & t1 & -> & Staged & Calls).
      assert (T1 : forall e, In e t1 ->
                             exists g, In g (f :: files) /\ autoResolvable g = true /\
                                       touches g (call e)).
      { intros e I. exists f. split; [now left|]. split; [exact AR|].
        unfold touches. destruct (Calls e I) as [C | [[N C] | [E C]]].
        - now left.
        - right; left. split; [|exact C].
          destruct (isManifest f) eqn:M; [now destruct N; apply MT | reflexivity].
        - right; right. split; [|exact C].
          destruct (isManifest f) eqn:M; [reflexivity | now destruct (MF eq_refl)]. }
      assert (Add : forall g, In (mkEvent (RunSecure "git" ["add"; g]) true) t1 ->
                              g = f /\ ConflictResolution.resolved r = true).
      { intros g I.
        assert (g = f) as ->.
        { destruct (Calls _ I) as [C | [[_ C] | [_ [C | [c C]]]]]; cbn in C;
            try discriminate C. now inversion C. }
        split; [reflexivity | now apply Staged]. }
      destruct (ConflictResolution.resolved r) eqn:R.
      + destruct (IH (res0 ++ [f])%list man0 w1)
          as (res & man & w' & t2 & -> & P & S & U & C & A).
        exists (f :: res), man, w', (t1 ++ t2)%list.
        rewrite <- app_assoc. split; [reflexivity|].
        split; [cbn; now constructor|].
        split.
        { intros g [<- | I].
          - split; [exact AR|]. apply in_or_app. left. now apply Staged.
          - destruct (S g I) as [A1 B]. split; [exact A1|]. apply in_or_app. now right. }
        split.
        { intros g [<- | I] N; [congruence|]. now apply U. }
        split.
        { intros e I. apply in_app_or in I. destruct I as [I | I]; [now apply T1|].
          destruct (C e I) as (g & G & A1 & T). exists g. split; [now right | auto]. }
        intros g I. apply in_app_or in I. destruct I as [I | I].
        * left. symmetry. now apply Add.
        * right. now apply A.
      + destruct (IH res0 (man0 ++ [f])%list w1)
          as (res & man & w' & t2 & -> & P & S & U & C & A).
        exists res, (f :: man), w', (t1 ++ t2)%list.
        rewrite <- app_assoc. split; [reflexivity|].
        split; [apply Permutation_sym, Permutation_cons_app, Permutation_sym, P|].
        split.
        { intros g I. destruct (S g I) as [A1 B]. split; [exact A1|].
          apply in_or_app. now right. }
        split.
        { intros g [<- | I] N; [now left | right; now apply U]. }
        split.
        { intros e I. apply in_app_or in I. destruct I as [I | I]; [now apply T1|].
          destruct (C e I) as (g & G & A1 & T). exists g. split; [now right | auto]. }
        intros g I. apply in_app_or in I. destruct I as [I | I].
        * destruct (Add g I) as [_ X]. discriminate X.
        * now apply A. }
    destruct (isManifest f) eqn:M.
    + apply Step; auto; try discriminate. unfold autoResolvable. now rewrite M.
    + destruct (canResolve (canAutoResolve f)) eqn:CR.
      * apply Step; try discriminate.
        -- intros _. apply canResolve_not_versionBump.
        -- unfold autoResolvable. now rewrite M, CR.
      * destruct (IH res0 (man0 ++ [f])%list w)
          as (res & man & w' & t2 & -> & P & S & U & C & A).
        exists res, (f :: man), w', t2.
        rewrite <- app_assoc. split; [reflexivity|].
        split; [apply Permutation_sym, Permutation_cons_app, Permutation_sym, P|].
        split; [exact S|].
        split.
        { intros g [<- | I] N; [now left | right; now apply U]. }
        split; [|exact A].
        intros e I. destruct (C e I) as (g & G & A1 & T). exists g. split; [now right | auto].
Qed.

Lemma autoResolveLoop_dry files res0 man0 w :
  autoResolveLoop env files true res0 man0 w
  = (Ok ((res0 ++ filter autoResolvable files)%list,
         (man0 ++ filter (fun f => negb (autoResolvable f)) files)%list), w, []).
Proof.
  revert res0 man0. induction files as [|f files IH]; intros res0 man0.
  - cbn. now rewrite !app_nil_r.
  - cbn [autoResolveLoop filter]. fold (isManifest f). unfold resolveConflict, bind, ret.
    destruct (isManifest f) eqn:M.
    + assert (A : autoResolvable f = true) by (unfold autoResolvable; now rewrite M).
      rewrite A. cbn. rewrite IH. now rewrite <- app_assoc.
    + destruct (canResolve (canAutoResolve f)) eqn:CR.
      * assert (A : autoResolvable f = true) by (unfold autoResolvable; now rewrite M, CR).
        rewrite A. cbn. rewrite IH. now rewrite <- app_assoc.
      * assert (A : autoResolvable f = false) by (unfold autoResolvable; now rewrite M, CR).
        rewrite A. cbn. rewrite IH. now rewrite <- app_assoc.
Qed.
End Loop.

(* ================================================================== *)
(** * Lines of names *)
(* ================================================================== *)

Lemma oneLine_cons c s : oneLine (String c s) <-> c <> Js.LF /\ oneLine s.
Proof.
  unfold oneLine. cbn [Js.includes Js.startsWith Js.nl].
  destruct (Ascii.eqb_spec Js.LF c) as [<- | N]; cbn.
  - split; [discriminate | intros [N _]; now destruct N].
  - split; [intros H; split; [congruence | exact H] | intros [_ H]; exact H].
Qed.

Lemma splitLF_not_nil s : Js.splitLF s <> [].
Proof.
  induction s as [|c s IH]; cbn; [discriminate|].
  destruct (Ascii.eqb c Js.LF); [discriminate|].
  destruct (Js.splitLF s); [contradiction | discriminate].
Qed.

Lemma splitLF_oneLine s f : In f (Js.splitLF s) -> oneLine f.
Proof.
  revert f. induction s as [|c s IH]; cbn; intros f I.
  - destruct I as [<- | []]. reflexivity.
  - destruct (Ascii.eqb_spec c Js.LF) as [-> | N].
    + destruct I as [<- | I]; [reflexivity | now apply IH].
    + destruct (Js.splitLF s) as [|h t] eqn:E; [now destruct (splitLF_not_nil s)|].
      destruct I as [<- | I].
      * apply oneLine_cons. split; [exact N | apply IH; now left].
      * apply IH. now right.
Qed.

Lemma splitLF_one s : oneLine s -> Js.splitLF s = [s].
Proof.
  induction s as [|c s IH]; [reflexivity|]. intros O.
  apply oneLine_cons in O. destruct O as [N O]. cbn.
  destruct (Ascii.eqb_spec c Js.LF) as [-> | _]; [now destruct N|].
  now rewrite (IH O).
Qed.

Lemma splitLF_line a b : oneLine a -> Js.splitLF (a ++ Js.nl ++ b) = a :: Js.splitLF b.
Proof.
  induction a as [|c a IH]; intros O.
  - reflexivity.
  - apply oneLine_cons in O. destruct O as [N O]. cbn.
    destruct (Ascii.eqb_spec c Js.LF) as [-> | _]; [now destruct N|].
    cbn in IH. now rewrite (IH O).
Qed.

Lemma splitLF_join names :
  names <> [] -> (forall n, In n names -> oneLine n) ->
  Js.splitLF (Js.joinLF names) = names.
Proof.
  induction names as [|n names IH]; [congruence|]. intros _ O.
  destruct names as [|m names].
  - cbn. apply splitLF_one, O. now left.
  - change (Js.joinLF (n :: m :: names)) with (n ++ Js.nl ++ Js.joinLF (m :: names)).
    rewrite splitLF_line by (apply O; now left).
    f_equal. apply IH; [discriminate|]. intros x I. apply O. now right.
Qed.

(** White space at the two ends. *)
Lemma trimStart_length s : String.length (Js.trimStart s) <= String.length s.
Proof.
  induction s as [|c s IH]; cbn; [lia|]. destruct (Js.isWhiteSpace c); cbn; lia.
Qed.

Lemma trimEnd_length s : String.length (Js.trimEnd s) <= String.length s.
Proof.
  induction s as [|c s IH]; cbn; [lia|].
  destruct (Js.trimEnd s); [destruct (Js.isWhiteSpace c)|]; cbn in *; lia.
Qed.

Lemma trim_fixed s : Js.trim s = s -> Js.trimStart s = s /\ Js.trimEnd s = s.
Proof.
  unfold Js.trim. intros T.
  assert (S : Js.trimStart s = s).
  { destruct s as [|c s]; [reflexivity|]. cbn in *.
    destruct (Js.isWhiteSpace c); [|reflexivity].
    exfalso.
    pose proof (trimEnd_length (Js.trimStart s)) as L1.
    pose proof (trimStart_length s) as L2.
    rewrite T in L1. cbn in L1. lia. }
  split; [exact S | now rewrite S in T].
Qed.

Lemma trimStart_app a b : a <> "" -> Js.trimStart a = a -> Js.trimStart (a ++ b) = a ++ b.
Proof.
  destruct a as [|c a]; [congruence|]. intros _. cbn.
  destruct (Js.isWhiteSpace c); [|reflexivity].
  intros T. exfalso. pose proof (trimStart_length a) as L. rewrite T in L. cbn in L. lia.
Qed.

Lemma trimEnd_app a b : b <> "" -> Js.trimEnd b = b -> Js.trimEnd (a ++ b) = a ++ b.
Proof.
  intros N T. induction a as [|c a IH]; [exact T|]. cbn. rewrite IH.
  destruct (a ++ b) eqn:E; [|reflexivity].
  destruct a; cbn in E; [congruence | discriminate].
Qed.

Lemma trimEnd_nl s : Js.trimEnd (s ++ Js.nl) = Js.trimEnd s.
Proof.
  induction s as [|c s IH]; [reflexivity|]. cbn. cbn in IH. now rewrite IH.
Qed.

Lemma joinLF_not_empty n names : n <> "" -> Js.joinLF (n :: names) <> "".
Proof.
  intros N. destruct names; cbn; [exact N|]. destruct n; [congruence | discriminate].
Qed.

Lemma joinLF_trimEnd names :
  (forall n, In n names -> n <> "" /\ Js.trimEnd n = n) ->
  Js.trimEnd (Js.joinLF names) = Js.joinLF names.
Proof.
  induction names as [|n names IH]; [reflexivity|]. intros H.
  destruct names as [|m names].
  - apply H. now left.
  - change (Js.joinLF (n :: m :: names)) with (n ++ (Js.nl ++ Js.joinLF (m :: names))).
    apply trimEnd_app; [discriminate|].
    change (Js.nl ++ Js.joinLF (m :: names)) with (String Js.LF (Js.joinLF (m :: names))).
    cbn [Js.trimEnd]. rewrite IH by (intros x I; apply H; now right).
    destruct (Js.joinLF (m :: names)) eqn:E; [|reflexivity].
    exfalso. revert E. apply joinLF_not_empty. apply (H m). right; now left.
Qed.

Lemma joinLF_trimStart n names :
  n <> "" -> Js.trimStart n = n ->
  Js.trimStart (Js.joinLF (n :: names)) = Js.joinLF (n :: names).
Proof.
  intros N T. destruct names as [|m names]; [exact T|].
  change (Js.joinLF (n :: m :: names)) with (n ++ (Js.nl ++ Js.joinLF (m :: names))).
  now apply trimStart_app.
Qed.

(** The names that git printed one per line are the names that the parsing
    of [getConflictedFiles] gives. *)
Lemma parse_lines names :
  (forall n, In n names -> n <> "" /\ Js.trim n = n /\ oneLine n) ->
  filter (fun f => Js.truthy (Js.trim f)) (Js.splitLF (Js.trim (Js.joinLF names ++ Js.nl)))
  = names.
Proof.
  intros H. destruct names as [|n names]; [reflexivity|].
  assert (T : Js.trim (Js.joinLF (n :: names) ++ Js.nl) = Js.joinLF (n :: names)).
  { unfold Js.trim.
    destruct (H n (or_introl eq_refl)) as (N & Tn & _). apply trim_fixed in Tn.
    assert (J : Js.trimStart (Js.joinLF (n :: names)) = Js.joinLF (n :: names))
      by (apply joinLF_trimStart; tauto).
    rewrite trimStart_app; [| now apply joinLF_not_empty | exact J].
    rewrite trimEnd_nl. apply joinLF_trimEnd.
    intros x I. destruct (H x I) as (Nx & Tx & _). apply trim_fixed in Tx. tauto. }
  rewrite T, splitLF_join; [| discriminate | intros x I; now apply H].
  apply forallb_filter_id. apply forallb_forall. intros x I.
  destruct (H x I) as (Nx & Tx & _). rewrite Tx. destruct x; [congruence | reflexivity].
Qed.

(* ================================================================== *)
(** * The calls of the conflict resolution in the log *)
(* ================================================================== *)

Lemma stashRun_app st l1 l2 :
  stashRun st (l1 ++ l2)%list
  = match stashRun st l1 with Some st' => stashRun st' l2 | None => None end.
Proof.
  revert st; induction l1 as [|e l1 IH]; intros st; cbn; [reflexivity|].
  destruct (stashStep st e); [apply IH | reflexivity].
Qed.

Lemma resolveCall_verbs e :
  resolveCall e = true ->
  (exists f, call e = ReadFile f) \/ (exists f c, call e = WriteFile f c) \/
  (exists a rest, call e = RunSecure "git" (a :: rest) /\
                  (a = "diff" \/ a = "checkout" \/ a = "add")).
Proof.
  unfold resolveCall, gitVerb. destruct (call e) as [| |cmd args| |f|f c]; try discriminate; eauto.
  destruct args as [|a rest]; [discriminate|].
  destruct (String.eqb_spec cmd "git") as [-> | _]; [|discriminate]. cbn [andb].
  intros H. right; right. exists a, rest. split; [reflexivity|].
  destruct (String.eqb_spec a "diff"); [tauto|].
  destruct (String.eqb_spec a "checkout"); [tauto|].
  destruct (String.eqb_spec a "add"); [tauto | discriminate].
Qed.

Ltac foreign_call :=
  let e := fresh "e" in let H := fresh "H" in
  intros e H; apply resolveCall_verbs in H;
  destruct e as [c ok]; cbn [call returned] in *;
  destruct H as [[f ->] | [(f & c' & ->) | (a & rest & -> & [-> | [-> | ->]])]];
  try reflexivity; destruct ok; try reflexivity; destruct rest as [|? [|? ?]]; reflexivity.

Lemma foreign_existsb p log :
  foreign p -> forallb resolveCall log = true -> existsb p log = false.
Proof.
  intros F. induction log as [|e log IH]; [reflexivity|]. cbn.
  intros H. apply andb_true_iff in H. destruct H as [H1 H2].
  now rewrite (F e H1), IH.
Qed.

Lemma foreign_push : foreign isStashPush.
Proof. foreign_call. Qed.

Lemma foreign_pop : foreign isStashPop.
Proof. foreign_call. Qed.

Lemma resolve_stashRun st log : forallb resolveCall log = true -> stashRun st log = Some st.
Proof.
  induction log as [|e log IH]; [reflexivity|]. cbn.
  intros H. apply andb_true_iff in H. destruct H as [H1 H2].
  assert (S : stashStep st e = Some st).
  { unfold stashStep.
    now rewrite (foreign_push e H1), (foreign_pop e H1). }
  rewrite S. now apply IH.
Qed.

Lemma resolve_attempts log : forallb resolveCall log = true -> attempts log = [].
Proof.
  induction log as [|e log IH]; [reflexivity|]. cbn.
  intros H. apply andb_true_iff in H. destruct H as [H1 H2].
  assert (A : attemptOf (call e) = None).
  { apply resolveCall_verbs in H1.
    destruct H1 as [[f ->] | [(f & c' & ->) | (a & rest & -> & [-> | [-> | ->]])]];
      reflexivity. }
  rewrite A. now apply IH.
Qed.

Section Footprint.
Context {World : Type} (env : Collaborators World).

Lemma autoResolveConflicts_footprint dry w :
  exists resolved manual w' log,
    autoResolveConflicts env dry w = (Ok (resolved, manual), w', log) /\
    forallb resolveCall log = true.
Proof.
  unfold autoResolveConflicts, getConflictedFiles. monad.
  assert (L : forall files w1 ok,
             exists resolved manual w' log,
               (let (p, t2) := autoResolveLoop env files dry [] [] w1 in
                let (r, w2) := p in
                (r, w2,
                 ([mkEvent (RunSecure "git" ["diff"; "--name-only"; "--diff-filter=U"]) ok]
                    ++ t2)%list))
               = (Ok (resolved, manual), w', log) /\
               forallb resolveCall log = true).
  { intros files w1 ok. destruct dry.
    - rewrite autoResolveLoop_dry. do 4 eexists. split; reflexivity.
    - destruct (autoResolveLoop_spec env files [] [] w1)
        as (res & man & w' & log & -> & _ & _ & _ & C & _).
      do 4 eexists. split; [reflexivity|]. cbn [app forallb]. apply andb_true_iff.
      split; [reflexivity|]. apply forallb_forall. intros e I.
      destruct (C e I) as (f & _ & _ & T). unfold resolveCall.
      destruct T as [-> | [[_ ->] | [_ [-> | [c ->]]]]]; reflexivity. }
  oracle.
  - rewrite app_nil_r. apply L.
  - specialize (L [] w0 false). cbn in L. rewrite app_nil_r. exact L.
Qed.
End Footprint.

(* ================================================================== *)
(** * The statements of the cascade, one by one *)
(* ================================================================== *)

Lemma foreign_install : foreign isInstall.
Proof. foreign_call. Qed.
Lemma foreign_commit : foreign isCommit.
Proof. foreign_call. Qed.
Lemma foreign_completes s : foreign (completes s).
Proof. destruct s; foreign_call. Qed.

Lemma includes_app a b p : Js.startsWith b p = true -> Js.includes (a ++ b) p = true.
Proof.
  intros S. induction a as [|c a IH]; cbn [append Js.includes].
  - destruct b; cbn [Js.includes]; now rewrite S.
  - rewrite IH. apply orb_true_r.
Qed.

(** The name of the fetched branch has a slash: it is not an option of
    git rebase. *)
Lemma abort_not_upstream remote target :
  String.eqb "--abort" (upstream remote target) = false.
Proof.
  destruct (String.eqb_spec "--abort" (upstream remote target)) as [E | _]; [|reflexivity].
  assert (I : Js.includes (upstream remote target) "/" = true)
    by (apply includes_app; reflexivity).
  rewrite <- E in I. discriminate I.
Qed.

Lemma existsb_cons {A} (p : A -> bool) e l : existsb p (e :: l) = p e || existsb p l.
Proof. reflexivity. Qed.

Lemma existsb_nil {A} (p : A -> bool) : existsb p [] = false.
Proof. reflexivity. Qed.

Lemma attempts_cons e l :
  attempts (e :: l) = (match attemptOf (call e) with Some s => [s] | None => [] end
                         ++ attempts l)%list.
Proof. cbn. now destruct (attemptOf (call e)). Qed.

Lemma attempts_nil : attempts [] = [].
Proof. reflexivity. Qed.

Ltac pick :=
  match goal with
  | |- context [autoResolveConflicts ?e ?dry ?w] =>
      let resolved := fresh "resolved" in let manual := fresh "manual" in
      let F := fresh "Foot" in
      destruct (autoResolveConflicts_footprint e dry w)
        as (resolved & manual & ? & ? & -> & F)
  end; monad.

Ltac decide_test :=
  match goal with
  | |- context [if ?b then _ else _] => is_var b; destruct b
  | |- context [if ?b then _ else _] =>
      lazymatch type of b with bool => destruct b eqn:? end
  end; monad.

Ltac run_step :=
  unfold fetchStep, fastForwardStep, rebaseStep, mergeStep, applyStashIfNeeded,
    regenerateLockFiles, getConflictedFiles;
  monad;
  repeat first [oracle | pick | decide_test].

Ltac opaque_pieces :=
  repeat match goal with
    | F : forallb resolveCall ?t = true |- context [existsb isStashPop ?t] =>
        rewrite (foreign_existsb _ t foreign_pop F)
    | F : forallb resolveCall ?t = true |- context [existsb isStashPush ?t] =>
        rewrite (foreign_existsb _ t foreign_push F)
    | F : forallb resolveCall ?t = true |- context [existsb isInstall ?t] =>
        rewrite (foreign_existsb _ t foreign_install F)
    | F : forallb resolveCall ?t = true |- context [existsb isCommit ?t] =>
        rewrite (foreign_existsb _ t foreign_commit F)
    | F : forallb resolveCall ?t = true |- context [existsb (completes ?s) ?t] =>
        rewrite (foreign_existsb _ t (foreign_completes s) F)
    | F : forallb resolveCall ?t = true |- context [attempts ?t] =>
        rewrite (resolve_attempts t F)
    | F : forallb resolveCall ?t = true |- context [stashRun ?st ?t] =>
        rewrite (resolve_stashRun st t F)
    end.

Lemma resolve_stashRun_app st t l :
  forallb resolveCall t = true -> stashRun st (t ++ l)%list = stashRun st l.
Proof. intros F. now rewrite stashRun_app, (resolve_stashRun st t F). Qed.

Ltac log_eval :=
  cbn [attemptOf isStashPush isStashPop isStashPushReturned isInstall isCommit completes
       ffReturned gitCommand gitVerb argsEqb call returned andb orb negb app isOk
       stashRun stashStep String.eqb Ascii.eqb Bool.eqb].

Ltac log_norm :=
  rewrite ?app_nil_r;
  repeat first [rewrite existsb_cons | rewrite existsb_nil | rewrite existsb_app
               | rewrite attempts_cons | rewrite attempts_nil | rewrite attempts_app];
  opaque_pieces;
  cbn [attemptOf isStashPush isStashPop isStashPushReturned isInstall isCommit completes
       ffReturned gitCommand gitVerb argsEqb call returned andb orb negb app isOk];
  rewrite ?abort_not_upstream;
  log_eval;
  repeat first [ rewrite <- app_assoc
               | rewrite resolve_stashRun_app by assumption
               | rewrite resolve_stashRun by assumption
               | progress log_eval ].

Ltac facts :=
  unfold endStep, quietStep, shape;
  cbn [PullResult.success PullResult.hadConflicts PullResult.autoResolved
       PullResult.manualRequired PullResult.stashApplied PullResult.strategy
       PullResult.message];
  repeat match goal with
         | |- _ /\ _ => split
         | |- forall s : PullResult.Strategy, _ => intros []
         end;
  log_norm;
  repeat match goal with
         | |- _ /\ _ => split
         | |- _ <> _ => intro
         | |- _ -> _ => intro
         end;
  try discriminate; try reflexivity; try congruence; try assumption; eauto;
  try match goal with
      | H : (List.length ?m =? 0)%nat = false, E : ?m = [] |- _ =>
          rewrite E in H; discriminate H
      end.

Section StepFacts.
Context {World : Type} (env : Collaborators World).
Import PullResult.

Lemma fetchStep_spec remote target didStash dry w :
  exists r w' log,
    fetchStep env remote target didStash dry w = (Ok r, w', log) /\
    attempts log = [] /\ existsb isCommit log = false /\
    match r with
    | Some result => dry = false /\ endStep Failed didStash result log
    | None => quietStep log
    end.
Proof.
  run_step; do 3 eexists; (split; [reflexivity|]).
  all: facts.
Qed.

Lemma fastForwardStep_spec remote target didStash dry w :
  exists r w' log,
    fastForwardStep env remote target didStash dry w = (Ok r, w', log) /\
    existsb isCommit log = false /\
    (dry = false -> attempts log = [FastForward]) /\
    match r with
    | Some result => dry = false /\ endStep FastForward didStash result log
    | None => quietStep log
    end.
Proof.
  run_step; do 3 eexists; (split; [reflexivity|]).
  all: facts.
Qed.

Lemma rebaseStep_spec remote target didStash dry w :
  exists r w' log,
    rebaseStep env remote target didStash dry w = (Ok r, w', log) /\
    existsb isCommit log = false /\
    match r with
    | Some result => dry = false /\ endStep Rebase didStash result log
    | None =>
        quietStep log /\
        (dry = false -> attempts log = [Rebase] \/ attempts log = [Rebase; Rebase])
    end.
Proof.
  run_step; do 3 eexists; (split; [reflexivity|]).
  all: facts.
Qed.

Lemma mergeStep_spec remote target didStash dry w :
  exists r w' log,
    mergeStep env remote target didStash dry w = (Ok r, w', log) /\
    match r with
    | Some result => dry = false /\ endStep Merge didStash result log
    | None => quietStep log
    end.
Proof.
  run_step; do 3 eexists; (split; [reflexivity|]).
  all: facts.
Qed.
End StepFacts.

Ltac use_facts :=
  repeat first
    [ rewrite existsb_app | rewrite existsb_cons | rewrite existsb_nil
    | rewrite attempts_app | rewrite attempts_cons | rewrite attempts_nil
    | match goal with
      | H : existsb ?p ?l = _ |- context [existsb ?p ?l] => rewrite H
      | H : forall s, existsb (completes s) ?l = false |- context [existsb (completes ?s) ?l] =>
          rewrite (H s)
      | H : attempts ?l = _ |- context [attempts ?l] => rewrite H
      end ];
  log_eval.

Section StashFacts.
Context {World : Type} (env : Collaborators World).
Import PullResult.

Lemma stashIfNeeded_spec dry w :
  exists r w' log,
    stashIfNeeded env dry w = (r, w', log) /\
    existsb isStashPop log = false /\
    existsb isInstall log = false /\
    existsb isCommit log = false /\
    (forall s, existsb (completes s) log = false) /\
    attempts log = [] /\
    match r with
    | Ok d =>
        stashRun Clean log = Some (if d && negb dry then Stashed else Clean) /\
        existsb isStashPush log = d && negb dry /\
        existsb isStashPushReturned log = d && negb dry
    | Throw _ => stashRun Clean log = Some Clean
    end.
Proof.
  unfold stashIfNeeded. monad.
  repeat first [oracle | decide_test]; do 3 eexists; (split; [reflexivity|]).
  all: repeat match goal with
              | |- _ /\ _ => split
              | |- forall s : PullResult.Strategy, _ => intros []
              end; reflexivity.
Qed.
End StashFacts.

(* ================================================================== *)
(** * The whole run *)
(* ================================================================== *)

Lemma stashRun_quiet st l :
  existsb isStashPush l = false -> existsb isStashPop l = false -> stashRun st l = Some st.
Proof.
  induction l as [|e l IH]; [reflexivity|]. cbn [existsb stashRun]. intros H1 H2.
  apply orb_false_iff in H1, H2. destruct H1 as [P1 Q1]. destruct H2 as [P2 Q2].
  unfold stashStep. rewrite P1, P2. now apply IH.
Qed.

Lemma stashRun_last pre l (d : bool) :
  stashRun Clean pre = Some (if d then Stashed else Clean) ->
  existsb isStashPush l = false ->
  (exists st, stashRun Stashed l = Some st) ->
  (existsb isStashPop l = true -> d = true) ->
  exists st, stashRun Clean (pre ++ l)%list = Some st.
Proof.
  intros P NoPush Run Pop. rewrite stashRun_app, P. destruct d; [exact Run|].
  exists Clean. apply stashRun_quiet; [exact NoPush|].
  destruct (existsb isStashPop l); [now discriminate Pop | reflexivity].
Qed.

Ltac quiet_steps :=
  repeat match goal with
         | Q : quietStep _ |- _ => destruct Q as (? & ? & ? & ?)
         end.

Ltac known :=
  rewrite ?app_nil_r;
  repeat first
    [ rewrite existsb_app | rewrite existsb_cons | rewrite existsb_nil
    | rewrite attempts_app | rewrite attempts_cons | rewrite attempts_nil
    | match goal with
      | H : existsb ?p ?l = _ |- context [existsb ?p ?l] => rewrite H
      | H : forall s, existsb (completes s) ?l = false
        |- context [existsb (completes ?s) ?l] => rewrite (H s)
      | H : attempts ?l = _ |- context [attempts ?l] => rewrite H
      end ];
  log_eval; rewrite ?orb_false_r, ?andb_true_r; cbn [app].

Ltac stash_state :=
  rewrite ?app_nil_r; cbn [app stashRun]; log_eval;
  repeat first
    [ rewrite stashRun_app
    | match goal with
      | H : stashRun ?st ?l = _ |- context [stashRun ?st ?l] => rewrite H
      | H1 : existsb isStashPush ?l = false, H2 : existsb isStashPop ?l = false
        |- context [stashRun ?st ?l] => rewrite (stashRun_quiet st l H1 H2)
      end ].

Ltac last_step F :=
  let Dry := fresh "Dry" in
  let E1 := fresh "E" in let E2 := fresh "E" in let E3 := fresh "E" in
  let E4 := fresh "E" in let E5 := fresh "E" in let E6 := fresh "E" in
  let E7 := fresh "E" in let E8 := fresh "E" in let E9 := fresh "E" in
  destruct F as (Dry & E1 & E2 & E3 & E4 & E5 & E6 & E7 & E8 & E9);
  subst; quiet_steps; rewrite ?andb_true_r in *; cbn [negb] in *;
  rewrite ?andb_true_r in *;
  repeat match goal with
         | H : false = false -> _ |- _ => specialize (H eq_refl)
         end;
  split;
  [ stash_state;
    match goal with
    | |- exists st, stashRun (if ?d then Stashed else Clean) ?l = Some st =>
        destruct d; [exact E2|];
        exists Clean; apply stashRun_quiet; [exact E1|];
        destruct (existsb isStashPop l); [now discriminate E3 | reflexivity]
    end
  | unfold outcomeFacts; split; [exact E4|];
    split; [ intros S; destruct (E5 S) as (St & Done & App & Pop); rewrite St, App;
             known; rewrite ?Done, ?Pop; known;
             repeat split; try reflexivity;
             match goal with |- context [if ?d then _ else _] => destruct d end;
             reflexivity || (rewrite ?orb_false_r; reflexivity) |];
    split; [ intros M; destruct (E6 M) as (St & Pop & Com & Att); rewrite St;
             known;
             repeat split; try reflexivity; try discriminate; intros _;
             first [ now exists [PullResult.FastForward; PullResult.Rebase]
                   | now exists [PullResult.FastForward; PullResult.Rebase;
                                 PullResult.Rebase] ] |];
    split; [ known; exact E7 |];
    split; [ intros Fin; now destruct (E8 Fin) |];
    intros App; rewrite (E9 App) in *; known; reflexivity ].

Section WholeRun.
Context {World : Type} (env : Collaborators World).
Import PullResult.

Lemma pull_run_facts remote branch isDryRun w r w' log :
  executePull env remote branch isDryRun w = (r, w', log) ->
  (exists st, stashRun Clean log = Some st) /\
  match r with
  | Throw _ => existsb isInstall log = false /\ existsb isStashPop log = false
  | Ok result => outcomeFacts result log
  end.
Proof.
  unfold executePull. monad. oracle.
  2:{ intros Eq; inversion Eq; subst. cbn. eauto. }
  destruct (stashIfNeeded_spec env isDryRun w0)
    as (r0 & w1 & t & -> & SPop & SInst & SCom & SDone & SAtt & S).
  destruct r0 as [d | msg].
  2:{ intros Eq; inversion Eq; subst. split; [|split]; use_facts; try reflexivity.
      rewrite S. eauto. }
  destruct S as (SRun & SPush & SRet).
  unfold cascade, orNext. monad.
  destruct (fetchStep_spec env remote (orElse branch current) d isDryRun w1)
    as (r1 & w2 & l1 & -> & A1 & C1 & F1).
  destruct r1 as [result1 |]; monad.
  { intros Eq; inversion Eq; subst; clear Eq. last_step F1. }
  destruct (fastForwardStep_spec env remote (orElse branch current) d isDryRun w2)
    as (r2 & w3 & l2 & -> & C2 & A2 & F2).
  destruct r2 as [result2 |]; monad.
  { intros Eq; inversion Eq; subst; clear Eq. last_step F2. }
  destruct (rebaseStep_spec env remote (orElse branch current) d isDryRun w3)
    as (r3 & w4 & l3 & -> & C3 & F3).
  destruct r3 as [result3 |]; monad.
  { intros Eq; inversion Eq; subst; clear Eq. last_step F3. }
  destruct F3 as [F3 A3].
  destruct (mergeStep_spec env remote (orElse branch current) d isDryRun w4)
    as (r4 & w5 & l4 & -> & F4).
  destruct r4 as [result4 |]; monad.
  { intros Eq; inversion Eq; subst; clear Eq.
    assert (Dry : isDryRun = false) by apply F4. subst isDryRun.
    destruct (A3 eq_refl) as [A3' | A3']; clear A3; last_step F4. }
  unfold finalFailure. monad.
  intros Eq; inversion Eq; subst; clear Eq. quiet_steps.
  split.
  { stash_state. destruct (d && negb isDryRun); eexists; reflexivity. }
  unfold outcomeFacts, shape. cbn [success hadConflicts autoResolved manualRequired
                                   stashApplied strategy].
  split; [repeat split; try discriminate; congruence|].
  split; [discriminate|].
  split; [congruence|].
  split; [known; discriminate|].
  split; [intros _; known; reflexivity | discriminate].
Qed.
End WholeRun.

(* ================================================================== *)
(** * What a run of the pull shows *)
(* ================================================================== *)

Lemma pushReturned_pushed log :
  existsb isStashPush log = false -> existsb isStashPushReturned log = false.
Proof.
  induction log as [|e log IH]; [reflexivity|]. cbn [existsb]. intros H.
  apply orb_false_iff in H. destruct H as [H1 H2]. unfold isStashPushReturned at 1.
  rewrite H1. now apply IH.
Qed.

Section PullRuns.
Context {World : Type} (env : Collaborators World).
Import PullResult.

(** X1: in every run of [executePull], whatever it returns or throws, the
    stash commands respect the stash: git stash push is never issued once
    a push of this run has returned, and git stash pop is issued at most
    once and only after a push that returned. *)
Theorem stash_commands_in_order remote branch isDryRun w :
  exists st, stashRun Clean (snd (executePull env remote branch isDryRun w)) = Some st.
Proof.
  destruct (executePull env remote branch isDryRun w) as [[r w'] log] eqn:Run.
  exact (proj1 (pull_run_facts env _ _ _ _ _ _ _ Run)).
Qed.

(** X2: the fields of every outcome of [executePull] hang together: a
    success has a strategy other than failed; the strategy failed comes
    with success false and no conflicts; without conflicts both file lists
    are empty; a failure under a strategy other than failed is a pause with
    files left for manual resolution; a fast-forward is a success without
    conflicts. *)
Theorem outcome_fields_cohere remote branch isDryRun w result w' log :
  executePull env remote branch isDryRun w = (Ok result, w', log) ->
  (success result = true -> strategy result <> Failed) /\
  (strategy result = Failed -> success result = false /\ hadConflicts result = false) /\
  (hadConflicts result = false -> autoResolved result = [] /\ manualRequired result = []) /\
  (success result = false -> strategy result <> Failed ->
   hadConflicts result = true /\ manualRequired result <> []) /\
  (strategy result = FastForward -> success result = true /\ hadConflicts result = false).
Proof.
  intros Run. destruct (pull_run_facts env _ _ _ _ _ _ _ Run) as [_ [S _]].
  destruct S as (S1 & S2 & S3 & S4 & S5).
  split; [intros H; now destruct (S1 H)|]. auto.
Qed.

(** X3: a success is backed by the command of its strategy: when
    [executePull] reports success, the log holds a command that returned
    and that completes the reported strategy: the fast-forward merge; the
    rebase or its continuation; the plain merge or the commit of the
    merge. *)
Theorem success_is_backed_by_its_command remote branch isDryRun w result w' log :
  executePull env remote branch isDryRun w = (Ok result, w', log) ->
  success result = true ->
  existsb (completes (strategy result)) log = true.
Proof.
  intros Run S. destruct (pull_run_facts env _ _ _ _ _ _ _ Run) as [_ (_ & F & _)].
  now destruct (F S).
Qed.

(** X4: on success the flag stashApplied tells whether a stash was created,
    not whether it was restored: it is true exactly when git stash push
    returned in this run, and exactly then git stash pop was issued,
    whether the pop returned or threw. *)
Theorem success_reports_stash_created remote branch isDryRun w result w' log :
  executePull env remote branch isDryRun w = (Ok result, w', log) ->
  success result = true ->
  stashApplied result = existsb isStashPushReturned log /\
  existsb isStashPop log = stashApplied result.
Proof.
  intros Run S.
  destruct (pull_run_facts env _ _ _ _ _ _ _ Run) as [_ (_ & F & _ & _ & _ & R)].
  destruct (F S) as (_ & Push & Pop). split; [|exact Pop].
  destruct (stashApplied result) eqn:A.
  - symmetry. now apply R.
  - symmetry. now apply pushReturned_pushed.
Qed.

(** X5: a pause leaves everything in place for the user: when files are
    left for manual resolution, no stash pop and no commit was issued, and
    the operation is still in progress: under the strategy rebase the
    strategy commands of the run are the fast-forward and the one rebase
    (no continue, no abort, no merge), under the strategy merge the plain
    merge is the last strategy command. *)
Theorem pause_leaves_operation_in_progress remote branch isDryRun w result w' log :
  executePull env remote branch isDryRun w = (Ok result, w', log) ->
  manualRequired result <> [] ->
  existsb isStashPop log = false /\
  existsb isCommit log = false /\
  (strategy result = Rebase -> attempts log = [FastForward; Rebase]) /\
  (strategy result = Merge -> exists before, attempts log = (before ++ [Merge])%list).
Proof.
  intros Run M. destruct (pull_run_facts env _ _ _ _ _ _ _ Run) as [_ (_ & _ & F & _)].
  exact (F M).
Qed.

(** X6: npm install runs only after a successful resolution of a lock
    file: when the log of [executePull] holds the call, the function
    returned a success with conflicts whose autoResolved names
    package-lock.json, at the root or in a directory. *)
Theorem install_only_after_resolved_lock remote branch isDryRun w r w' log :
  executePull env remote branch isDryRun w = (r, w', log) ->
  existsb isInstall log = true ->
  exists result,
    r = Ok result /\ success result = true /\ hadConflicts result = true /\
    existsb isPackageLock (autoResolved result) = true.
Proof.
  intros Run I. destruct (pull_run_facts env _ _ _ _ _ _ _ Run) as [_ F].
  destruct r as [result | msg].
  - exists result. split; [reflexivity|]. destruct F as (_ & _ & _ & F & _). exact (F I).
  - destruct F as [F _]. congruence.
Qed.

(** X7: the stash is preserved when the pull gives up: a run of
    [executePull] that ends in the final failure, or in an exception,
    issued no git stash pop. *)
Theorem giving_up_preserves_stash remote branch isDryRun w r w' log :
  executePull env remote branch isDryRun w = (r, w', log) ->
  r = Ok pullFailed \/ (exists message, r = Throw message) ->
  existsb isStashPop log = false.
Proof.
  intros Run E. destruct (pull_run_facts env _ _ _ _ _ _ _ Run) as [_ F].
  destruct E as [-> | [message ->]].
  - destruct F as (_ & _ & _ & _ & F & _). now apply F.
  - now destruct F.
Qed.

(** X8: stashApplied is never true without a stash: an outcome with
    stashApplied true comes from a run in which git stash push returned;
    in particular not from a dry run. *)
Theorem stash_applied_needs_stash remote branch isDryRun w result w' log :
  executePull env remote branch isDryRun w = (Ok result, w', log) ->
  stashApplied result = true ->
  existsb isStashPushReturned log = true /\ isDryRun = false.
Proof.
  intros Run A.
  destruct (pull_run_facts env _ _ _ _ _ _ _ Run) as [_ (_ & _ & _ & _ & _ & F)].
  split; [now apply F|].
  destruct isDryRun; [|reflexivity].
  destruct (dry_run_calls env _ _ _ _ _ _ Run) as [_ Out].
  rewrite (Out result eq_refl) in A. discriminate A.
Qed.
End PullRuns.

Lemma outcome_fields_witness :
  PullResult.strategy Runs.fetchFailed = PullResult.Failed /\
  PullResult.success Runs.fetchFailed = false /\
  PullResult.hadConflicts Runs.fetchFailed = false.
Proof.
  split; [reflexivity|].
  refine (proj1 (proj2 (outcome_fields_cohere Scenario.fetchAndPopFail "origin" None false []
                          Runs.fetchFailed []
                          (snd (executePull Scenario.fetchAndPopFail "origin" None false []))
                          _)) eq_refl).
  vm_compute. reflexivity.
Defined.

Lemma success_is_backed_witness :
  existsb (completes PullResult.Rebase)
          (snd (executePull Runs.lockResolved "origin" None false [])) = true.
Proof.
  apply (success_is_backed_by_its_command Runs.lockResolved "origin" None false []
           Runs.lockOutcome []).
  - vm_compute. reflexivity.
  - reflexivity.
Defined.

Lemma success_reports_stash_witness :
  let log := snd (executePull Runs.popFails "origin" None false []) in
  stashRun Clean log = Some PopFailed /\
  PullResult.stashApplied Runs.popFailsOutcome = existsb isStashPushReturned log /\
  existsb isStashPop log = PullResult.stashApplied Runs.popFailsOutcome.
Proof.
  split; [vm_compute; reflexivity|].
  apply (success_reports_stash_created Runs.popFails "origin" None false []
           Runs.popFailsOutcome []).
  - vm_compute. reflexivity.
  - reflexivity.
Defined.

Lemma pause_witness :
  let log := snd (executePull Scenario.rebaseStopsOnSource "origin" None false []) in
  existsb isStashPop log = false /\
  existsb isCommit log = false /\
  (PullResult.strategy Scenario.paused = PullResult.Rebase ->
   attempts log = [PullResult.FastForward; PullResult.Rebase]) /\
  (PullResult.strategy Scenario.paused = PullResult.Merge ->
   exists before, attempts log = (before ++ [PullResult.Merge])%list).
Proof.
  apply (pause_leaves_operation_in_progress Scenario.rebaseStopsOnSource "origin" None false []
           Scenario.paused []).
  - vm_compute. reflexivity.
  - discriminate.
Defined.

Lemma install_witness :
  exists result,
    fst (fst (executePull Runs.lockResolved "origin" None false [])) = Ok result /\
    PullResult.success result = true /\ PullResult.hadConflicts result = true /\
    existsb isPackageLock (PullResult.autoResolved result) = true.
Proof.
  apply (install_only_after_resolved_lock Runs.lockResolved "origin" None false []
           _ [] (snd (executePull Runs.lockResolved "origin" None false []))).
  - vm_compute. reflexivity.
  - vm_compute. reflexivity.
Defined.

Lemma giving_up_witness :
  stashRun Clean (snd (executePull Runs.nothingWorks "origin" None false [])) = Some Stashed /\
  existsb isStashPop (snd (executePull Runs.nothingWorks "origin" None false [])) = false.
Proof.
  split; [vm_compute; reflexivity|].
  apply (giving_up_preserves_stash Runs.nothingWorks "origin" None false []
           (Ok pullFailed) []).
  - vm_compute. reflexivity.
  - now left.
Defined.

Lemma stash_applied_witness :
  existsb isStashPushReturned
          (snd (executePull Scenario.fetchAndPopFail "origin" None false [])) = true /\
  false = false.
Proof.
  apply (stash_applied_needs_stash Scenario.fetchAndPopFail "origin" None false []
           Runs.fetchFailed []).
  - vm_compute. reflexivity.
  - reflexivity.
Defined.

(* ================================================================== *)
(** * What the conflict resolution does *)
(* ================================================================== *)

(** A call touches one file at most. *)
Lemma touches_one_file f g c : touches f c -> touches g c -> f = g.
Proof.
  unfold touches.
  intros [-> | [[_ ->] | [_ [-> | [x ->]]]]] [E | [[_ E] | [_ [E | [y E]]]]];
    try discriminate E; now inversion E.
Qed.

Section Resolving.
Context {World : Type} (env : Collaborators World).

Lemma autoResolveConflicts_run w files w1 t :
  getConflictedFiles env w = (Ok files, w1, t) ->
  forall dry, autoResolveConflicts env dry w
              = (let '(r, w', log) := autoResolveLoop env files dry [] [] w1 in
                 (r, w', (t ++ log)%list)).
Proof.
  intros Q dry. unfold autoResolveConflicts, bind. rewrite Q.
  destruct (autoResolveLoop env files dry [] [] w1) as [[r w'] log]. reflexivity.
Qed.

(** X9: the version-bump resolution never throws and touches its file
    only: its calls are reads and writes of [filepath]; it reports
    resolved exactly when a write of the file returned, and a failure
    always carries an error text. *)
Theorem version_bump_resolved_iff_written filepath w :
  exists r w' log,
    tryResolvePackageJsonConflict env filepath w = (Ok r, w', log) /\
    (Resolution.resolved r = true <-> written filepath log) /\
    (Resolution.resolved r = false -> Resolution.error r <> None) /\
    (forall e, In e log ->
               call e = ReadFile filepath \/ exists content, call e = WriteFile filepath content).
Proof. exact (tryResolve_spec env filepath w). Qed.

(** X10: [resolveConflict] never throws and echoes its file and strategy;
    in a dry run it calls nothing and reports the file resolved; otherwise
    it reports the file resolved exactly when git add of the file
    returned; a failure always carries an error text. *)
Theorem resolve_conflict_resolved_iff_staged filepath strategy isDryRun w :
  exists r w' log,
    resolveConflict env filepath strategy isDryRun w = (Ok r, w', log) /\
    ConflictResolution.file r = filepath /\
    ConflictResolution.strategy r = strategy /\
    (if isDryRun then ConflictResolution.resolved r = true /\ log = [] /\ w' = w
     else ConflictResolution.resolved r = true <-> In (staged filepath) log) /\
    (ConflictResolution.resolved r = false -> ConflictResolution.error r <> None).
Proof.
  destruct isDryRun.
  { do 3 eexists. split; [reflexivity|]. cbn. repeat split; discriminate. }
  destruct (resolveConflict_spec env filepath strategy w) as (r & w' & log & Run & S & _).
  exists r, w', log. split; [exact Run|].
  destruct (resolveConflict_fields env _ _ _ _ _ _ Run) as (F & St & E). tauto.
Qed.
(** X11: without dry run [autoResolveConflicts] never throws and sorts
    every conflicted file into exactly one of its two lists: resolved
    followed by manual is a permutation of the files that the query
    named, and a file that is no manifest and that the classifier cannot
    resolve is always left for manual resolution. *)
Theorem auto_resolve_partitions_conflicts w files w1 t :
  getConflictedFiles env w = (Ok files, w1, t) ->
  exists resolved manual w' log,
    autoResolveConflicts env false w = (Ok (resolved, manual), w', (t ++ log)%list) /\
    Permutation (resolved ++ manual) files /\
    (forall f, In f resolved -> autoResolvable f = true) /\
    (forall f, In f files -> autoResolvable f = false -> In f manual).
Proof.
  intros Q. rewrite (autoResolveConflicts_run _ _ _ _ Q).
  destruct (autoResolveLoop_spec env files [] [] w1)
    as (res & man & w' & log & -> & P & S & U & _ & _).
  exists res, man, w', log. split; [reflexivity|]. split; [exact P|].
  split; [intros f I; now destruct (S f I) | exact U].
Qed.

(** X12: a file is reported resolved exactly when it was staged: without
    dry run a file is in the resolved list of [autoResolveConflicts] if and
    only if git add of that file returned during the call. *)
Theorem resolved_iff_staged w files w1 t :
  getConflictedFiles env w = (Ok files, w1, t) ->
  exists resolved manual w' log,
    autoResolveConflicts env false w = (Ok (resolved, manual), w', (t ++ log)%list) /\
    forall f, In f resolved <-> In (staged f) log.
Proof.
  intros Q. rewrite (autoResolveConflicts_run _ _ _ _ Q).
  destruct (autoResolveLoop_spec env files [] [] w1)
    as (res & man & w' & log & -> & _ & S & _ & _ & A).
  exists res, man, w', log. split; [reflexivity|].
  intros f. split; [intros I; now destruct (S f I) | apply A].
Qed.

(** X13: a file that the resolution does not attempt is not touched:
    after the query, every call of [autoResolveConflicts] is the check-out,
    the staging, a read or a write of a conflicted file that is a manifest
    or that the classifier can resolve, so no call checks out, stages,
    reads or writes a file that is neither. Manifests are never checked
    out and only manifests are read or written. A file that was attempted
    and whose resolution failed is reported manual as well, after the
    calls made for it. *)
Theorem only_attempted_files_are_touched w files w1 t :
  getConflictedFiles env w = (Ok files, w1, t) ->
  exists resolved manual w' log,
    autoResolveConflicts env false w = (Ok (resolved, manual), w', (t ++ log)%list) /\
    (forall e, In e log ->
               exists f, In f files /\ autoResolvable f = true /\ touches f (call e)) /\
    (forall f e, autoResolvable f = false -> In e log -> ~ touches f (call e)).
Proof.
  intros Q. rewrite (autoResolveConflicts_run _ _ _ _ Q).
  destruct (autoResolveLoop_spec env files [] [] w1)
    as (res & man & w' & log & -> & _ & _ & _ & C & _).
  exists res, man, w', log. split; [reflexivity|]. split; [exact C|].
  intros f e N I T. destruct (C e I) as (g & _ & A & Tg).
  rewrite (touches_one_file _ _ _ T Tg) in N. congruence.
Qed.

(** X14: in a dry run [autoResolveConflicts] only asks for the conflicted
    files and sorts them by name alone: the manifests and the files that
    the classifier can resolve are reported resolved, in their order, the
    others manual, and nothing is checked out, staged, read or written. *)
Theorem dry_run_resolution_by_name w files w1 t :
  getConflictedFiles env w = (Ok files, w1, t) ->
  autoResolveConflicts env true w
  = (Ok (filter autoResolvable files, filter (fun f => negb (autoResolvable f)) files),
     w1, t).
Proof.
  intros Q. rewrite (autoResolveConflicts_run _ _ _ _ Q), autoResolveLoop_dry.
  cbn [app]. now rewrite app_nil_r.
Qed.

(** X15: [getConflictedFiles] never throws and makes the one query; when
    the query throws the answer is the empty list; every name of the
    answer holds a character that is not white space and holds no line
    feed. *)
Theorem conflicted_files_are_names w :
  exists files w' ok,
    getConflictedFiles env w = (Ok files, w', [mkEvent conflictQuery ok]) /\
    (ok = false -> files = []) /\
    (forall f, In f files -> Js.trim f <> "" /\ oneLine f).
Proof.
  unfold getConflictedFiles, conflictQuery. monad. oracle.
  - do 3 eexists. split; [reflexivity|]. split; [discriminate|].
    intros f I. apply filter_In in I. destruct I as [I T]. split.
    + intros E. rewrite E in T. discriminate T.
    + exact (splitLF_oneLine _ _ I).
  - do 3 eexists. split; [reflexivity|]. split; [reflexivity|]. intros f [].
Qed.

(** X16: [getConflictedFiles] reads back what git prints: when the query
    returns the names one per line, each followed by a line feed, and
    every name is non-empty, free of line feeds and of white space at its
    ends, the answer is the list of these names, in order. *)
Theorem conflicted_files_round_trip names w w1 :
  (forall n, In n names -> n <> "" /\ Js.trim n = n /\ oneLine n) ->
  runSecure env "git" ["diff"; "--name-only"; "--diff-filter=U"] w
  = (Ok (Js.joinLF names ++ Js.nl), w1) ->
  getConflictedFiles env w = (Ok names, w1, [mkEvent conflictQuery true]).
Proof.
  intros N Q. unfold getConflictedFiles, conflictQuery. monad. rewrite Q. monad.
  now rewrite (parse_lines names N).
Qed.
End Resolving.

Lemma auto_resolve_partition_witness :
  exists resolved manual w' log,
    autoResolveConflicts Conflicts.mixed false []
    = (Ok (resolved, manual), w', ([mkEvent conflictQuery true] ++ log)%list) /\
    Permutation (resolved ++ manual) Conflicts.mixedFiles /\
    (forall f, In f resolved -> autoResolvable f = true) /\
    (forall f, In f Conflicts.mixedFiles -> autoResolvable f = false -> In f manual).
Proof.
  apply (auto_resolve_partitions_conflicts Conflicts.mixed [] Conflicts.mixedFiles []).
  vm_compute. reflexivity.
Defined.

Lemma resolved_iff_staged_witness :
  exists resolved manual w' log,
    autoResolveConflicts Conflicts.mixed false []
    = (Ok (resolved, manual), w', ([mkEvent conflictQuery true] ++ log)%list) /\
    forall f, In f resolved <-> In (staged f) log.
Proof.
  apply (resolved_iff_staged Conflicts.mixed [] Conflicts.mixedFiles []).
  vm_compute. reflexivity.
Defined.

Lemma only_attempted_files_witness :
  exists resolved manual w' log,
    autoResolveConflicts Conflicts.mixed false []
    = (Ok (resolved, manual), w', ([mkEvent conflictQuery true] ++ log)%list) /\
    (forall e, In e log ->
               exists f, In f Conflicts.mixedFiles /\ autoResolvable f = true /\
                         touches f (call e)) /\
    (forall f e, autoResolvable f = false -> In e log -> ~ touches f (call e)).
Proof.
  apply (only_attempted_files_are_touched Conflicts.mixed [] Conflicts.mixedFiles []).
  vm_compute. reflexivity.
Defined.

Lemma dry_run_resolution_witness :
  autoResolveConflicts Conflicts.mixed true []
  = (Ok (["package-lock.json"; "dist/index.js"], ["src/app.ts"]), [],
     [mkEvent conflictQuery true]).
Proof.
  exact (dry_run_resolution_by_name Conflicts.mixed [] Conflicts.mixedFiles []
           [mkEvent conflictQuery true] eq_refl).
Defined.

Lemma conflicted_files_witness :
  getConflictedFiles Conflicts.mixed []
  = (Ok Conflicts.mixedFiles, [], [mkEvent conflictQuery true]).
Proof.
  apply (conflicted_files_round_trip Conflicts.mixed Conflicts.mixedFiles [] []).
  - intros n I. cbn in I. decompose [or] I; subst; try contradiction;
      repeat split; discriminate.
  - reflexivity.
Defined.

(* ================================================================== *)
(** * The deduplication of the splits *)
(* ================================================================== *)

Lemma setHas_In s x : setHas s x = true <-> In x s.
Proof.
  unfold setHas. rewrite existsb_exists. split.
  - intros (y & I & E). apply String.eqb_eq in E. now subst.
  - intros I. exists x. split; [exact I | apply String.eqb_refl].
Qed.

Lemma setHas_false s x : setHas s x = false <-> ~ In x s.
Proof.
  rewrite <- setHas_In. destruct (setHas s x); split; congruence.
Qed.

Lemma allFiles_app a b : allFiles (a ++ b) = (allFiles a ++ allFiles b)%list.
Proof. unfold allFiles. now rewrite map_app, concat_app. Qed.

Lemma allFiles_cons s rest : allFiles (s :: rest) = (CommitSplit.files s ++ allFiles rest)%list.
Proof. reflexivity. Qed.

Lemma NoDup_snoc (l : list string) x : NoDup l -> ~ In x l -> NoDup (l ++ [x]).
Proof.
  intros N I. apply NoDup_app; [exact N | repeat constructor; intros [] | ].
  intros y Y [<- | []]. contradiction.
Qed.

(** What the inner loop keeps: the set and the unique files grow by the
    same files [fresh], none of which was in the set, and the files of the
    split are the fresh ones and the duplicates [more]. *)
Lemma claimFiles_spec files claimed unique dups :
  NoDup claimed ->
  exists fresh more,
    claimFiles files claimed unique dups
    = ((claimed ++ fresh)%list, (unique ++ fresh)%list, (dups ++ more)%list) /\
    NoDup (claimed ++ fresh) /\
    (forall f, In f files <-> In f fresh \/ In f more) /\
    (forall f, In f more -> In f (claimed ++ fresh)) /\
    ((more = [] /\ fresh = files) \/
     (more <> [] /\ (List.length fresh < List.length files)%nat)) /\
    (List.length fresh <= List.length files)%nat.
Proof.
  revert claimed unique dups. induction files as [|file rest IH]; intros claimed unique dups N.
  - exists [], []. cbn. rewrite !app_nil_r. repeat split; auto; tauto.
  - cbn [claimFiles]. destruct (setHas claimed file) eqn:H.
    + destruct (IH claimed unique (dups ++ [file])%list N)
        as (fresh & more & -> & N' & I & D & E & L).
      exists fresh, (file :: more). rewrite <- app_assoc. split; [reflexivity|].
      split; [exact N'|]. split; [|split; [|split]].
      * intros f. cbn. rewrite I. tauto.
      * intros f [<- | M]; [|now apply D]. apply in_or_app. left. now apply setHas_In.
      * right. split; [discriminate | cbn; lia].
      * cbn; lia.
    + unfold setAdd. rewrite H. apply setHas_false in H.
      destruct (IH (claimed ++ [file])%list (unique ++ [file])%list dups (NoDup_snoc _ _ N H))
        as (fresh & more & -> & N' & I & D & E & L).
      exists (file :: fresh), more. rewrite <- !app_assoc. split; [reflexivity|].
      rewrite <- app_assoc in N'. split; [exact N'|]. split; [|split; [|split]].
      * intros f. cbn. rewrite I. tauto.
      * intros f M. specialize (D f M). now rewrite <- app_assoc in D.
      * destruct E as [[-> ->] | [E1 E2]]; [left; now split | right; split; [exact E1 | cbn; lia]].
      * cbn; lia.
Qed.

Lemma claimFiles_fresh files claimed unique dups :
  NoDup (claimed ++ files) ->
  claimFiles files claimed unique dups = ((claimed ++ files)%list, (unique ++ files)%list, dups).
Proof.
  revert claimed unique. induction files as [|file rest IH]; intros claimed unique N.
  - cbn. now rewrite !app_nil_r.
  - cbn [claimFiles].
    assert (H : setHas claimed file = false).
    { apply setHas_false. intros I. apply NoDup_remove_2 in N. apply N.
      apply in_or_app. now left. }
    unfold setAdd. rewrite H.
    replace (claimed ++ file :: rest)%list with ((claimed ++ [file]) ++ rest)%list in *
      by now rewrite <- app_assoc.
    rewrite (IH _ _ N). now rewrite <- !app_assoc.
Qed.


Lemma length_zero_ltb {A} (l : list A) : (0 <? List.length l)%nat = false <-> l = [].
Proof. destruct l; cbn; split; congruence. Qed.

Lemma deduplicateLoop_spec splits claimed result warnings :
  NoDup claimed ->
  exists kept notes,
    deduplicateLoop splits claimed result warnings
    = ((result ++ kept)%list, (warnings ++ notes)%list) /\
    NoDup (claimed ++ allFiles kept) /\
    Forall nonEmpty kept /\
    (forall f, In f (claimed ++ allFiles kept) <-> In f (claimed ++ allFiles splits)) /\
    ((notes = [] /\ kept = splits) \/
     (notes <> [] /\
      (List.length (allFiles kept) + List.length kept
       < List.length (allFiles splits) + List.length splits)%nat)) /\
    (List.length (allFiles kept) + List.length kept
     <= List.length (allFiles splits) + List.length splits)%nat.
Proof.
  revert claimed result warnings.
  induction splits as [|split rest IH]; intros claimed result warnings N.
  - exists [], []. cbn. rewrite !app_nil_r. repeat split; auto; try constructor.
  - cbn [deduplicateLoop].
    destruct (claimFiles_spec (CommitSplit.files split) claimed [] [] N)
      as (fresh & more & -> & N1 & I1 & D1 & E1 & L1).
    cbn [app].
    destruct (IH (claimed ++ fresh)%list
                 (if (0 <? List.length fresh)%nat
                  then (result ++ [CommitSplit.mk fresh (CommitSplit.message split)
                                                  (CommitSplit.rationale split)])%list
                  else result)
                 (let warned := if (0 <? List.length more)%nat
                                then (warnings ++ [duplicatesWarning split more])%list
                                else warnings in
                  if (0 <? List.length fresh)%nat then warned
                  else (warned ++ [emptySplitWarning split])%list) N1)
      as (kept & notes & Run & N2 & F2 & I2 & E2 & L2).
    cbv zeta in Run.
    assert (Files : forall f, In f (claimed ++ fresh ++ allFiles rest)
                              <-> In f (claimed ++ allFiles (split :: rest))).
    { intros f. rewrite allFiles_cons, !in_app_iff, (I1 f). split; [tauto|].
      intros [C | [[Fr | Mo] | R]]; try tauto.
      specialize (D1 f Mo). apply in_app_or in D1. tauto. }
    rewrite allFiles_cons, !length_app. cbn [List.length].
    destruct (0 <? List.length fresh)%nat eqn:NE.
    + exists (CommitSplit.mk fresh (CommitSplit.message split) (CommitSplit.rationale split)
                :: kept).
      exists ((if (0 <? List.length more)%nat then [duplicatesWarning split more] else [])
                ++ notes)%list.
      split.
      { rewrite Run. rewrite <- !app_assoc. cbn [app].
        destruct (0 <? List.length more)%nat; rewrite <- ?app_assoc; reflexivity. }
      rewrite allFiles_cons. cbn [CommitSplit.files]. rewrite length_app. cbn [List.length].
      split; [now rewrite app_assoc|].
      split.
      { constructor; [|exact F2]. unfold nonEmpty. cbn. intros ->. discriminate NE. }
      split.
      { intros f. rewrite <- Files. specialize (I2 f). cbn [CommitSplit.files].
        rewrite !in_app_iff in *. tauto. }
      split; [|lia].
      destruct E1 as [[-> ->] | [M1 Lt]].
      * cbn [List.length Nat.ltb Nat.leb app].
        destruct E2 as [[-> ->] | [M2 Lt2]].
        -- left. split; [reflexivity|]. now destruct split.
        -- right. split; [exact M2 | lia].
      * right. split; [|lia].
        destruct more; [congruence|]. cbn. discriminate.
    + apply length_zero_ltb in NE. subst fresh.
      exists kept.
      exists ((if (0 <? List.length more)%nat then [duplicatesWarning split more] else [])
                ++ [emptySplitWarning split] ++ notes)%list.
      split.
      { rewrite Run. rewrite <- !app_assoc. cbn [app].
        destruct (0 <? List.length more)%nat; rewrite <- ?app_assoc; reflexivity. }
      rewrite app_nil_r in *. split; [exact N2|]. split; [exact F2|].
      split.
      { intros f. rewrite <- Files. specialize (I2 f). cbn [app] in *.
        rewrite !in_app_iff in *. tauto. }
      cbn [List.length] in *. split; [|lia].
      right. split; [|lia].
      destruct (0 <? List.length more)%nat; cbn; discriminate.
Qed.

Lemma deduplicateLoop_fixed splits claimed result warnings :
  NoDup (claimed ++ allFiles splits) -> Forall nonEmpty splits ->
  deduplicateLoop splits claimed result warnings = ((result ++ splits)%list, warnings).
Proof.
  revert claimed result warnings.
  induction splits as [|split rest IH]; intros claimed result warnings N F.
  - cbn. now rewrite app_nil_r.
  - cbn [deduplicateLoop]. rewrite allFiles_cons, app_assoc in N.
    rewrite claimFiles_fresh by (now apply NoDup_app_remove_r in N).
    cbn [app List.length Nat.ltb Nat.leb].
    inversion F as [|? ? NE F']; subst.
    destruct (CommitSplit.files split) as [|f fs] eqn:Fs; [now destruct NE|].
    cbn [List.length Nat.ltb Nat.leb]. rewrite IH by assumption.
    rewrite <- app_assoc. cbn [app]. rewrite <- Fs. now destruct split.
Qed.

(** X17: after [deduplicateSplits] no file is committed twice: over all
    the splits returned, every file appears once, and no split returned is
    empty. *)
Theorem deduplicated_files_are_unique splits :
  NoDup (allFiles (fst (deduplicateSplits splits))) /\
  Forall (fun s => CommitSplit.files s <> []) (fst (deduplicateSplits splits)).
Proof.
  unfold deduplicateSplits.
  destruct (deduplicateLoop_spec splits [] [] [] (NoDup_nil _))
    as (kept & notes & -> & N & F & _). cbn. split; [exact N | exact F].
Qed.

(** X18: [deduplicateSplits] loses no file: a file is in some split
    returned exactly when it is in some split given; hence the answer is
    empty, which makes the command fail, exactly when the splits given
    hold no file at all. *)
Theorem deduplication_keeps_every_file splits :
  (forall f, In f (allFiles (fst (deduplicateSplits splits))) <-> In f (allFiles splits)) /\
  (fst (deduplicateSplits splits) = [] <-> allFiles splits = []).
Proof.
  unfold deduplicateSplits.
  destruct (deduplicateLoop_spec splits [] [] [] (NoDup_nil _))
    as (kept & notes & -> & _ & F & I & _). cbn in *.
  split; [exact I|]. split.
  - intros ->. destruct (allFiles splits) as [|f l] eqn:E; [reflexivity|].
    destruct (proj2 (I f) (or_introl eq_refl)).
  - intros E. destruct kept as [|s kept]; [reflexivity|].
    inversion F as [|? ? NE _]; subst. unfold nonEmpty in NE.
    destruct (CommitSplit.files s) as [|f fs] eqn:Fs; [now destruct NE|].
    assert (X : In f (allFiles (s :: kept))).
    { rewrite allFiles_cons, Fs. now left. }
    apply I in X. rewrite E in X. destruct X.
Qed.

(** X19: the warnings tell whether anything changed: [deduplicateSplits]
    logs no warning exactly when it returns the splits as given, and that
    is the case exactly when no file is repeated and no split is empty. *)
Theorem no_warning_iff_unchanged splits :
  (snd (deduplicateSplits splits) = [] <-> fst (deduplicateSplits splits) = splits) /\
  (fst (deduplicateSplits splits) = splits <->
   NoDup (allFiles splits) /\ Forall (fun s => CommitSplit.files s <> []) splits).
Proof.
  assert (A : snd (deduplicateSplits splits) = [] <-> fst (deduplicateSplits splits) = splits).
  { unfold deduplicateSplits.
    destruct (deduplicateLoop_spec splits [] [] [] (NoDup_nil _))
      as (kept & notes & -> & _ & _ & _ & E & _). cbn.
    destruct E as [[-> ->] | [NE Lt]]; [tauto|].
    split; [congruence | intros ->; lia]. }
  split; [exact A|]. unfold deduplicateSplits. split.
  - destruct (deduplicateLoop_spec splits [] [] [] (NoDup_nil _))
      as (kept & notes & -> & N & F & _). cbn. intros <-. split; [exact N | exact F].
  - intros [N F]. now rewrite deduplicateLoop_fixed.
Qed.

(** X20: [deduplicateSplits] is idempotent: given its own answer it
    returns it unchanged and logs nothing. *)
Theorem deduplication_is_idempotent splits :
  deduplicateSplits (fst (deduplicateSplits splits)) = (fst (deduplicateSplits splits), []).
Proof.
  unfold deduplicateSplits.
  destruct (deduplicateLoop_spec splits [] [] [] (NoDup_nil _))
    as (kept & notes & -> & N & F & _). cbn.
  now rewrite deduplicateLoop_fixed.
Qed.

(** X21: the earlier split wins: a file of the first split that is given
    is never moved to a later one: the first split returned holds the
    files of the first split given without their repetitions, whenever
    that split has a file. *)
Theorem first_split_keeps_its_files split rest :
  CommitSplit.files split <> [] ->
  exists kept others,
    fst (deduplicateSplits (split :: rest)) = kept :: others /\
    CommitSplit.message kept = CommitSplit.message split /\
    CommitSplit.rationale kept = CommitSplit.rationale split /\
    NoDup (CommitSplit.files kept) /\
    (forall f, In f (CommitSplit.files kept) <-> In f (CommitSplit.files split)).
Proof.
  intros NE. unfold deduplicateSplits. cbn [deduplicateLoop].
  destruct (claimFiles_spec (CommitSplit.files split) [] [] [] (NoDup_nil _))
    as (fresh & more & -> & N1 & I1 & D1 & E1 & L1).
  cbn [app] in *.
  assert (In1 : forall f, In f fresh <-> In f (CommitSplit.files split)).
  { intros f. rewrite (I1 f). split; [tauto|]. intros [X | X]; [exact X | now apply D1]. }
  destruct fresh as [|f0 fresh].
  { destruct (CommitSplit.files split) as [|f fs]; [now destruct NE|].
    destruct (proj2 (In1 f) (or_introl eq_refl)). }
  cbn [List.length Nat.ltb Nat.leb].
  match goal with
  | |- context [deduplicateLoop rest ?c ?r ?w] =>
      destruct (deduplicateLoop_spec rest c r w N1) as (kept & notes & -> & _)
  end.
  cbn. do 2 eexists. split; [reflexivity|]. cbn. auto.
Qed.

Lemma first_split_witness :
  exists kept others,
    fst (deduplicateSplits
           [CommitSplit.mk ["a.ts"; "b.ts"; "a.ts"] "feat: a" "first";
            CommitSplit.mk ["b.ts"] "fix: b" "second"]) = kept :: others /\
    CommitSplit.message kept = "feat: a" /\
    CommitSplit.rationale kept = "first" /\
    NoDup (CommitSplit.files kept) /\
    (forall f, In f (CommitSplit.files kept) <-> In f ["a.ts"; "b.ts"; "a.ts"]).
Proof.
  apply (first_split_keeps_its_files
           (CommitSplit.mk ["a.ts"; "b.ts"; "a.ts"] "feat: a" "first")
           [CommitSplit.mk ["b.ts"] "fix: b" "second"]).
  discriminate.
Defined.

(* ================================================================== *)
(** * The helpers of the commit command *)
(* ================================================================== *)

Section CommitHelperFacts.
Context {World : Type} (env : Collaborators World).

Lemma readContextLoop_spec files parts w :
  exists blocks w' log,
    readContextLoop env files parts w = (Ok (parts ++ blocks)%list, w', log) /\
    map call log = map ReadFile files /\
    List.length blocks = List.length (filter returned log).
Proof.
  revert parts w. induction files as [|f files IH]; intros parts w.
  - exists [], w, []. cbn. now rewrite app_nil_r.
  - cbn [readContextLoop]. monad. oracle.
    + destruct (IH (parts ++ [contextBlock f content])%list w0)
        as (blocks & w' & log & -> & C & L).
      exists (contextBlock f content :: blocks), w', (mkEvent (ReadFile f) true :: log).
      rewrite <- app_assoc. split; [reflexivity|]. cbn. now rewrite C, L.
    + destruct (IH parts w0) as (blocks & w' & log & -> & C & L).
      exists blocks, w', (mkEvent (ReadFile f) false :: log).
      split; [reflexivity|]. cbn. now rewrite C, L.
Qed.

(** X22: [readContextFiles] never throws and reads every context file
    once, in order, and calls nothing else: a file that cannot be read is
    skipped and the loop goes on; when no read returns, and when no file
    is given, the context is the empty text. *)
Theorem context_files_are_read_once_each contextFiles w :
  exists out w' log,
    readContextFiles env contextFiles w = (Ok out, w', log) /\
    map call log = map ReadFile (match contextFiles with Some files => files | None => [] end) /\
    (existsb returned log = false -> out = "").
Proof.
  destruct contextFiles as [[|f files]|].
  1, 3: exists "", w, []; repeat split.
  unfold readContextFiles, bind, ret.
  destruct (readContextLoop_spec (f :: files) [] w) as (blocks & w' & log & -> & C & L).
  do 3 eexists. split; [reflexivity|]. rewrite app_nil_r. split; [exact C|].
  intros None.
  assert (F : filter returned log = []).
  { clear -None. induction log as [|e log IH]; [reflexivity|]. cbn in *.
    apply orb_false_iff in None. destruct None as [-> N]. now apply IH. }
  rewrite F in L. destruct blocks; [reflexivity | discriminate L].
Qed.

(** X23: [pushCommit] runs at most one command. Without a request to
    push (undefined, false or the empty text) and in a dry run it calls
    nothing and returns; otherwise its one call is git push with the
    remote given, origin when the request is just true, and it throws
    exactly when that command throws. *)
Theorem push_runs_one_command pushConfig isDryRun w :
  exists r w' log,
    pushCommit env pushConfig isDryRun w = (r, w', log) /\
    (if pushRequested pushConfig && negb isDryRun
     then exists ok, log = [mkEvent (Run ("git push " ++ pushRemote pushConfig)) ok] /\
                     isOk r = ok
     else r = Ok tt /\ w' = w /\ log = []).
Proof.
  unfold pushCommit. destruct (pushRequested pushConfig); cbn [negb andb].
  2:{ do 3 eexists. split; [reflexivity|]. auto. }
  destruct isDryRun; cbn [negb].
  { do 3 eexists. split; [reflexivity|]. auto. }
  monad. oracle; do 3 eexists; (split; [reflexivity|]); eexists; split; reflexivity.
Qed.

Variable hasStagedChanges : M World bool.

(** X24: with amend or add the staged changes are what is committed:
    [determineCachedState] then answers true whenever it returns, even
    when cached is explicitly false, without asking for the staged
    changes, so that [validateSenditState] never reports that there is
    nothing to commit; and with amend in a repository without commits it
    throws. *)
Theorem amend_or_add_use_staged_changes commit isDryRun w :
  flag commit CommitConfig.amend || flag commit CommitConfig.add = true ->
  exists r w' log,
    determineCachedState env hasStagedChanges commit w = (r, w', log) /\
    (forall other, determineCachedState env other commit w = (r, w', log)) /\
    (forall cached, r = Ok cached ->
                    cached = true /\ validateSenditState commit cached isDryRun = true) /\
    (flag commit CommitConfig.amend = true ->
     exists ok, log = [mkEvent (Run "git rev-parse HEAD") ok] /\ isOk r = ok).
Proof.
  intros F. unfold determineCachedState, hasCommits.
  destruct (flag commit CommitConfig.amend) eqn:A.
  - monad. oracle; do 3 eexists; (split; [reflexivity|]);
      (split; [reflexivity|]); (split; [|intros _; eexists; split; reflexivity]);
      intros cached Eq; inversion Eq; subst.
    unfold validateSenditState. cbn. rewrite andb_false_r. auto.
  - cbn in F. rewrite F. do 3 eexists. split; [reflexivity|]. split; [reflexivity|].
    split; [|discriminate]. intros cached Eq; inversion Eq; subst.
    unfold validateSenditState. cbn. rewrite andb_false_r. auto.
Qed.

Variable getTimestampedCommitFilename : World -> string.
Variable getOutputPath : string -> string -> string.

(** X25: [saveCommitMessage] never throws and stops at the first write
    that returns: it makes one to three calls, each a write of the
    summary, every call before the last one threw, and the third write is
    tried only when the two before it threw; the paths are the timestamped
    file in the output directory, then the same file under output, then
    commit-message-<time>.txt in the working directory. *)
Theorem commit_message_saved_once outputDirectory summary w :
  exists w' failed last,
    saveCommitMessage env getTimestampedCommitFilename getOutputPath outputDirectory summary w
    = (Ok tt, w', (failed ++ [last])%list) /\
    forallb (fun e => negb (returned e)) failed = true /\
    (returned last = true \/ List.length failed = 2) /\
    (exists time,
        let name := getTimestampedCommitFilename w in
        map call (failed ++ [last])
        = firstn (S (List.length failed))
            [WriteFile (getOutputPath outputDirectory name) summary;
             WriteFile (getOutputPath "output" name) summary;
             WriteFile ("commit-message-" ++ Js.ofN time ++ ".txt") summary]).
Proof.
  unfold saveCommitMessage, save. monad. oracle.
  { eexists; exists []; eexists. split; [cbn; reflexivity|]. cbn.
    split; [reflexivity|]. split; [auto|]. exists 0%N. reflexivity. }
  oracle.
  { eexists; exists [mkEvent (WriteFile (getOutputPath outputDirectory
                                           (getTimestampedCommitFilename w)) summary) false];
      eexists. split; [cbn; reflexivity|]. cbn.
    split; [reflexivity|]. split; [auto|]. exists 0%N. reflexivity. }
  oracle.
  all: eexists;
    exists [mkEvent (WriteFile (getOutputPath outputDirectory
                                  (getTimestampedCommitFilename w)) summary) false;
            mkEvent (WriteFile (getOutputPath "output"
                                  (getTimestampedCommitFilename w)) summary) false];
    eexists; (split; [cbn; reflexivity|]); cbn;
    (split; [reflexivity|]); (split; [auto|]); eexists; reflexivity.
Qed.
End CommitHelperFacts.

Lemma amend_or_add_witness :
  exists r w' log,
    determineCachedState Scenario.upToDate (ret true)
      (Some (CommitConfig.mk None (Some true) (Some false) (Some true))) []
    = (r, w', log) /\
    (forall other,
        determineCachedState Scenario.upToDate other
          (Some (CommitConfig.mk None (Some true) (Some false) (Some true))) []
        = (r, w', log)) /\
    (forall cached,
        r = Ok cached ->
        cached = true /\
        validateSenditState (Some (CommitConfig.mk None (Some true) (Some false) (Some true)))
                            cached false = true) /\
    (flag (Some (CommitConfig.mk None (Some true) (Some false) (Some true)))
          CommitConfig.amend = true ->
     exists ok, log = [mkEvent (Run "git rev-parse HEAD") ok] /\ isOk r = ok).
Proof.
  apply (amend_or_add_use_staged_changes Scenario.upToDate (ret true)
           (Some (CommitConfig.mk None (Some true) (Some false) (Some true))) false []).
  reflexivity.
Defined.

(* ================================================================== *)
(** * The split commits *)
(* ================================================================== *)

Lemma Subsequence_nil {A} (l : list A) : Subsequence [] l.
Proof. induction l; constructor; assumption. Qed.

Lemma Subsequence_refl {A} (l : list A) : Subsequence l l.
Proof. induction l; constructor; assumption. Qed.

Lemma Subsequence_length {A} (k l : list A) :
  Subsequence k l -> (List.length k <= List.length l)%nat.
Proof. induction 1; cbn; lia. Qed.

Lemma Subsequence_full {A} (k l : list A) :
  Subsequence k l -> List.length k = List.length l -> k = l.
Proof.
  induction 1; cbn; intros L; [reflexivity | | f_equal; apply IHSubsequence; lia].
  apply Subsequence_length in H. lia.
Qed.

(** Case analysis on whatever the computation under scrutiny gives. *)
Ltac scrutinee :=
  match goal with
  | |- context [match ?x with _ => _ end] =>
      lazymatch x with
      | context [match _ with _ => _ end] => fail
      | _ => destruct x eqn:?
      end
  end.

Section SplitCommitFacts.
Context {World : Type} (env : Collaborators World).
Variable getUserChoice : string -> list (string * string) -> list string -> M World string.
Variable editContentInEditor : string -> list string -> string -> M World string.
Variable stageFiles : list string -> M World unit.
Variable unstageAll : M World unit.
Variable verifyStagedFiles : list string -> M World Verification.
Variable validateString : option string -> string -> Result string.
Variable shellescape : list string -> string.

Local Abbreviation review :=
  (reviewSplitInteractively getUserChoice editContentInEditor).
Local Abbreviation commitOne :=
  (commitSplit env stageFiles unstageAll verifyStagedFiles validateString shellescape).
Local Abbreviation loop :=
  (splitLoop env getUserChoice editContentInEditor stageFiles unstageAll verifyStagedFiles
             validateString shellescape).

Lemma review_never_edit split i total w r w' log :
  review split i total w = (Ok r, w', log) -> action r <> ActionEdit.
Proof.
  unfold reviewSplitInteractively, editCommitMessageInteractively. monad.
  repeat scrutinee; intros Eq; inversion Eq; subst; cbn; discriminate.
Qed.

Lemma commitSplit_returns dry remaining split commitMessage w :
  exists outcome w' log, commitOne dry remaining split commitMessage w = (Ok outcome, w', log).
Proof.
  unfold commitSplit, createSingleSplitCommit. monad.
  destruct dry; cbn [negb]; repeat scrutinee; eauto.
Qed.
Lemma splitLoop_spec dry interactive total remaining :
  forall i result w,
    exists r w' log,
      loop dry interactive total remaining i result w = (Ok r, w', log) /\
      loopFacts (interactive && negb dry) remaining result r.
Proof.
  induction remaining as [|split rest IH]; intros i result w.
  - exists (SplitCommitResult.withSuccess true result), w, []. split; [reflexivity|].
    exists [], 0%nat, []. cbn. rewrite app_nil_r, !Nat.add_0_r.
    repeat split; auto; try constructor. intros N. now destruct N.
  - cbn [splitLoop]. cbv zeta.
    assert (Create :
              forall w0, exists r w' log,
                (outcome <- commitOne dry (split :: rest) split
                                      (Some (CommitSplit.message split)) ;;
                 match outcome with
                 | inl sha =>
                     loop dry interactive total rest (S i)
                          (SplitCommitResult.created
                             (SplitCommitResult.mkCommit (Some (CommitSplit.message split))
                                                         (CommitSplit.files split) sha)
                             result)
                 | inr message => ret (SplitCommitResult.failed message result)
                 end) w0 = (Ok r, w', log) /\
                loopFacts (interactive && negb dry) (split :: rest) result r).
    { intros w0. unfold bind.
      destruct (commitSplit_returns dry (split :: rest) split
                                    (Some (CommitSplit.message split)) w0)
        as ([sha | message] & w1 & t1 & ->).
      - destruct (IH (S i)
                     (SplitCommitResult.created
                        (SplitCommitResult.mkCommit (Some (CommitSplit.message split))
                                                    (CommitSplit.files split) sha) result) w1)
          as (r & w' & log & -> & new & k & kept & C & N & S & K & L & Su & E & Sub & F).
        do 3 eexists. split; [reflexivity|].
        exists (entryOf split sha :: new), k, (split :: kept).
        cbn [SplitCommitResult.created SplitCommitResult.commits
             SplitCommitResult.commitsCreated SplitCommitResult.skipped
             SplitCommitResult.error List.length] in *.
        rewrite <- app_assoc in C. cbn [app] in C.
        split; [exact C|]. split; [lia|]. split; [exact S|]. split; [exact K|].
        split; [lia|]. split; [intros X; destruct (Su X); split; [assumption | lia]|].
        split; [exact E|]. split; [now constructor|].
        constructor; [now exists sha | exact F].
      - do 3 eexists. split; [reflexivity|].
        exists [], 0%nat, []. cbn. rewrite app_nil_r, !Nat.add_0_r.
        split; [reflexivity|]. split; [reflexivity|]. split; [reflexivity|].
        split; [reflexivity|]. split; [lia|]. split; [discriminate|].
        split; [reflexivity|]. split; [apply Subsequence_nil | constructor]. }
    destruct (interactive && negb dry) eqn:R; [|apply Create].
    unfold bind at 1. unfold tryCatch, bind at 1.
    destruct (review split i total w) as [[[rv | message] w1] t1] eqn:Rv.
    2:{ cbn. do 3 eexists. split; [reflexivity|].
        exists [], 0%nat, []. cbn. rewrite app_nil_r, !Nat.add_0_r.
        split; [reflexivity|]. split; [reflexivity|]. split; [reflexivity|].
        split; [discriminate|]. split; [lia|]. split; [discriminate|].
        split; [reflexivity|]. split; [apply Subsequence_nil | constructor]. }
    pose proof (review_never_edit _ _ _ _ _ _ _ Rv) as NoEdit.
    cbn [ret]. destruct (action rv); [| now destruct NoEdit | |].
    + destruct (Create w1) as (r & w' & log & -> & Facts).
      do 3 eexists. split; [reflexivity | exact Facts].
    + destruct (IH (S i) (SplitCommitResult.skip result) w1)
        as (r & w' & log & -> & new & k & kept & C & N & S & K & L & Su & E & Sub & F).
      do 3 eexists. split; [reflexivity|].
      exists new, (Datatypes.S k), kept.
      cbn [SplitCommitResult.skip SplitCommitResult.commits
           SplitCommitResult.commitsCreated SplitCommitResult.skipped
           SplitCommitResult.error List.length] in *.
      split; [exact C|]. split; [exact N|]. split; [lia|]. split; [discriminate|].
      split; [lia|]. split; [intros X; destruct (Su X); split; [assumption | lia]|].
      split; [exact E|]. split; [now constructor | exact F].
    + do 3 eexists. split; [reflexivity|].
      exists [], 0%nat, []. cbn. rewrite app_nil_r, !Nat.add_0_r.
      split; [reflexivity|]. split; [reflexivity|]. split; [reflexivity|].
      split; [discriminate|]. split; [lia|]. split; [discriminate|].
      split; [intros N; now destruct N|]. split; [apply Subsequence_nil | constructor].
Qed.

Lemma Forall2_length_eq {A B} (P : A -> B -> Prop) l1 l2 :
  Forall2 P l1 l2 -> List.length l1 = List.length l2.
Proof. induction 1; cbn; congruence. Qed.

(** X26: [executeSplitCommits] never throws and keeps its books: the
    counter commitsCreated is the number of entries of commits; commits
    and skips together never exceed the splits given; success means that
    every split was committed or skipped and that no error is recorded; a
    recorded error means failure; and without interaction nothing is
    skipped. *)
Theorem split_commits_are_counted splits isDryRun interactive w :
  exists r w' log,
    executeSplitCommits env getUserChoice editContentInEditor stageFiles unstageAll
      verifyStagedFiles validateString shellescape splits isDryRun interactive w
    = (Ok r, w', log) /\
    SplitCommitResult.commitsCreated r = List.length (SplitCommitResult.commits r) /\
    (SplitCommitResult.commitsCreated r + SplitCommitResult.skipped r
     <= List.length splits)%nat /\
    (SplitCommitResult.success r = true ->
     SplitCommitResult.error r = None /\
     (SplitCommitResult.commitsCreated r + SplitCommitResult.skipped r
      = List.length splits)%nat) /\
    (SplitCommitResult.error r <> None -> SplitCommitResult.success r = false) /\
    (interactive = false -> SplitCommitResult.skipped r = 0%nat).
Proof.
  unfold executeSplitCommits.
  destruct (splitLoop_spec isDryRun interactive (List.length splits) splits 0
                           SplitCommitResult.initial w)
    as (r & w' & log & -> & new & k & kept & C & N & S & K & L & Su & E & _).
  cbn in C, N, S, Su, E. exists r, w', log. split; [reflexivity|].
  rewrite C, N, S. split; [reflexivity|]. split; [exact L|].
  split; [exact Su|]. split; [exact E|]. intros ->. now apply K.
Qed.

(** X27: a commit is always made under the message of its split: the
    entries of commits are, in order, those of some of the splits given,
    each with the message and the files of its split; so the text that
    the user wrote in the editor after choosing to edit is never the
    message of the commit. When the run succeeds and nothing was skipped,
    every split has its entry. *)
Theorem commits_carry_the_messages_of_the_splits splits isDryRun interactive w :
  exists r w' log kept,
    executeSplitCommits env getUserChoice editContentInEditor stageFiles unstageAll
      verifyStagedFiles validateString shellescape splits isDryRun interactive w
    = (Ok r, w', log) /\
    Subsequence kept splits /\
    Forall2 (fun c s => exists sha, c = entryOf s sha) (SplitCommitResult.commits r) kept /\
    (SplitCommitResult.success r = true -> SplitCommitResult.skipped r = 0%nat ->
     kept = splits).
Proof.
  unfold executeSplitCommits.
  destruct (splitLoop_spec isDryRun interactive (List.length splits) splits 0
                           SplitCommitResult.initial w)
    as (r & w' & log & -> & new & k & kept & C & N & S & K & L & Su & E & Sub & F).
  cbn in C, N, S, Su, E. exists r, w', log, kept. split; [reflexivity|].
  split; [exact Sub|]. rewrite C. split; [exact F|].
  intros X Z. destruct (Su X) as [_ Len]. apply Subsequence_full; [exact Sub|].
  apply Forall2_length_eq in F. lia.
Qed.

Lemma splitLoop_dry interactive total remaining :
  forall i result w,
    loop true interactive total remaining i result w
    = (Ok (SplitCommitResult.mk
             true
             (SplitCommitResult.commitsCreated result + List.length remaining)
             (SplitCommitResult.commits result ++ map (fun s => entryOf s None) remaining)
             (SplitCommitResult.error result)
             (SplitCommitResult.skipped result)), w, []).
Proof.
  induction remaining as [|split rest IH]; intros i result w.
  - cbn. now rewrite app_nil_r, Nat.add_0_r.
  - cbn [splitLoop]. cbv zeta. rewrite andb_false_r.
    unfold commitSplit, createSingleSplitCommit. monad. cbn [app].
    rewrite IH. cbn. rewrite <- app_assoc. cbn [app].
    now rewrite Nat.add_succ_r.
Qed.

(** X28: a dry run of [executeSplitCommits] touches nothing, whatever
    the interactive flag says: no collaborator is called, the world is as
    before, and the result is a success that lists every split under its
    own message, without a commit id. *)
Theorem dry_run_lists_every_split splits interactive w :
  executeSplitCommits env getUserChoice editContentInEditor stageFiles unstageAll
    verifyStagedFiles validateString shellescape splits true interactive w
  = (Ok (SplitCommitResult.mk true (List.length splits)
                              (map (fun s => entryOf s None) splits) None 0), w, []).
Proof. unfold executeSplitCommits. now rewrite splitLoop_dry. Qed.
End SplitCommitFacts.

(** The edit is lost: the user chooses to edit and rewrites the message,
    and the commit is made under the message that was proposed. *)
Example edited_message_is_not_committed :
  executeSplitCommits Scenario.upToDate Editing.getUserChoice Editing.editContentInEditor
                      Editing.stageFiles Editing.unstageAll Editing.verifyStagedFiles
                      Editing.validateString Editing.shellescape
                      [Editing.split] false true []
  = (Ok (SplitCommitResult.mk true 1 [entryOf Editing.split (Some "")] None 0), [],
     [mkEvent (Run "git commit -m 'feat: add the app'") true;
      mkEvent (Run "git rev-parse HEAD") true]).
Proof. vm_compute. reflexivity. Qed.
